(** * Market flipper agent: valuation scores, decision engine, inventory sweep

    A shallow embedding of the TypeScript sources
    - [valuation-service/controller.ts], [valuation-service/model.ts]
                                         (heuristic scores, product key,
                                          reference prices, batch ranking),
    - [decision-actor/model.ts], [decision-actor/controller.ts],
      [decision-actor/index.ts]          (budgeted BUY / SKIP decisions),
    - [inventory-actor/model.ts], [inventory-actor/controller.ts]
                                         (inventory, re-listing sweep),
    - [transaction-actor/model.ts], [transaction-actor/controller.ts]
                                         (transaction ledger),
    followed by the properties established about them.

    Modelling conventions.
    - A JavaScript [number] is an exact rational ([Q]); [NaN] and the
      infinities are outside the model.  The rounding of binary64
      arithmetic is not in [Q]: the properties are worded so that it does
      not touch them (single operations, comparisons, ranges, orderings,
      sums taken in the order in which the code takes them), and where it
      changes what the code does the module [Binary64] below shows it on
      the rounding arithmetic itself.  Every division the modelled code
      performs is guarded by the code itself against a zero divisor, but
      for the profit margin of [evaluateSingleListing], which divides by
      the listing's price: the properties that read the margin assume a
      positive price.  [a <= b] is [Qle_bool a b], [a < b] is
      [Qlt_bool a b], [a === b] on numbers is [Qeq_bool a b].
    - A string is a [string] of 8-bit characters; [toLowerCase] acts on the
      ASCII letters.
    - A [Set<string>] is a [gset string]; a [Map<string, V>] whose iteration
      order is observed is an insertion-ordered association list.
    - A template literal is kept as the list of its pieces, so that the
      numbers interpolated into a reasoning text stay visible.
    - [new Date().toISOString()] reads a clock that is passed in explicitly.
    - Objects are values.  Where the source changes an inventory item that
      sits in the [Map] in place, the model writes the changed item back
      under its key; the two agree as long as no item object is filed under
      two keys, which the inventory invariant [wf] below excludes.
    - Log lines are dropped.  The [FLIPPER_INVENTORY.put] calls of the
      inventory code are recorded as a trace and taken to succeed; a
      [FLIPPER_TRANSACTIONS.put] may raise an error; the decision actor's
      [saveState], which copies the state to durable storage after a call,
      and the reload of that copy when the actor is constructed are not
      modelled, and calls to the other actors are taken to succeed. *)

From Stdlib Require Import QArith Qround Qabs Lqa.
From Stdlib Require Import Ascii DecimalString.
From Stdlib Require Floats.SpecFloat.
From stdpp Require Import gmap strings list.

Local Open Scope Q_scope.

(** ** Numbers *)

(** Strict comparison [a < b] of two numbers, as a boolean. *)
Definition Qlt_bool (a b : Q) : bool := negb (Qle_bool b a).

(** [Math.max] and [Math.min] on two numbers. *)
Definition Math_max (a b : Q) : Q := if Qle_bool a b then b else a.
Definition Math_min (a b : Q) : Q := if Qle_bool a b then a else b.

(** ** Template literals *)

(** One piece of a template literal: literal text, an interpolated number
    ([${x}]), or an interpolated [x.toFixed(digits)]. *)
Inductive Piece : Type :=
| Lit (s : string)
| Num (x : Q)
| Fixed (digits : nat) (x : Q).

Definition Template := list Piece.

(** [pad_left n s] prefixes [s] with zeros up to length [n]. *)
Definition pad_left (n : nat) (s : string) : string :=
  String.concat "" (repeat "0"%string (n - String.length s)) +:+ s.

(** [Number.prototype.toFixed], for magnitudes below [10^21]: the sign is
    split off, the magnitude is rounded to the nearest multiple of
    [10^-digits] (ties upwards), and the digits are printed with a decimal
    point before the last [digits] ones. *)
Definition toFixed (digits : nat) (x : Q) : string :=
  let neg := Qlt_bool x 0 in
  let m := Qabs x in
  let n := Qfloor (m * inject_Z (10 ^ Z.of_nat digits) + (1 # 2)) in
  let ds :=
    pad_left (S digits) (NilZero.string_of_uint (N.to_uint (Z.to_N n))) in
  let k := String.length ds in
  let body :=
    match digits with
    | O => ds
    | _ =>
        String.substring 0 (k - digits) ds +:+ "."
        +:+ String.substring (k - digits) digits ds
    end in
  if neg then "-" +:+ body else body.

(** The text of a template, given how a bare number prints. *)
Definition render (show : Q -> string) (t : Template) : string :=
  String.concat ""
    (map (fun p => match p with
                   | Lit s => s
                   | Num x => show x
                   | Fixed d x => toFixed d x
                   end) t).

(** ** Shared types ([types/shared.ts]) *)

Inductive Marketplace := ebay | craigslist | facebook.

Module ScoresBreakdown.
Record t := mk { historical : Q; msrp : Q; scarcity : Q; ratio : Q }.
End ScoresBreakdown.

Module EvaluatedListing.
Record t := mk {
  id : string;
  title : string;
  price : Q;
  url : string;
  marketplace : Marketplace;
  category : string;
  timestamp : string;
  is_undervalued : bool;
  score : Q;
  estimated_resale : Q;
  profit_potential : Q;
  profit_margin : Q;
  reasoning : string;
  scores_breakdown : ScoresBreakdown.t
}.
End EvaluatedListing.

Inductive Action := BUY | SKIP.

#[global] Instance Action_eq_dec : EqDecision Action.
Proof. solve_decision. Defined.

Module Decision.
Record t := mk {
  action : Action;
  item_id : string;
  title : string;
  price : Q;
  score : Q;
  profit_potential : Q;
  reasoning : Template;
  timestamp : string
}.
End Decision.

Module AgentStats.
Record t := mk {
  listings_scanned : Q;
  items_purchased : Q;
  items_listed : Q;
  total_invested : Q;
  potential_revenue : Q;
  expected_profit : Q;
  expected_roi : Q
}.
End AgentStats.

(** ** Decision actor: state and validation ([decision-actor/model.ts]) *)

Module DecisionModel.

Definition MIN_PROFIT_MARGIN : Q := 0.20.
Definition MIN_PROFIT : Q := 50.

Record DecisionActorState := mkState {
  budget : Q;
  purchasedIds : gset string;
  stats : AgentStats.t
}.

Definition zeroStats : AgentStats.t :=
  AgentStats.mk 0 0 0 0 0 0 0.

Definition createInitialState : DecisionActorState :=
  mkState 5000 ∅ zeroStats.

Definition validateBudget (price currentBudget : Q) : bool :=
  if Qle_bool currentBudget 0 then false
  else Qle_bool price currentBudget.

Definition addPurchasedId (id : string) (state : DecisionActorState)
  : DecisionActorState :=
  mkState (budget state) ({[ id ]} ∪ purchasedIds state) (stats state).

Definition hasPurchased (id : string) (state : DecisionActorState) : bool :=
  bool_decide (id ∈ purchasedIds state).

(** The statistics after [updateStats]; the ratio is recomputed only under
    the guard [total_invested > 0], as in the source. *)
Definition updateStats (decision : Decision.t) (state : DecisionActorState)
  : DecisionActorState :=
  match Decision.action decision with
  | BUY =>
      let s := stats state in
      let items := AgentStats.items_purchased s + 1 in
      let invested := AgentStats.total_invested s + Decision.price decision in
      let profit :=
        AgentStats.expected_profit s + Decision.profit_potential decision in
      let revenue :=
        AgentStats.potential_revenue s
        + (Decision.price decision + Decision.profit_potential decision) in
      let roi :=
        if Qlt_bool 0 invested then (profit / invested) * 100
        else AgentStats.expected_roi s in
      mkState (budget state) (purchasedIds state)
        (AgentStats.mk (AgentStats.listings_scanned s) items
           (AgentStats.items_listed s) invested revenue profit roi)
  | SKIP => state
  end.

End DecisionModel.

(** ** Decision actor: workflows ([decision-actor/controller.ts]) *)

Module DecisionController.
Import DecisionModel.

(** The decision record every branch of [evaluateOpportunity] builds: the
    listing's own figures plus an action and a reasoning text. *)
Definition decision_of (a : Action) (item : EvaluatedListing.t)
    (why : Template) (now : string) : Decision.t :=
  Decision.mk a (EvaluatedListing.id item) (EvaluatedListing.title item)
    (EvaluatedListing.price item) (EvaluatedListing.score item)
    (EvaluatedListing.profit_potential item) why now.

Definition evaluateOpportunity (now : string) (item : EvaluatedListing.t)
    (state : DecisionActorState) : Decision.t :=
  if hasPurchased (EvaluatedListing.id item) state then
    decision_of SKIP item [Lit "Already purchased this item"] now
  else if negb (validateBudget (EvaluatedListing.price item) (budget state))
  then
    decision_of SKIP item
      [Lit "Exceeds budget: $"; Num (EvaluatedListing.price item);
       Lit " > $"; Num (budget state)] now
  else if Qlt_bool (EvaluatedListing.profit_margin item) MIN_PROFIT_MARGIN
  then
    decision_of SKIP item
      [Lit "Profit margin too low: ";
       Fixed 1 (EvaluatedListing.profit_margin item * 100); Lit "% < ";
       Fixed 1 (MIN_PROFIT_MARGIN * 100); Lit "%"] now
  else if Qlt_bool (EvaluatedListing.profit_potential item) MIN_PROFIT
  then
    decision_of SKIP item
      [Lit "Profit amount too low: $";
       Num (EvaluatedListing.profit_potential item); Lit " < $";
       Num MIN_PROFIT] now
  else
    decision_of BUY item
      [Lit "Strong opportunity: Profit: $";
       Num (EvaluatedListing.profit_potential item); Lit " (";
       Fixed 1 (EvaluatedListing.profit_margin item * 100);
       Lit "% margin), Score: "; Num (EvaluatedListing.score item)] now.

(** What the loop body of [makeDecisions] does to the state once the
    decision for [item] is known. *)
Definition applyDecision (item : EvaluatedListing.t) (decision : Decision.t)
    (state : DecisionActorState) : DecisionActorState :=
  match Decision.action decision with
  | BUY =>
      let s1 := addPurchasedId (EvaluatedListing.id item) state in
      let s2 := updateStats decision s1 in
      mkState (budget s2 - Decision.price decision) (purchasedIds s2)
        (stats s2)
  | SKIP => state
  end.

(** The [for ... of] loop of [makeDecisions]; [clock i] is the clock
    reading taken for the [i]-th listing of the batch, [n] the index of
    the listing at the head of [evaluated]. *)
Fixpoint decideAll (clock : nat -> string) (n : nat)
    (evaluated : list EvaluatedListing.t) (state : DecisionActorState)
  : list Decision.t * DecisionActorState :=
  match evaluated with
  | [] => ([], state)
  | item :: rest =>
      let decision := evaluateOpportunity (clock n) item state in
      let state' := applyDecision item decision state in
      let '(decisions, final) := decideAll clock (S n) rest state' in
      (decision :: decisions, final)
  end.

Definition freshState (budget : Q) : DecisionActorState :=
  mkState budget ∅ zeroStats.

(** [makeDecisions]: the state object is the caller's when one is given
    (and is then updated in place, so the final state is returned along
    with the decisions), a fresh one holding [budget] otherwise. *)
Definition makeDecisions (clock : nat -> string)
    (evaluated : list EvaluatedListing.t) (budget : Q)
    (existingState : option DecisionActorState)
  : list Decision.t * DecisionActorState :=
  let state := match existingState with
               | Some s => s
               | None => freshState budget
               end in
  decideAll clock 0 evaluated state.

(** A call made to the ledger actors for one purchase. *)
Inductive LedgerCall :=
| TransactionProcessPurchase (item : EvaluatedListing.t)
| InventoryProcessNewPurchase (item : EvaluatedListing.t).

(** [new Map(evaluated.map(item => [item.id, item])).get(id)]: a later
    listing with the same id replaces an earlier one. *)
Fixpoint evaluatedMap_get (id : string) (evaluated : list EvaluatedListing.t)
  : option EvaluatedListing.t :=
  match evaluated with
  | [] => None
  | item :: rest =>
      match evaluatedMap_get id rest with
      | Some later => Some later
      | None => if String.eqb (EvaluatedListing.id item) id then Some item
                else None
      end
  end.

(** [processPurchases]: the ledger calls issued, in order. *)
Definition processPurchases (decisions : list Decision.t)
    (evaluated : list EvaluatedListing.t) : list LedgerCall :=
  let buyDecisions :=
    filter (fun d => Decision.action d = BUY) decisions in
  flat_map (fun d =>
              match evaluatedMap_get (Decision.item_id d) evaluated with
              | None => []
              | Some item =>
                  [TransactionProcessPurchase item;
                   InventoryProcessNewPurchase item]
              end) buyDecisions.

End DecisionController.

(** ** Decision actor: the stateful actor ([decision-actor/index.ts]) *)

Module DecisionActor.
Import DecisionModel.

(** The calls a client can make on the actor.  An argument that may be
    [undefined] at run time is an [option]. *)
Inductive Call :=
| MakeDecisions (evaluated : list EvaluatedListing.t) (budget : option Q)
| GetStats
| UpdateConfig (config_budget : option Q)
| ResetState.

Inductive Reply :=
| Decisions (decisions : list Decision.t)
            (ledger : list DecisionController.LedgerCall)
| Stats (s : AgentStats.t)
| Done.

Definition setBudget (b : option Q) (state : DecisionActorState)
  : DecisionActorState :=
  match b with
  | Some v => mkState v (purchasedIds state) (stats state)
  | None => state
  end.

Definition addScanned (n : nat) (state : DecisionActorState)
  : DecisionActorState :=
  let s := stats state in
  mkState (budget state) (purchasedIds state)
    (AgentStats.mk (AgentStats.listings_scanned s + inject_Z (Z.of_nat n))
       (AgentStats.items_purchased s) (AgentStats.items_listed s)
       (AgentStats.total_invested s) (AgentStats.potential_revenue s)
       (AgentStats.expected_profit s) (AgentStats.expected_roi s)).

Definition makeDecisions (clock : nat -> string)
    (evaluated : list EvaluatedListing.t) (budget : option Q)
    (actorState : DecisionActorState)
  : list Decision.t * list DecisionController.LedgerCall
    * DecisionActorState :=
  let s0 := setBudget budget actorState in
  let '(decisions, s1) :=
    DecisionController.makeDecisions clock evaluated
      (DecisionModel.budget s0) (Some s0) in
  let s2 := addScanned (length evaluated) s1 in
  (decisions, DecisionController.processPurchases decisions evaluated, s2).

Definition getStats (actorState : DecisionActorState) : AgentStats.t :=
  stats actorState.

Definition updateConfig (config_budget : option Q)
    (actorState : DecisionActorState) : DecisionActorState :=
  setBudget config_budget actorState.

Definition resetState (actorState : DecisionActorState)
  : DecisionActorState :=
  createInitialState.

(** One call on the actor: its reply and the actor state it leaves. *)
Definition handle (clock : nat -> string) (c : Call)
    (actorState : DecisionActorState) : Reply * DecisionActorState :=
  match c with
  | MakeDecisions evaluated budget =>
      let '(ds, ledger, s) := makeDecisions clock evaluated budget actorState in
      (Decisions ds ledger, s)
  | GetStats => (Stats (getStats actorState), actorState)
  | UpdateConfig b => (Done, updateConfig b actorState)
  | ResetState => (Done, resetState actorState)
  end.

(** The decisions a reply carries (none unless it answers
    [MakeDecisions]). *)
Definition decisionsOf (r : Reply) : list Decision.t :=
  match r with
  | Decisions ds _ => ds
  | _ => []
  end.

End DecisionActor.

(** ** Valuation service: heuristic scores ([valuation-service/controller.ts]) *)

Module HistoricalData.
Record t := mk { avg : Q; min : Q; max : Q; msrp : Q }.
End HistoricalData.

Module Valuation.

(** [Math.max(0, Math.min(100, score))]. *)
Definition clamp (score : Q) : Q := Math_max 0 (Math_min 100 score).

Definition calculateHistoricalScore (current : Q) (historical : HistoricalData.t)
  : Q :=
  let min := HistoricalData.min historical in
  let max := HistoricalData.max historical in
  if Qeq_bool min max then 100
  else if Qle_bool current min then 100
  else if Qle_bool max current then 0
  else
    let score := 100 * (1 - (current - min) / (max - min)) in
    clamp score.

Definition calculateMSRPScore (current msrp : Q) : Q :=
  if Qeq_bool msrp 0 then 0
  else if Qle_bool msrp current then 0
  else
    let ratio := current / msrp in
    if Qle_bool ratio 0.5 then 100
    else
      let score := 100 * (1 - (ratio - 0.5) / 0.5) in
      clamp score.

(** [String.prototype.toLowerCase], on the ASCII letters. *)
Definition lower_char (c : ascii) : ascii :=
  let n := nat_of_ascii c in
  if (65 <=? n)%nat && (n <=? 90)%nat then ascii_of_nat (n + 32) else c.

Fixpoint toLowerCase (s : string) : string :=
  match s with
  | EmptyString => EmptyString
  | String c rest => String (lower_char c) (toLowerCase rest)
  end.

(** [s.includes(sub)]: [sub] starts at some position of [s]. *)
Fixpoint includes (s sub : string) : bool :=
  String.prefix sub s
  || match s with
     | EmptyString => false
     | String _ rest => includes rest sub
     end.

(** [s.split(sep)] for a one-character separator: the pieces between the
    occurrences of [sep], so the result is never empty and an empty piece
    stands before a leading separator. *)
Fixpoint split (sep : ascii) (s : string) : list string :=
  match s with
  | EmptyString => [EmptyString]
  | String c rest =>
      if Ascii.eqb c sep then EmptyString :: split sep rest
      else match split sep rest with
           | w :: ws => String c w :: ws
           | [] => [String c EmptyString]
           end
  end.

(** A string is falsy exactly when it is empty; [undefined] is falsy. *)
Definition truthy (w : option string) : bool :=
  match w with
  | Some (String _ _) => true
  | _ => false
  end.

Definition extractProductKey (title : string) : string :=
  let titleLower := toLowerCase title in
  if includes titleLower "iphone" then "iphone"
  else if includes titleLower "macbook" then "macbook"
  else if includes titleLower "ps5" then "ps5"
  else if includes titleLower "laptop" then "laptop"
  else if includes titleLower "tv" then "tv"
  else
    let firstWord := head (split " " title) in
    match firstWord with
    | Some w => if truthy firstWord then toLowerCase w else "unknown"
    | None => "unknown"
    end.

End Valuation.

(** ** Inventory actor ([inventory-actor/types.ts], [model.ts], [controller.ts]) *)

Module Listing.
Record t := mk {
  id : string;
  title : string;
  price : Q;
  url : string;
  marketplace : Marketplace;
  category : string;
  timestamp : string
}.
End Listing.

Inductive Status := purchased | listed | sold.

#[global] Instance Status_eq_dec : EqDecision Status.
Proof. solve_decision. Defined.

(** [InventoryItem extends EvaluatedListing]: the inherited fields are kept
    together as [base]. *)
Module InventoryItem.
Record t := mk {
  base : EvaluatedListing.t;
  purchase_date : string;
  status : Status;
  resale_price : option Q;
  listed_date : option string
}.
Definition id (item : t) : string := EvaluatedListing.id (base item).
Definition estimated_resale (item : t) : Q :=
  EvaluatedListing.estimated_resale (base item).
End InventoryItem.

(** An insertion-ordered [Map<string, V>]: [set] on a present key replaces
    the value where it stands, on an absent key appends the entry. *)
Module JsMap.
Section Ops.
Context {V : Type}.

Fixpoint get (k : string) (m : list (string * V)) : option V :=
  match m with
  | [] => None
  | (k', v) :: rest => if String.eqb k' k then Some v else get k rest
  end.

Fixpoint set (k : string) (v : V) (m : list (string * V))
  : list (string * V) :=
  match m with
  | [] => [(k, v)]
  | (k', v') :: rest =>
      if String.eqb k' k then (k', v) :: rest else (k', v') :: set k v rest
  end.

Definition values (m : list (string * V)) : list V := snd <$> m.
Definition keys (m : list (string * V)) : list string := fst <$> m.

End Ops.
End JsMap.

Module Inventory.

(** What the inventory code can see and change: the actor's
    [InventoryState], the trace of [FLIPPER_INVENTORY.put] calls (the item
    written stands for its JSON text) and the number of clock readings taken
    so far. *)
Record World := mkWorld {
  inventory : list (string * InventoryItem.t);
  listedIds : gset string;
  bucket : list (string * InventoryItem.t);
  clockReads : nat
}.

(** A computation on the world that may throw; what it did to the world
    before throwing stays done. *)
Definition M (A : Type) : Type := World -> (string + A) * World.

Definition ret {A} (a : A) : M A := fun w => (inr a, w).
Definition throw {A} (msg : string) : M A := fun w => (inl msg, w).
Definition bind {A B} (m : M A) (f : A -> M B) : M B :=
  fun w => match m w with
           | (inl e, w') => (inl e, w')
           | (inr a, w') => f a w'
           end.

Notation "x <- m ;; f" := (bind m (fun x => f))
  (at level 100, m at next level, right associativity).
Notation "m ;;; f" := (bind m (fun _ => f))
  (at level 100, right associativity).

Definition getWorld : M World := fun w => (inr w, w).

Definition setInventory (k : string) (v : InventoryItem.t) : M unit :=
  fun w => (inr tt, mkWorld (JsMap.set k v (inventory w)) (listedIds w)
                     (bucket w) (clockReads w)).

Definition addListedId (k : string) : M unit :=
  fun w => (inr tt, mkWorld (inventory w) ({[ k ]} ∪ listedIds w)
                     (bucket w) (clockReads w)).

Definition bucketPut (k : string) (v : InventoryItem.t) : M unit :=
  fun w => (inr tt, mkWorld (inventory w) (listedIds w)
                     (bucket w ++ [(k, v)]) (clockReads w)).

(** [new Date().toISOString()]. *)
Definition now (clock : nat -> string) : M string :=
  fun w => (inr (clock (clockReads w)),
            mkWorld (inventory w) (listedIds w) (bucket w)
              (S (clockReads w))).

Definition withStatus (s : Status) (item : InventoryItem.t) : InventoryItem.t :=
  InventoryItem.mk (InventoryItem.base item) (InventoryItem.purchase_date item)
    s (InventoryItem.resale_price item) (InventoryItem.listed_date item).

Definition withListedDate (d : string) (item : InventoryItem.t)
  : InventoryItem.t :=
  InventoryItem.mk (InventoryItem.base item) (InventoryItem.purchase_date item)
    (InventoryItem.status item) (InventoryItem.resale_price item) (Some d).

Definition withResalePrice (p : Q) (item : InventoryItem.t) : InventoryItem.t :=
  InventoryItem.mk (InventoryItem.base item) (InventoryItem.purchase_date item)
    (InventoryItem.status item) (Some p) (InventoryItem.listed_date item).

Definition addToInventory (item : InventoryItem.t) : M unit :=
  setInventory (InventoryItem.id item) item ;;;
  bucketPut (InventoryItem.id item) item.

Definition getInventory : M (list InventoryItem.t) :=
  w <- getWorld ;; ret (JsMap.values (inventory w)).

Definition updateItemStatus (clock : nat -> string) (id : string)
    (status : Status) : M unit :=
  w <- getWorld ;;
  match JsMap.get id (inventory w) with
  | None => throw "Item not found in inventory"
  | Some item =>
      let item1 := withStatus status item in
      item2 <- (if decide (status = listed) then
                  d <- now clock ;;
                  addListedId id ;;;
                  ret (withListedDate d item1)
                else ret item1) ;;
      setInventory id item2 ;;;
      bucketPut id item2
  end.

Definition processNewPurchase (clock : nat -> string)
    (item : EvaluatedListing.t) : M InventoryItem.t :=
  d <- now clock ;;
  let inventoryItem := InventoryItem.mk item d purchased None None in
  addToInventory inventoryItem ;;;
  ret inventoryItem.

Definition createReListing (timestamp : string) (item : InventoryItem.t)
  : Listing.t :=
  let b := InventoryItem.base item in
  Listing.mk ("resale_" +:+ EvaluatedListing.id b) (EvaluatedListing.title b)
    (EvaluatedListing.estimated_resale b) (EvaluatedListing.url b)
    (EvaluatedListing.marketplace b) (EvaluatedListing.category b) timestamp.

(** The body of the [for ... of] loop of [relistItems] for one item. *)
Definition relistOne (clock : nat -> string) (item : InventoryItem.t)
  : M Listing.t :=
  t <- now clock ;;
  let listing := createReListing t item in
  updateItemStatus clock (InventoryItem.id item) listed ;;;
  w <- getWorld ;;
  match JsMap.get (InventoryItem.id item) (inventory w) with
  | Some updatedItem =>
      let updated :=
        withResalePrice (InventoryItem.estimated_resale item) updatedItem in
      setInventory (InventoryItem.id item) updated ;;;
      bucketPut (InventoryItem.id item) updated ;;;
      ret listing
  | None => ret listing
  end.

Fixpoint relistLoop (clock : nat -> string) (items : list InventoryItem.t)
  : M (list Listing.t) :=
  match items with
  | [] => ret []
  | item :: rest =>
      listing <- relistOne clock item ;;
      listings <- relistLoop clock rest ;;
      ret (listing :: listings)
  end.

Definition relistItems (clock : nat -> string) : M (list Listing.t) :=
  w <- getWorld ;;
  let purchasedItems :=
    filter (fun item => InventoryItem.status item = purchased)
      (JsMap.values (inventory w)) in
  relistLoop clock purchasedItems.

(** The actor starts with an empty inventory. *)
Definition emptyWorld : World := mkWorld [] ∅ [] 0.

End Inventory.

(** * Vocabulary of the properties *)

Module Props.
Import DecisionModel DecisionController.

(** The BUY decisions of a batch, and the money they commit. *)
Definition buys (ds : list Decision.t) : list Decision.t :=
  filter (fun d => Decision.action d = BUY) ds.

Definition spent (ds : list Decision.t) : Q :=
  foldr (fun d acc => Decision.price d + acc) 0 (buys ds).

(** The action the decision rules yield when the budget rule is read as
    "the price exceeds the remaining budget" and nothing more. *)
Definition claimedAction (item : EvaluatedListing.t)
    (state : DecisionActorState) : Action :=
  if hasPurchased (EvaluatedListing.id item) state then SKIP
  else if Qlt_bool (budget state) (EvaluatedListing.price item) then SKIP
  else if Qlt_bool (EvaluatedListing.profit_margin item) MIN_PROFIT_MARGIN
  then SKIP
  else if Qlt_bool (EvaluatedListing.profit_potential item) MIN_PROFIT
  then SKIP
  else BUY.

(** The reasoning texts of the five outcomes. *)
Definition whyPurchased : Template := [Lit "Already purchased this item"].

Definition whyBudget (price budget : Q) : Template :=
  [Lit "Exceeds budget: $"; Num price; Lit " > $"; Num budget].

Definition whyMargin (margin : Q) : Template :=
  [Lit "Profit margin too low: "; Fixed 1 (margin * 100); Lit "% < ";
   Fixed 1 (MIN_PROFIT_MARGIN * 100); Lit "%"].

Definition whyProfit (profit : Q) : Template :=
  [Lit "Profit amount too low: $"; Num profit; Lit " < $"; Num MIN_PROFIT].

Definition whyBuy (profit margin score : Q) : Template :=
  [Lit "Strong opportunity: Profit: $"; Num profit; Lit " (";
   Fixed 1 (margin * 100); Lit "% margin), Score: "; Num score].

(** A decision repeats the listing's identity and figures. *)
Definition echoes (d : Decision.t) (item : EvaluatedListing.t) : Prop :=
  Decision.item_id d = EvaluatedListing.id item
  /\ Decision.title d = EvaluatedListing.title item
  /\ Decision.price d = EvaluatedListing.price item
  /\ Decision.score d = EvaluatedListing.score item
  /\ Decision.profit_potential d = EvaluatedListing.profit_potential item.

(** The running return on investment as the statistics are meant to keep
    it: profit over investment in percent, 0 when nothing is invested. *)
Definition runningROI (profit invested : Q) : Q :=
  if Qeq_bool invested 0 then 0 else profit / invested * 100.

(** Statistics as every run from the initial ones keeps them: nothing
    negative invested, and a zero ratio while nothing is invested. *)
Definition stats_ok (s : AgentStats.t) : Prop :=
  0 <= AgentStats.total_invested s
  /\ (AgentStats.total_invested s == 0 -> AgentStats.expected_roi s == 0).

(** A session: calls on the actor, each with the clock it reads, run in
    order; the decisions of all replies are collected. *)
Fixpoint runCalls (calls : list ((nat -> string) * DecisionActor.Call))
    (state : DecisionActorState) : list Decision.t * DecisionActorState :=
  match calls with
  | [] => ([], state)
  | (clock, c) :: rest =>
      let '(reply, state') := DecisionActor.handle clock c state in
      let '(ds, final) := runCalls rest state' in
      (DecisionActor.decisionsOf reply ++ ds, final)
  end.

Definition isReset (c : DecisionActor.Call) : bool :=
  match c with
  | DecisionActor.ResetState => true
  | _ => false
  end.

(** A listing for examples: only the figures the decision rules read vary. *)
Definition sampleListing (id : string) (price profit margin : Q)
  : EvaluatedListing.t :=
  EvaluatedListing.mk id "Sample" price "http://example.com" ebay
    "electronics" "t0" true 85 (price + profit) profit margin "r"
    (ScoresBreakdown.mk 85 85 85 85).

End Props.

Module ValuationProps.
Import Valuation.

(** The interpolation between the MSRP anchors, before clamping. *)
Definition msrpLine (price msrp : Q) : Q :=
  100 * (1 - (price / msrp - 0.5) / 0.5).

(** The product keywords, in the order in which they are tried. *)
Definition KNOWN_PRODUCTS : list string :=
  ["iphone"; "macbook"; "ps5"; "laptop"; "tv"]%string.

(** [sub] occurs somewhere in [s]. *)
Definition occurs_in (sub s : string) : Prop :=
  exists pre post, s = pre +:+ sub +:+ post.

(** [w] is the text of [title] in front of its first space character (all
    of [title] when it has none). *)
Definition before_first_space (title w : string) : Prop :=
  ~ occurs_in " " w
  /\ (title = w \/ exists rest, title = w +:+ " " +:+ rest).

(** White space, and the first white-space-delimited token of a text: the
    leading white space is passed over and the characters up to the next
    white space are taken. *)
Definition isWhitespace (c : ascii) : bool :=
  let n := nat_of_ascii c in
  (n =? 32)%nat || ((9 <=? n)%nat && (n <=? 13)%nat).

Fixpoint takeToken (s : string) : string :=
  match s with
  | EmptyString => EmptyString
  | String c rest =>
      if isWhitespace c then EmptyString else String c (takeToken rest)
  end.

Fixpoint firstToken (s : string) : string :=
  match s with
  | EmptyString => EmptyString
  | String c rest => if isWhitespace c then firstToken rest else takeToken s
  end.

(** The product key read off the wording "first keyword in check order,
    else the lowercased first white-space-delimited token, else (empty
    title) unknown". *)
Definition claimedProductKey (title : string) : string :=
  match List.find (includes (toLowerCase title)) KNOWN_PRODUCTS with
  | Some k => k
  | None =>
      if decide (title = ""%string) then "unknown"%string
      else toLowerCase (firstToken title)
  end.

End ValuationProps.

Module InventoryProps.
Import Inventory.

(** The inventory as the actor keeps it: one entry per key, each entry
    filed under its item's id. *)
Definition wf (w : World) : Prop :=
  NoDup (JsMap.keys (inventory w))
  /\ (forall k item, (k, item) ∈ inventory w -> k = InventoryItem.id item).

(** An item after the sweep has re-listed it at the time [d]. *)
Definition relisted (d : string) (item : InventoryItem.t) : InventoryItem.t :=
  InventoryItem.mk (InventoryItem.base item) (InventoryItem.purchase_date item)
    listed (Some (InventoryItem.estimated_resale item)) (Some d).

(** [l] is the re-listing of [item]. *)
Definition isResaleOf (l : Listing.t) (item : InventoryItem.t) : Prop :=
  Listing.id l = "resale_" +:+ InventoryItem.id item
  /\ Listing.price l = InventoryItem.estimated_resale item
  /\ Listing.title l = EvaluatedListing.title (InventoryItem.base item)
  /\ Listing.url l = EvaluatedListing.url (InventoryItem.base item)
  /\ Listing.marketplace l
     = EvaluatedListing.marketplace (InventoryItem.base item)
  /\ Listing.category l = EvaluatedListing.category (InventoryItem.base item).

(** How the sweep treats one inventory entry: it stays under its key; a
    purchased item comes out re-listed, any other item unchanged. *)
Definition swept (old new : string * InventoryItem.t) : Prop :=
  fst new = fst old
  /\ if decide (InventoryItem.status (snd old) = purchased)
     then exists d, snd new = relisted d (snd old)
     else snd new = snd old.

(** What [JsMap.set] does to one entry when the key is present: the entry
    under the key gets the new value, any other entry stays. *)
Definition upd {V} (k : string) (v : V) (e : string * V) : string * V :=
  if String.eqb (fst e) k then (fst e, v) else e.

(** What the sweep's loop has done to an entry once it has gone through
    [items]. *)
Definition processed (items : list InventoryItem.t)
    (old new : string * InventoryItem.t) : Prop :=
  fst new = fst old
  /\ ((snd old ∈ items /\ exists d, snd new = relisted d (snd old))
      \/ ((fst old ∉ (InventoryItem.id <$> items)) /\ snd new = snd old)).

Definition purchasedItems (w : World) : list InventoryItem.t :=
  filter (fun item => InventoryItem.status item = purchased)
    (JsMap.values (inventory w)).

(** An inventory item for examples. *)
Definition sampleItem (id : string) (resale : Q) (s : Status)
  : InventoryItem.t :=
  InventoryItem.mk
    (EvaluatedListing.mk id "Item" 100 "https://example.com" ebay
       "electronics" "t0" true 85 resale (resale - 100) 0.5 "Good"
       (ScoresBreakdown.mk 80 90 85 85))
    "t0" s None None.

End InventoryProps.

(** * Further code of the same components *)

(** ** Valuation service: reference prices ([valuation-service/model.ts]) *)

Module HistoricalPrices.
Import ValuationProps.

Definition MIN_PROFIT_MARGIN : Q := 0.20.
Definition MIN_PROFIT : Q := 50.

(** The own properties of the object literal [MOCK_HISTORICAL_DATA]. *)
Definition MOCK_HISTORICAL_DATA : list (string * HistoricalData.t) :=
  [("iphone"%string, HistoricalData.mk 650 400 1200 999);
   ("macbook"%string, HistoricalData.mk 900 600 1500 1299);
   ("ps5"%string, HistoricalData.mk 450 350 600 499);
   ("laptop"%string, HistoricalData.mk 700 400 1200 999);
   ("tv"%string, HistoricalData.mk 400 200 800 599)].

Definition DEFAULT_HISTORICAL_DATA : HistoricalData.t :=
  HistoricalData.mk 500 300 800 699.

(** The properties an object literal inherits from [Object.prototype] under
    a name without capital letters; a normalized key has none, so these are
    the inherited properties a lookup by such a key can reach.  Both hold a
    truthy object that is not price data. *)
Definition INHERITED_LOWERCASE : list string :=
  ["constructor"; "__proto__"]%string.

(** [String.prototype.trim], on the ASCII white space. *)
Fixpoint trimStart (s : string) : string :=
  match s with
  | EmptyString => EmptyString
  | String c rest => if isWhitespace c then trimStart rest else s
  end.

Fixpoint trimEnd (s : string) : string :=
  match s with
  | EmptyString => EmptyString
  | String c rest =>
      match trimEnd rest with
      | EmptyString => if isWhitespace c then EmptyString
                       else String c EmptyString
      | t => String c t
      end
  end.

Definition trim (s : string) : string := trimEnd (trimStart s).

(** [s.replace(/\s+/g, '-')]: every maximal run of white space becomes one
    hyphen; [inRun] tells that the character before was white space. *)
Fixpoint hyphenate (inRun : bool) (s : string) : string :=
  match s with
  | EmptyString => EmptyString
  | String c rest =>
      if isWhitespace c then
        if inRun then hyphenate true rest
        else String "-" (hyphenate true rest)
      else String c (hyphenate false rest)
  end.

Definition normalizeProductKey (productKey : string) : string :=
  hyphenate false (trim (Valuation.toLowerCase productKey)).

(** What [MOCK_HISTORICAL_DATA[key]] evaluates to. *)
Inductive Property :=
| Data (h : HistoricalData.t)
| InheritedObject
| Undefined.

Definition tableGet (key : string) : Property :=
  match JsMap.get key MOCK_HISTORICAL_DATA with
  | Some h => Data h
  | None =>
      if bool_decide (key ∈ INHERITED_LOWERCASE) then InheritedObject
      else Undefined
  end.

(** [getHistoricalPrices]: the table entry when the lookup is truthy, the
    defaults otherwise.  [None] stands for the one outcome that is not
    price data: the lookup hit an inherited property of the table object,
    which is truthy and is returned as it is. *)
Definition getHistoricalPrices (productKey : string)
  : option HistoricalData.t :=
  let normalizedKey := normalizeProductKey productKey in
  match tableGet normalizedKey with
  | Data h => Some h
  | InheritedObject => None
  | Undefined => Some DEFAULT_HISTORICAL_DATA
  end.

End HistoricalPrices.

(** ** Valuation service: the remaining scores and the evaluation
       ([valuation-service/controller.ts]) *)

Module Scoring.
Import Valuation.

Definition WEIGHT_HISTORICAL : Q := 0.40.
Definition WEIGHT_MSRP : Q := 0.25.
Definition WEIGHT_SCARCITY : Q := 0.20.
Definition WEIGHT_RATIO : Q := 0.15.

Definition SCARCITY_KEYWORDS : list string :=
  ["limited"; "rare"; "discontinued"; "pro"; "max"; "ultra"]%string.

Definition calculateScarcityScore (title : string)
    (historical : HistoricalData.t) : Q :=
  let titleLower := toLowerCase title in
  let hasScarcityKeyword :=
    existsb (fun keyword => includes titleLower keyword) SCARCITY_KEYWORDS in
  if hasScarcityKeyword then 100 else 50.

Definition calculatePriceRatioScore (current avg : Q) : Q :=
  if Qeq_bool avg 0 then 0
  else if Qle_bool avg current then 0
  else
    let ratio := current / avg in
    if Qle_bool ratio 0.7 then 100
    else
      let score := 100 * (1 - (ratio - 0.7) / 0.3) in
      clamp score.

(** The weighted total of the four scores of a listing at [price] titled
    [title], against the reference [historical]. *)
Definition totalScoreOf (price : Q) (title : string)
    (historical : HistoricalData.t) : Q :=
  calculateHistoricalScore price historical * WEIGHT_HISTORICAL
  + calculateMSRPScore price (HistoricalData.msrp historical) * WEIGHT_MSRP
  + calculateScarcityScore title historical * WEIGHT_SCARCITY
  + calculatePriceRatioScore price (HistoricalData.avg historical)
    * WEIGHT_RATIO.

(** The body of [evaluateSingleListing] once the reference data is there.
    [profitPotential / listing.price] is the one division of the modelled
    code that is not guarded: at price 0 JavaScript yields an infinity or
    NaN and the model 0, so what is proved about the margin assumes a price
    other than 0. *)
Definition evaluateWith (listing : Listing.t) (historical : HistoricalData.t)
  : EvaluatedListing.t :=
  let price := Listing.price listing in
  let historicalScore := calculateHistoricalScore price historical in
  let msrpScore := calculateMSRPScore price (HistoricalData.msrp historical) in
  let scarcityScore := calculateScarcityScore (Listing.title listing) historical in
  let ratioScore := calculatePriceRatioScore price (HistoricalData.avg historical) in
  let totalScore :=
    historicalScore * WEIGHT_HISTORICAL + msrpScore * WEIGHT_MSRP
    + scarcityScore * WEIGHT_SCARCITY + ratioScore * WEIGHT_RATIO in
  let estimatedResale := HistoricalData.avg historical in
  let profitPotential := estimatedResale - price in
  let profitMargin := profitPotential / price in
  let isUndervalued :=
    Qle_bool 60 totalScore
    && Qle_bool HistoricalPrices.MIN_PROFIT_MARGIN profitMargin
    && Qle_bool HistoricalPrices.MIN_PROFIT profitPotential in
  let reasoning :=
    if isUndervalued then
      render (fun _ => EmptyString)
        [Lit "Item is undervalued with score "; Fixed 1 totalScore;
         Lit ", margin "; Fixed 1 (profitMargin * 100); Lit "%, profit $";
         Fixed 2 profitPotential]
    else
      render (fun _ => EmptyString)
        [Lit "Item is not undervalued (score: "; Fixed 1 totalScore;
         Lit ", margin: "; Fixed 1 (profitMargin * 100); Lit "%, profit: $";
         Fixed 2 profitPotential; Lit ")"] in
  EvaluatedListing.mk (Listing.id listing) (Listing.title listing) price
    (Listing.url listing) (Listing.marketplace listing)
    (Listing.category listing) (Listing.timestamp listing)
    isUndervalued totalScore estimatedResale profitPotential profitMargin
    reasoning
    (ScoresBreakdown.mk historicalScore msrpScore scarcityScore ratioScore).

(** [evaluateSingleListing].  [None]: the reference looked up is not price
    data (see [getHistoricalPrices]); the source then goes on and computes
    every score from figures that are [undefined], which gives NaN and lies
    outside the number model. *)
Definition evaluateSingleListing (listing : Listing.t)
  : option EvaluatedListing.t :=
  let productKey := extractProductKey (Listing.title listing) in
  match HistoricalPrices.getHistoricalPrices productKey with
  | Some historical => Some (evaluateWith listing historical)
  | None => None
  end.

(** [Array.prototype.sort] with a comparator is a stable sort: [x] stands
    before [y] in the result when [compare x y < 0], and in their original
    order when [compare x y = 0].  [insertSorted] puts [x], which stood
    before everything in [sorted], in front of the first element that need
    not precede it. *)
Fixpoint insertSorted {A} (compare : A -> A -> Q) (x : A) (sorted : list A)
  : list A :=
  match sorted with
  | [] => [x]
  | y :: rest =>
      if Qlt_bool 0 (compare x y) then y :: insertSorted compare x rest
      else x :: y :: rest
  end.

Fixpoint sort {A} (compare : A -> A -> Q) (l : list A) : list A :=
  match l with
  | [] => []
  | x :: rest => insertSorted compare x (sort compare rest)
  end.

(** The comparator of [evaluateListings]: [(a, b) => b.score - a.score]. *)
Definition byScoreDescending (a b : EvaluatedListing.t) : Q :=
  EvaluatedListing.score b - EvaluatedListing.score a.

(** [Promise.all(listings.map(evaluateSingleListing))]. *)
Fixpoint evaluateAll (listings : list Listing.t)
  : option (list EvaluatedListing.t) :=
  match listings with
  | [] => Some []
  | listing :: rest =>
      match evaluateSingleListing listing, evaluateAll rest with
      | Some e, Some es => Some (e :: es)
      | _, _ => None
      end
  end.

(** [evaluateListings].  [None] when the evaluation of some listing lies
    outside the model; the source returns then as well, with NaN scores
    that its sort cannot order. *)
Definition evaluateListings (listings : list Listing.t)
  : option (list EvaluatedListing.t) :=
  if (length listings =? 0)%nat then Some []
  else
    match evaluateAll listings with
    | Some evaluated => Some (sort byScoreDescending evaluated)
    | None => None
    end.

End Scoring.

(** ** Transaction actor ([transaction-actor/model.ts], [controller.ts]) *)

Inductive TransactionType := purchase | sale.

#[global] Instance TransactionType_eq_dec : EqDecision TransactionType.
Proof. solve_decision. Defined.

Module Transaction.
Record t := mk {
  type : TransactionType;
  item_id : string;
  amount : Q;
  timestamp : string
}.
End Transaction.

Module FinancialStats.
Record t := mk {
  total_invested : Q;
  potential_revenue : Q;
  expected_profit : Q;
  expected_roi : Q;
  transaction_count : nat
}.
End FinancialStats.

Module Ledger.

Record TransactionState := mkState {
  totalInvested : Q;
  potentialRevenue : Q;
  transactions : list Transaction.t
}.

(** The state the actor's constructor sets up. *)
Definition initialState : TransactionState := mkState 0 0 [].

(** The actor's state together with the [FLIPPER_TRANSACTIONS] bucket (the
    transaction written stands for its JSON text) and the number of clock
    readings taken so far. *)
Record World := mkWorld {
  state : TransactionState;
  bucket : list (string * Transaction.t);
  clockReads : nat
}.

Definition typeName (t : TransactionType) : string :=
  match t with
  | purchase => "purchase"
  | sale => "sale"
  end.

(** [recordTransaction]: one [put] under the key
    [type_itemId_timestamp].  [putError key] is the message of the error
    the bucket raises for a write under [key], if it raises one; the error
    is logged and thrown again. *)
Definition recordTransaction (putError : string -> option string)
    (transaction : Transaction.t) (w : World) : (string + unit) * World :=
  let transactionId :=
    typeName (Transaction.type transaction) +:+ "_"
    +:+ Transaction.item_id transaction +:+ "_"
    +:+ Transaction.timestamp transaction in
  match putError transactionId with
  | Some error => (inl error, w)
  | None =>
      (inr tt,
       mkWorld (state w) (bucket w ++ [(transactionId, transaction)])
         (clockReads w))
  end.

Definition calculateSpent (s : TransactionState) : Q :=
  foldl (fun total tx => total + Transaction.amount tx) 0
    (filter (fun tx => Transaction.type tx = purchase) (transactions s)).

Definition calculateRevenue (s : TransactionState) : Q :=
  foldl (fun total tx => total + Transaction.amount tx) 0
    (filter (fun tx => Transaction.type tx = sale) (transactions s)).

Definition updateFinancialState (transaction : Transaction.t)
    (s : TransactionState) : TransactionState :=
  match Transaction.type transaction with
  | purchase =>
      mkState (totalInvested s + Transaction.amount transaction)
        (potentialRevenue s) (transactions s)
  | sale =>
      mkState (totalInvested s)
        (potentialRevenue s + Transaction.amount transaction)
        (transactions s)
  end.

(** What [processPurchase] and [processResale] do with the transaction
    they have built: record it, and only then update the totals and append
    it to the log. *)
Definition book (putError : string -> option string)
    (transaction : Transaction.t) (w : World)
  : (string + Transaction.t) * World :=
  match recordTransaction putError transaction w with
  | (inl error, w') => (inl error, w')
  | (inr _, w') =>
      let s := updateFinancialState transaction (state w') in
      (inr transaction,
       mkWorld
         (mkState (totalInvested s) (potentialRevenue s)
            (transactions s ++ [transaction]))
         (bucket w') (clockReads w'))
  end.

Definition readClock (clock : nat -> string) (w : World) : string * World :=
  (clock (clockReads w), mkWorld (state w) (bucket w) (S (clockReads w))).

Definition processPurchase (clock : nat -> string)
    (putError : string -> option string) (item : EvaluatedListing.t)
    (w : World) : (string + Transaction.t) * World :=
  let '(now, w1) := readClock clock w in
  let transaction :=
    Transaction.mk purchase (EvaluatedListing.id item)
      (EvaluatedListing.price item) now in
  book putError transaction w1.

Definition processResale (clock : nat -> string)
    (putError : string -> option string) (item : InventoryItem.t)
    (w : World) : (string + Transaction.t) * World :=
  let resaleAmount :=
    match InventoryItem.resale_price item with
    | Some p => p
    | None => InventoryItem.estimated_resale item
    end in
  let '(now, w1) := readClock clock w in
  let transaction :=
    Transaction.mk sale (InventoryItem.id item) resaleAmount now in
  book putError transaction w1.

Definition getFinancialStats (s : TransactionState) : FinancialStats.t :=
  let expectedProfit := potentialRevenue s - totalInvested s in
  let expectedROI :=
    if Qeq_bool (totalInvested s) 0 then 0
    else expectedProfit / totalInvested s in
  FinancialStats.mk (totalInvested s) (potentialRevenue s) expectedProfit
    expectedROI (length (transactions s)).

End Ledger.

(** ** Inventory actor: the rest of the model ([inventory-actor/model.ts]) *)

Module InventoryModel.
Import Inventory.

(** [Map.prototype.delete]. *)
Fixpoint mapDelete {V} (k : string) (m : list (string * V))
  : list (string * V) :=
  match m with
  | [] => []
  | (k', v) :: rest =>
      if String.eqb k' k then rest else (k', v) :: mapDelete k rest
  end.

Definition removeFromInventory (id : string) (w : World) : World :=
  mkWorld (mapDelete id (inventory w)) (listedIds w ∖ {[ id ]}) (bucket w)
    (clockReads w).

End InventoryModel.

(** ** The same code on binary64 numbers

    A JavaScript [number] is an IEEE 754 binary64 value, and every [+],
    [-], [*] and [/] of the source rounds its result to the nearest such
    value (ties to even).  The properties of this development are proved
    on exact rationals and are worded so that this rounding does not touch
    them: they speak of single operations, comparisons, ranges and
    orderings.  Where the rounding changes what the code does, the module
    below shows it: it holds the arithmetic of the decision loop, of the
    price-ratio score and of the ledger sums once more, on binary64 as the
    Standard Library specifies it ([SpecFloat], precision 53, maximal
    exponent 1024).  Texts, titles and time stamps play no part in that
    arithmetic and are left out. *)

Module Binary64.

Definition number : Type := SpecFloat.spec_float.

Definition prec : Z := 53.
Definition emax : Z := 1024.

Definition add (x y : number) : number := SpecFloat.SFadd prec emax x y.
Definition sub (x y : number) : number := SpecFloat.SFsub prec emax x y.
Definition mul (x y : number) : number := SpecFloat.SFmul prec emax x y.
Definition div (x y : number) : number := SpecFloat.SFdiv prec emax x y.
Definition leb (x y : number) : bool := SpecFloat.SFleb x y.
Definition ltb (x y : number) : bool := SpecFloat.SFltb x y.
Definition eqb (x y : number) : bool := SpecFloat.SFeqb x y.

(** The number an integer literal denotes. *)
Definition ofZ (n : Z) : number :=
  SpecFloat.binary_normalize prec emax n 0 false.

(** The number a decimal literal with [k] decimals denotes: [m / 10^k]
    rounded once, which is the value nearest to the literal as long as [m]
    and [10^k] are themselves binary64 values ([|m| < 2^53], [k <= 22]). *)
Definition decimal (m : Z) (k : nat) : number :=
  div (ofZ m) (ofZ (10 ^ Z.of_nat k)).

(** The fields of an [EvaluatedListing] that the decision rules and the
    state updates read. *)
Record Offer := mkOffer {
  id : string;
  price : number;
  profit_potential : number;
  profit_margin : number
}.

(** The statistics that [updateStats] writes. *)
Record Stats := mkStats {
  items_purchased : number;
  total_invested : number;
  potential_revenue : number;
  expected_profit : number;
  expected_roi : number
}.

Record State := mkState {
  budget : number;
  purchasedIds : gset string;
  stats : Stats
}.

Definition MIN_PROFIT_MARGIN : number := decimal 20 2.
Definition MIN_PROFIT : number := ofZ 50.

Definition validateBudget (price currentBudget : number) : bool :=
  if leb currentBudget (ofZ 0) then false else leb price currentBudget.

(** The action [evaluateOpportunity] decides on. *)
Definition evaluateOpportunity (item : Offer) (state : State) : Action :=
  if bool_decide (id item ∈ purchasedIds state) then SKIP
  else if negb (validateBudget (price item) (budget state)) then SKIP
  else if ltb (profit_margin item) MIN_PROFIT_MARGIN then SKIP
  else if ltb (profit_potential item) MIN_PROFIT then SKIP
  else BUY.

(** [updateStats] for a BUY decision on [item]. *)
Definition updateStats (item : Offer) (s : Stats) : Stats :=
  let items := add (items_purchased s) (ofZ 1) in
  let invested := add (total_invested s) (price item) in
  let profit := add (expected_profit s) (profit_potential item) in
  let revenue :=
    add (potential_revenue s) (add (price item) (profit_potential item)) in
  let roi :=
    if ltb (ofZ 0) invested then mul (div profit invested) (ofZ 100)
    else expected_roi s in
  mkStats items invested revenue profit roi.

(** The loop body of [makeDecisions] once the action is known. *)
Definition applyDecision (item : Offer) (action : Action) (state : State)
  : State :=
  match action with
  | BUY =>
      mkState (sub (budget state) (price item))
        ({[ id item ]} ∪ purchasedIds state)
        (updateStats item (stats state))
  | SKIP => state
  end.

Fixpoint decideAll (evaluated : list Offer) (state : State)
  : list Action * State :=
  match evaluated with
  | [] => ([], state)
  | item :: rest =>
      let action := evaluateOpportunity item state in
      let '(actions, final) :=
        decideAll rest (applyDecision item action state) in
      (action :: actions, final)
  end.

Definition freshState (budget : number) : State :=
  mkState budget ∅ (mkStats (ofZ 0) (ofZ 0) (ofZ 0) (ofZ 0) (ofZ 0)).

Definition makeDecisions (evaluated : list Offer) (budget : number)
    (existingState : option State) : list Action * State :=
  decideAll evaluated (default (freshState budget) existingState).

(** [Math.max(0, Math.min(100, score))] on numbers that are not NaN. *)
Definition clamp (score : number) : number :=
  let low := if leb (ofZ 100) score then ofZ 100 else score in
  if leb low (ofZ 0) then ofZ 0 else low.

Definition calculatePriceRatioScore (current avg : number) : number :=
  if eqb avg (ofZ 0) then ofZ 0
  else if leb avg current then ofZ 0
  else
    let ratio := div current avg in
    if leb ratio (decimal 7 1) then ofZ 100
    else
      clamp (mul (ofZ 100)
               (sub (ofZ 1) (div (sub ratio (decimal 7 1)) (decimal 3 1)))).

(** [calculateSpent] on a log given by the type and the amount of each
    transaction. *)
Definition calculateSpent (log : list (TransactionType * number)) : number :=
  foldl (fun total tx => add total (snd tx)) (ofZ 0)
    (filter (fun tx => fst tx = purchase) log).


End Binary64.

(** ** Vocabulary for the further properties *)

Module ScoringProps.
Import Valuation Scoring.

(** The common shape of the MSRP score and the price-ratio score: 0 for an
    anchor of 0 or a price at or above the anchor, 100 up to the fraction
    [lo] of the anchor, and a clamped line across the remaining fraction
    [width]. *)
Definition anchored (lo width current anchor : Q) : Q :=
  if Qeq_bool anchor 0 then 0
  else if Qle_bool anchor current then 0
  else
    let ratio := current / anchor in
    if Qle_bool ratio lo then 100
    else clamp (100 * (1 - (ratio - lo) / width)).

(** The interpolation of the price-ratio score, before clamping. *)
Definition ratioLine (price avg : Q) : Q :=
  100 * (1 - (price / avg - 0.7) / 0.3).

(** Scores from the highest down: no listing scores above one that stands
    before it. *)
Fixpoint descending (l : list EvaluatedListing.t) : Prop :=
  match l with
  | [] => True
  | x :: rest =>
      Forall (fun y => EvaluatedListing.score y <= EvaluatedListing.score x)
        rest
      /\ descending rest
  end.

(** The listings of [l] whose score is [s], in their order in [l]. *)
Definition withScore (s : Q) (l : list EvaluatedListing.t)
  : list EvaluatedListing.t :=
  List.filter (fun e => Qeq_bool (EvaluatedListing.score e) s) l.

(** A listing the evaluation has numbers for: its price is positive (the
    profit margin divides by it) and the product key of its title is not
    the name of a property the reference table inherits (for such a key
    the source goes on with figures that are [undefined]). *)
Definition evaluable (l : Listing.t) : Prop :=
  0 < Listing.price l
  /\ HistoricalPrices.normalizeProductKey
       (extractProductKey (Listing.title l))
     ∉ HistoricalPrices.INHERITED_LOWERCASE.

(** A listing for examples. *)
Definition sampleOffer (id title : string) (price : Q) : Listing.t :=
  Listing.mk id title price "http://example.com" ebay "electronics" "t0".

End ScoringProps.

Module BatchProps.
Import DecisionModel DecisionController Props.

(** The listings of a batch whose decision, at the same position, is BUY. *)
Definition bought (evaluated : list EvaluatedListing.t)
    (decisions : list Decision.t) : list EvaluatedListing.t :=
  fst <$> filter (fun p => Decision.action (snd p) = BUY)
            (zip evaluated decisions).

(** The two ledger calls a purchase gives rise to. *)
Definition ledgerCallsFor (item : EvaluatedListing.t) : list LedgerCall :=
  [TransactionProcessPurchase item; InventoryProcessNewPurchase item].

End BatchProps.

Module LedgerProps.
Import Ledger.

(** The two calls that change the transaction actor. *)
Inductive Op :=
| Purchase (item : EvaluatedListing.t)
| Resale (item : InventoryItem.t).

Definition call (clock : nat -> string) (putError : string -> option string)
    (op : Op) (w : World) : (string + Transaction.t) * World :=
  match op with
  | Purchase item => processPurchase clock putError item w
  | Resale item => processResale clock putError item w
  end.

(** A history of the actor: calls made one after the other, each with the
    behaviour of the bucket it meets; after a call that throws the actor
    carries on from the world the call left. *)
Fixpoint run (clock : nat -> string)
    (calls : list ((string -> option string) * Op)) (w : World) : World :=
  match calls with
  | [] => w
  | (putError, op) :: rest => run clock rest (snd (call clock putError op w))
  end.

(** The actor as its constructor leaves it, with an empty bucket. *)
Definition freshWorld : World := mkWorld initialState [] 0.

(** The amounts of the transactions of one type in a log, added up. *)
Definition total (ty : TransactionType) (log : list Transaction.t) : Q :=
  foldr (fun tx acc => Transaction.amount tx + acc) 0
    (filter (fun tx => Transaction.type tx = ty) log).

(** The bucket key of a transaction. *)
Definition keyOf (tx : Transaction.t) : string :=
  typeName (Transaction.type tx) +:+ "_" +:+ Transaction.item_id tx +:+ "_"
  +:+ Transaction.timestamp tx.

(** The transaction an operation builds at the time [now]. *)
Definition transactionOf (op : Op) (now : string) : Transaction.t :=
  match op with
  | Purchase item =>
      Transaction.mk purchase (EvaluatedListing.id item)
        (EvaluatedListing.price item) now
  | Resale item =>
      Transaction.mk sale (InventoryItem.id item)
        (match InventoryItem.resale_price item with
         | Some p => p
         | None => InventoryItem.estimated_resale item
         end) now
  end.

End LedgerProps.

Module InventoryRunProps.
Import Inventory InventoryModel InventoryProps.

(** The operations of the inventory code on its state. *)
Inductive Op :=
| Purchase (item : EvaluatedListing.t)
| Sweep
| UpdateStatus (id : string) (status : Status)
| Remove (id : string).

Definition call (clock : nat -> string) (op : Op) (w : World) : World :=
  match op with
  | Purchase item => snd (processNewPurchase clock item w)
  | Sweep => snd (relistItems clock w)
  | UpdateStatus id status => snd (updateItemStatus clock id status w)
  | Remove id => removeFromInventory id w
  end.

(** A history: operations applied one after the other; after one that
    throws the state is as the operation left it. *)
Definition run (clock : nat -> string) (ops : list Op) (w : World) : World :=
  foldl (fun w op => call clock op w) w ops.

(** The item written last under the key [k] in a trace of bucket writes:
    what the bucket holds under [k]. *)
Fixpoint lastPut (k : string) (puts : list (string * InventoryItem.t))
  : option InventoryItem.t :=
  match puts with
  | [] => None
  | (k', v) :: rest =>
      match lastPut k rest with
      | Some later => Some later
      | None => if String.eqb k' k then Some v else None
      end
  end.

(** The state in step with itself and with the bucket: well formed, every
    item that is [listed] has its id in [listedIds], and the bucket holds
    under each key of the inventory the item the inventory holds. *)
Definition consistent (w : World) : Prop :=
  wf w
  /\ forall k item, (k, item) ∈ inventory w ->
       (InventoryItem.status item = listed -> k ∈ listedIds w)
       /\ lastPut k (bucket w) = Some item.

End InventoryRunProps.

Module PipelineProps.
Import DecisionController.

(** The ledger calls of [processPurchases] carried out on the two actors:
    the first call that throws ends the loop. *)
Fixpoint deliver (clockT clockI : nat -> string)
    (putError : string -> option string) (calls : list LedgerCall)
    (lw : Ledger.World) (iw : Inventory.World)
  : option string * Ledger.World * Inventory.World :=
  match calls with
  | [] => (None, lw, iw)
  | TransactionProcessPurchase item :: rest =>
      match Ledger.processPurchase clockT putError item lw with
      | (inl error, lw') => (Some error, lw', iw)
      | (inr _, lw') => deliver clockT clockI putError rest lw' iw
      end
  | InventoryProcessNewPurchase item :: rest =>
      match Inventory.processNewPurchase clockI item iw with
      | (inl error, iw') => (Some error, lw, iw')
      | (inr _, iw') => deliver clockT clockI putError rest lw iw'
      end
  end.

(** [item] as the inventory holds it once bought at the time [d]. *)
Definition held (item : EvaluatedListing.t) (d : string) : InventoryItem.t :=
  InventoryItem.mk item d purchased None None.

(** [tx] is the purchase of [item] in the ledger. *)
Definition purchaseOf (tx : Transaction.t) (item : EvaluatedListing.t)
  : Prop :=
  Transaction.type tx = purchase
  /\ Transaction.item_id tx = EvaluatedListing.id item
  /\ Transaction.amount tx = EvaluatedListing.price item.

(** [e] is the inventory entry of [item] once bought. *)
Definition entryOf (e : string * InventoryItem.t) (item : EvaluatedListing.t)
  : Prop :=
  exists d, e = (EvaluatedListing.id item, held item d).

(** [l] offers the listing [item] for sale again. *)
Definition offersAgain (l : Listing.t) (item : EvaluatedListing.t) : Prop :=
  Listing.id l = "resale_" +:+ EvaluatedListing.id item
  /\ Listing.price l = EvaluatedListing.estimated_resale item
  /\ Listing.title l = EvaluatedListing.title item
  /\ Listing.url l = EvaluatedListing.url item
  /\ Listing.marketplace l = EvaluatedListing.marketplace item
  /\ Listing.category l = EvaluatedListing.category item.

End PipelineProps.

(** * Properties *)

Import DecisionModel DecisionController Props.

Set Warnings "-clear-no-such-hyp".

(** ** Comparisons *)

Lemma Qlt_bool_iff (a b : Q) : Qlt_bool a b = true <-> a < b.
Proof.
  unfold Qlt_bool. rewrite negb_true_iff. split.
  - intros H. apply Qnot_le_lt. intros Hle.
    apply Qle_bool_iff in Hle. congruence.
  - intros H. destruct (Qle_bool b a) eqn:E; [|reflexivity].
    apply Qle_bool_iff in E. exfalso. exact (Qlt_not_le _ _ H E).
Qed.

Lemma Qlt_bool_false (a b : Q) : Qlt_bool a b = false <-> b <= a.
Proof.
  unfold Qlt_bool. rewrite negb_false_iff. apply Qle_bool_iff.
Qed.

Lemma Qle_bool_false (a b : Q) : Qle_bool a b = false <-> b < a.
Proof.
  rewrite <- Qlt_bool_iff. unfold Qlt_bool.
  destruct (Qle_bool a b); simpl; split; congruence.
Qed.

(** Case analysis on a boolean comparison, leaving the order fact. *)
Ltac cmp_cases :=
  repeat match goal with
    | H : Qle_bool _ _ = true |- _ => apply Qle_bool_iff in H
    | H : Qle_bool _ _ = false |- _ => apply Qle_bool_false in H
    | H : Qlt_bool _ _ = true |- _ => apply Qlt_bool_iff in H
    | H : Qlt_bool _ _ = false |- _ => apply Qlt_bool_false in H
    | H : Qeq_bool _ _ = true |- _ => apply Qeq_bool_iff in H
    | H : Qeq_bool _ _ = false |- _ => apply Qeq_bool_neq in H
    end.

(** ** The budget rule *)

Lemma validateBudget_iff (price currentBudget : Q) :
  validateBudget price currentBudget = true
  <-> 0 < currentBudget /\ price <= currentBudget.
Proof.
  unfold validateBudget.
  destruct (Qle_bool currentBudget 0) eqn:E; cmp_cases.
  - split; [discriminate|]. intros [H _]. exfalso. lra.
  - rewrite Qle_bool_iff. tauto.
Qed.

Lemma validateBudget_false (price currentBudget : Q) :
  validateBudget price currentBudget = false
  <-> currentBudget <= 0 \/ currentBudget < price.
Proof.
  unfold validateBudget.
  destruct (Qle_bool currentBudget 0) eqn:E; cmp_cases.
  - split; auto.
  - rewrite Qle_bool_false. split; [auto|]. intros [H|H]; [lra|exact H].
Qed.

Lemma hasPurchased_true (id : string) (state : DecisionActorState) :
  hasPurchased id state = true <-> id ∈ purchasedIds state.
Proof. unfold hasPurchased. apply bool_decide_eq_true. Qed.

Lemma hasPurchased_false (id : string) (state : DecisionActorState) :
  hasPurchased id state = false <-> id ∉ purchasedIds state.
Proof. unfold hasPurchased. apply bool_decide_eq_false. Qed.

(** ** One decision *)

Lemma evaluateOpportunity_echoes now item state :
  echoes (evaluateOpportunity now item state) item
  /\ Decision.timestamp (evaluateOpportunity now item state) = now.
Proof.
  unfold evaluateOpportunity, echoes, decision_of.
  repeat match goal with |- context [if ?b then _ else _] => destruct b end;
    simpl; repeat split.
Qed.

(** The first two rules on their own. *)
Lemma evaluateOpportunity_purchased now item state :
  EvaluatedListing.id item ∈ purchasedIds state ->
  Decision.action (evaluateOpportunity now item state) = SKIP
  /\ Decision.reasoning (evaluateOpportunity now item state) = whyPurchased.
Proof.
  intros Hin. apply hasPurchased_true in Hin.
  unfold evaluateOpportunity. rewrite Hin. split; reflexivity.
Qed.

Lemma evaluateOpportunity_unaffordable now item state :
  EvaluatedListing.id item ∉ purchasedIds state ->
  budget state <= 0 \/ budget state < EvaluatedListing.price item ->
  Decision.action (evaluateOpportunity now item state) = SKIP
  /\ Decision.reasoning (evaluateOpportunity now item state)
     = whyBudget (EvaluatedListing.price item) (budget state).
Proof.
  intros Hout Hb. apply hasPurchased_false in Hout.
  apply validateBudget_false in Hb.
  unfold evaluateOpportunity. rewrite Hout, Hb. split; reflexivity.
Qed.

(** C1, as amended.  The five rules are tried in order and the first one
    that applies decides: (1) the id is among the purchased ones: SKIP,
    "Already purchased this item"; (2) the remaining budget is not positive
    or the price exceeds it: SKIP, with the price and the budget in the
    text; (3) the margin is below 0.20: SKIP, with the actual and the
    required percentage to one decimal; (4) the profit is below 50: SKIP,
    with the actual and the required amount; (5) otherwise BUY, with the
    profit, the margin percentage and the score.  Every decision repeats the
    listing's id, title, price, score and profit. *)
Theorem evaluateOpportunity_rules now item state :
  let d := evaluateOpportunity now item state in
  let id := EvaluatedListing.id item in
  let price := EvaluatedListing.price item in
  let margin := EvaluatedListing.profit_margin item in
  let profit := EvaluatedListing.profit_potential item in
  echoes d item
  /\ (id ∈ purchasedIds state ->
      Decision.action d = SKIP /\ Decision.reasoning d = whyPurchased)
  /\ (id ∉ purchasedIds state ->
      (budget state <= 0 \/ budget state < price ->
       Decision.action d = SKIP
       /\ Decision.reasoning d = whyBudget price (budget state))
      /\ (0 < budget state -> price <= budget state ->
          (margin < MIN_PROFIT_MARGIN ->
           Decision.action d = SKIP /\ Decision.reasoning d = whyMargin margin)
          /\ (MIN_PROFIT_MARGIN <= margin ->
              (profit < MIN_PROFIT ->
               Decision.action d = SKIP
               /\ Decision.reasoning d = whyProfit profit)
              /\ (MIN_PROFIT <= profit ->
                  Decision.action d = BUY
                  /\ Decision.reasoning d
                     = whyBuy profit margin (EvaluatedListing.score item))))).
Proof.
  cbv zeta. split; [apply evaluateOpportunity_echoes|].
  unfold evaluateOpportunity, decision_of.
  destruct (hasPurchased _ state) eqn:Hp.
  { apply hasPurchased_true in Hp. split; [auto|]. intros Hn. contradiction. }
  apply hasPurchased_false in Hp. split; [intros Hin; contradiction|].
  intros _.
  destruct (validateBudget _ (budget state)) eqn:Hb; simpl.
  2:{ apply validateBudget_false in Hb. split; [auto|].
      intros H0 Hle. exfalso. destruct Hb; lra. }
  apply validateBudget_iff in Hb. destruct Hb as [Hpos Hle].
  split; [intros [H|H]; exfalso; lra|]. intros _ _.
  destruct (Qlt_bool (EvaluatedListing.profit_margin item) _) eqn:Hm;
    cmp_cases.
  { split; [auto|]. intros H. exfalso. lra. }
  split; [intros H; exfalso; lra|]. intros _.
  destruct (Qlt_bool (EvaluatedListing.profit_potential item) _) eqn:Hq;
    cmp_cases.
  { split; [auto|]. intros H. exfalso. lra. }
  split; [intros H; exfalso; lra|]. auto.
Qed.

(** C1 fails as stated.  A free listing offered while the budget is 0, with a
    margin of 50% and a profit of 100, is not yet purchased, does not cost
    more than the budget, and clears both profit thresholds, so the rules as
    stated end in BUY; the code answers SKIP with the budget text. *)
Lemma evaluateOpportunity_zero_budget_skips :
  let item := sampleListing "free-1" 0 100 0.5 in
  let state := mkState 0 ∅ zeroStats in
  (EvaluatedListing.id item ∉ purchasedIds state)
  /\ EvaluatedListing.price item <= budget state
  /\ MIN_PROFIT_MARGIN <= EvaluatedListing.profit_margin item
  /\ MIN_PROFIT <= EvaluatedListing.profit_potential item
  /\ claimedAction item state = BUY
  /\ Decision.action (evaluateOpportunity "t" item state) = SKIP
  /\ Decision.reasoning (evaluateOpportunity "t" item state) = whyBudget 0 0.
Proof.
  cbv zeta. split; [set_solver|].
  repeat split; try (vm_compute; congruence).
Qed.

(** The rules of [evaluateOpportunity_rules] at work: the end-to-end listing
    of the specification (price 400, profit 250, margin 0.625) is bought
    from the initial state, and skipped once it has been bought. *)
Lemma evaluateOpportunity_rules_witness :
  Decision.action
    (evaluateOpportunity "t" (sampleListing "iphone-1" 400 250 0.625)
       createInitialState) = BUY
  /\ Decision.action
       (evaluateOpportunity "t" (sampleListing "iphone-1" 400 250 0.625)
          (addPurchasedId "iphone-1" createInitialState)) = SKIP.
Proof.
  split.
  - pose proof (evaluateOpportunity_rules "t"
                  (sampleListing "iphone-1" 400 250 0.625)
                  createInitialState) as H.
    cbv zeta in H. destruct H as (_ & _ & H).
    destruct (H ltac:(set_solver)) as (_ & H1).
    destruct (H1 ltac:(vm_compute; reflexivity)
                 ltac:(vm_compute; congruence)) as (_ & H2).
    destruct (H2 ltac:(vm_compute; congruence)) as (_ & H3).
    exact (proj1 (H3 ltac:(vm_compute; congruence))).
  - pose proof (evaluateOpportunity_rules "t"
                  (sampleListing "iphone-1" 400 250 0.625)
                  (addPurchasedId "iphone-1" createInitialState)) as H.
    cbv zeta in H. destruct H as (_ & H & _).
    exact (proj1 (H ltac:(set_solver))).
Defined.

(** C10, as amended.  [validateBudget price budget] holds exactly when the
    budget is positive and the price does not exceed it; so with a budget of
    0 or less every listing is skipped, and a listing that is not already
    purchased is skipped with the budget text, whatever its price. *)
Theorem nonpositive_budget_skips :
  (forall price currentBudget,
      validateBudget price currentBudget = true
      <-> 0 < currentBudget /\ price <= currentBudget)
  /\ (forall now item state,
         budget state <= 0 ->
         Decision.action (evaluateOpportunity now item state) = SKIP
         /\ (EvaluatedListing.id item ∉ purchasedIds state ->
             Decision.reasoning (evaluateOpportunity now item state)
             = whyBudget (EvaluatedListing.price item) (budget state))).
Proof.
  split; [exact validateBudget_iff|].
  intros now item state Hb.
  destruct (decide (EvaluatedListing.id item ∈ purchasedIds state))
    as [Hp|Hp].
  - split; [apply evaluateOpportunity_purchased, Hp|].
    intros Hn. contradiction.
  - destruct (evaluateOpportunity_unaffordable now item state Hp
                (or_introl Hb)) as [Ha Hr].
    split; [exact Ha|]. intros _. exact Hr.
Qed.

(** C10 fails as stated.  With the budget spent down to 0, a listing that
    was bought before is skipped with the "already purchased" text, not with
    the budget text. *)
Lemma spent_budget_purchased_reason :
  let item := sampleListing "item-1" 0 100 0.5 in
  let state := mkState 0 {[ "item-1"%string ]} zeroStats in
  budget state <= 0
  /\ Decision.action (evaluateOpportunity "t" item state) = SKIP
  /\ Decision.reasoning (evaluateOpportunity "t" item state) = whyPurchased
  /\ whyPurchased <> whyBudget (EvaluatedListing.price item) (budget state).
Proof.
  cbv zeta. split; [vm_compute; congruence|].
  destruct (evaluateOpportunity_purchased "t"
              (sampleListing "item-1" 0 100 0.5)
              (mkState 0 {[ "item-1"%string ]} zeroStats)
              ltac:(simpl; set_solver)) as [Ha Hr].
  split; [exact Ha|]. split; [exact Hr|]. discriminate.
Qed.

(** [nonpositive_budget_skips] at work: a free listing against a budget of
    0 is skipped with the budget text. *)
Lemma nonpositive_budget_skips_witness :
  Decision.reasoning
    (evaluateOpportunity "t" (sampleListing "free-1" 0 100 0.5)
       (mkState 0 ∅ zeroStats))
  = whyBudget 0 0.
Proof.
  exact (proj2 (proj2 nonpositive_budget_skips "t"
                  (sampleListing "free-1" 0 100 0.5) (mkState 0 ∅ zeroStats)
                  ltac:(vm_compute; congruence))
           ltac:(simpl; set_solver)).
Defined.

(** ** A batch of decisions *)

Lemma decideAll_cons clock n item rest state :
  decideAll clock n (item :: rest) state
  = (evaluateOpportunity (clock n) item state
       :: fst (decideAll clock (S n) rest
                 (applyDecision item (evaluateOpportunity (clock n) item state)
                    state)),
     snd (decideAll clock (S n) rest
            (applyDecision item (evaluateOpportunity (clock n) item state)
               state))).
Proof.
  simpl. destruct (decideAll clock (S n) rest _). reflexivity.
Qed.

Lemma applyDecision_skip item d state :
  Decision.action d = SKIP -> applyDecision item d state = state.
Proof. unfold applyDecision. intros ->. reflexivity. Qed.

(** What a BUY presupposes. *)
Lemma buy_inv now item state :
  Decision.action (evaluateOpportunity now item state) = BUY ->
  (EvaluatedListing.id item ∉ purchasedIds state)
  /\ 0 < budget state
  /\ EvaluatedListing.price item <= budget state
  /\ MIN_PROFIT_MARGIN <= EvaluatedListing.profit_margin item
  /\ MIN_PROFIT <= EvaluatedListing.profit_potential item.
Proof.
  unfold evaluateOpportunity, decision_of.
  destruct (hasPurchased _ state) eqn:Hp; [discriminate|].
  destruct (validateBudget _ _) eqn:Hb; [|discriminate]. simpl.
  destruct (Qlt_bool (EvaluatedListing.profit_margin item) _) eqn:Hm;
    [discriminate|].
  destruct (Qlt_bool (EvaluatedListing.profit_potential item) _) eqn:Hq;
    [discriminate|].
  intros _. apply hasPurchased_false in Hp. apply validateBudget_iff in Hb.
  cmp_cases. tauto.
Qed.

Lemma applyDecision_buy now item state :
  Decision.action (evaluateOpportunity now item state) = BUY ->
  let state' := applyDecision item (evaluateOpportunity now item state) state in
  purchasedIds state' = {[ EvaluatedListing.id item ]} ∪ purchasedIds state
  /\ budget state' = budget state - EvaluatedListing.price item.
Proof.
  intros Hbuy. cbv zeta. unfold applyDecision. rewrite Hbuy.
  unfold updateStats. rewrite Hbuy. simpl.
  destruct (evaluateOpportunity_echoes now item state) as [(_ & _ & Hp & _) _].
  rewrite Hp. auto.
Qed.

Lemma buys_cons d ds :
  buys (d :: ds)
  = if decide (Decision.action d = BUY) then d :: buys ds else buys ds.
Proof. unfold buys. rewrite filter_cons. reflexivity. Qed.

Lemma spent_cons_buy d ds :
  Decision.action d = BUY -> spent (d :: ds) = Decision.price d + spent ds.
Proof.
  intros H. unfold spent. rewrite buys_cons.
  destruct (decide _); [reflexivity|contradiction].
Qed.

Lemma spent_cons_skip d ds :
  Decision.action d = SKIP -> spent (d :: ds) = spent ds.
Proof.
  intros H. unfold spent. rewrite buys_cons.
  destruct (decide _) as [E|_]; [congruence|reflexivity].
Qed.

(** The invariant of the decision loop: the purchased ids grow by exactly
    the ids bought, no id is bought twice or bought again, and the budget
    goes down by exactly what is spent, without going below zero. *)
Lemma decideAll_invariant clock evaluated :
  forall n state,
    let ds := fst (decideAll clock n evaluated state) in
    let final := snd (decideAll clock n evaluated state) in
    purchasedIds final
    = list_to_set (Decision.item_id <$> buys ds) ∪ purchasedIds state
    /\ NoDup (Decision.item_id <$> buys ds)
    /\ (forall id, id ∈ (Decision.item_id <$> buys ds) ->
                   id ∉ purchasedIds state)
    /\ budget final == budget state - spent ds
    /\ (0 <= budget state -> 0 <= budget final).
Proof.
  induction evaluated as [|item rest IH]; intros n state; cbv zeta.
  { simpl. repeat split.
    - set_solver.
    - constructor.
    - set_solver.
    - unfold spent. simpl. lra.
    - auto. }
  rewrite decideAll_cons. simpl fst. simpl snd.
  set (d := evaluateOpportunity (clock n) item state).
  specialize (IH (S n) (applyDecision item d state)). cbv zeta in IH.
  destruct IH as (Hids & Hnd & Hfresh & Hbud & Hpos).
  destruct (Decision.action d) eqn:Ha.
  - pose proof (buy_inv _ _ _ Ha) as (Hnew & Hb0 & Hle & _).
    pose proof (applyDecision_buy _ _ _ Ha) as [Hset Hsub]. cbv zeta in Hset, Hsub.
    fold d in Hset, Hsub.
    assert (Hid : Decision.item_id d = EvaluatedListing.id item)
      by (apply evaluateOpportunity_echoes).
    assert (Hpr : Decision.price d = EvaluatedListing.price item)
      by (apply evaluateOpportunity_echoes).
    rewrite buys_cons, spent_cons_buy by exact Ha.
    destruct (decide _); [|contradiction]. rewrite fmap_cons, Hid, Hpr.
    rewrite Hset in Hids, Hfresh. rewrite Hsub in Hbud, Hpos.
    repeat split.
    + rewrite Hids. set_solver.
    + constructor; [|exact Hnd]. intros Hin. apply (Hfresh _ Hin). set_solver.
    + intros id Hin. apply elem_of_cons in Hin as [->|Hin]; [exact Hnew|].
      specialize (Hfresh _ Hin). set_solver.
    + rewrite Hbud. lra.
    + intros _. apply Hpos. lra.
  - rewrite (applyDecision_skip _ _ _ Ha) in *.
    rewrite buys_cons, spent_cons_skip by exact Ha.
    destruct (decide _) as [E|_]; [congruence|].
    repeat split; auto.
Qed.

Lemma makeDecisions_decideAll clock evaluated B existingState :
  makeDecisions clock evaluated B existingState
  = decideAll clock 0 evaluated (default (freshState B) existingState).
Proof. unfold makeDecisions. destruct existingState; reflexivity. Qed.


Lemma decideAll_budget_le clock evaluated :
  forall n state,
    Forall (fun e => 0 <= EvaluatedListing.price e) evaluated ->
    budget (snd (decideAll clock n evaluated state)) <= budget state.
Proof.
  induction evaluated as [|item rest IH]; intros n state Hp; [simpl; lra|].
  apply Forall_cons in Hp as [Hitem Hrest].
  rewrite decideAll_cons. simpl snd.
  specialize (IH (S n) (applyDecision item
                          (evaluateOpportunity (clock n) item state) state)
                Hrest).
  destruct (Decision.action (evaluateOpportunity (clock n) item state)) eqn:Ha.
  - destruct (applyDecision_buy _ _ _ Ha) as [_ Hb]. rewrite Hb in IH. lra.
  - rewrite (applyDecision_skip _ _ _ Ha) in *. exact IH.
Qed.




Example two_at_300_against_500 :
  Decision.action
    <$> fst (makeDecisions (fun _ => "t"%string)
               [sampleListing "a" 300 100 0.5; sampleListing "b" 300 100 0.5]
               500 None)
  = [BUY; SKIP].
Proof. vm_compute. reflexivity. Qed.

(** ** Sessions of calls on the actor *)

Lemma buys_app ds1 ds2 : buys (ds1 ++ ds2) = buys ds1 ++ buys ds2.
Proof. unfold buys. apply filter_app. Qed.

(** A call other than a reset changes the purchased ids by exactly the ids
    it buys, each of them new. *)
Lemma handle_purchased clock c state :
  isReset c = false ->
  let ds := DecisionActor.decisionsOf (fst (DecisionActor.handle clock c state)) in
  let state' := snd (DecisionActor.handle clock c state) in
  purchasedIds state'
  = list_to_set (Decision.item_id <$> buys ds) ∪ purchasedIds state
  /\ NoDup (Decision.item_id <$> buys ds)
  /\ (forall id, id ∈ (Decision.item_id <$> buys ds) ->
                 id ∉ purchasedIds state).
Proof.
  destruct c as [evaluated b| |b|]; intros Hr; try discriminate; cbv zeta.
  - unfold DecisionActor.handle, DecisionActor.makeDecisions, makeDecisions.
    pose proof (decideAll_invariant clock evaluated 0
                  (DecisionActor.setBudget b state)) as H.
    cbv zeta in H.
    destruct (decideAll clock 0 evaluated _) as [ds s1]. simpl in *.
    destruct H as (Hids & Hnd & Hfresh & _).
    assert (Hsame : purchasedIds (DecisionActor.setBudget b state)
                    = purchasedIds state) by (destruct b; reflexivity).
    rewrite Hsame in *. auto.
  - simpl. split; [set_solver|]. split; [constructor|set_solver].
  - simpl. split; [destruct b; simpl; set_solver|].
    split; [constructor|set_solver].
Qed.

Lemma runCalls_cons clock c rest state :
  runCalls ((clock, c) :: rest) state
  = (DecisionActor.decisionsOf (fst (DecisionActor.handle clock c state))
       ++ fst (runCalls rest (snd (DecisionActor.handle clock c state))),
     snd (runCalls rest (snd (DecisionActor.handle clock c state)))).
Proof.
  simpl. destruct (DecisionActor.handle clock c state) as [reply state'].
  simpl. destruct (runCalls rest state'). reflexivity.
Qed.

Lemma runCalls_purchased calls :
  forall state,
    forallb (fun cc => negb (isReset (snd cc))) calls = true ->
    let ds := fst (runCalls calls state) in
    purchasedIds (snd (runCalls calls state))
    = list_to_set (Decision.item_id <$> buys ds) ∪ purchasedIds state
    /\ NoDup (Decision.item_id <$> buys ds)
    /\ (forall id, id ∈ (Decision.item_id <$> buys ds) ->
                   id ∉ purchasedIds state).
Proof.
  induction calls as [|[clock c] rest IH]; intros state Hok; cbv zeta.
  { simpl. split; [set_solver|]. split; [constructor|set_solver]. }
  simpl in Hok. apply andb_true_iff in Hok as [Hc Hrest].
  apply negb_true_iff in Hc.
  rewrite runCalls_cons. simpl fst. simpl snd.
  pose proof (handle_purchased clock c state Hc) as H1. cbv zeta in H1.
  destruct H1 as (Hids1 & Hnd1 & Hfresh1).
  specialize (IH (snd (DecisionActor.handle clock c state)) Hrest).
  cbv zeta in IH.
  destruct IH as (Hids2 & Hnd2 & Hfresh2).
  rewrite buys_app, fmap_app.
  split; [|split].
  - rewrite Hids2, Hids1, list_to_set_app_L. set_solver.
  - apply NoDup_app. split; [exact Hnd1|]. split; [|exact Hnd2].
    intros id Hin1 Hin2. apply (Hfresh2 _ Hin2). rewrite Hids1.
    apply elem_of_union_l, elem_of_list_to_set. exact Hin1.
  - intros id Hin. apply elem_of_app in Hin as [Hin|Hin].
    + exact (Hfresh1 _ Hin).
    + specialize (Hfresh2 _ Hin). rewrite Hids1 in Hfresh2. set_solver.
Qed.

(** C4.  A listing whose id is among the purchased ones is skipped with
    "Already purchased this item" (a text that reads "already purchased"
    once lowercased), whatever its score, price and profit figures; and
    over any sequence of calls on the actor that does not reset it (in
    particular any sequence of decision batches), starting from any state,
    no id receives two BUY decisions and no id purchased at the start
    receives one, while every id bought joins the purchased ones. *)
Theorem purchased_never_bought_again :
  (forall now item state,
      EvaluatedListing.id item ∈ purchasedIds state ->
      Decision.action (evaluateOpportunity now item state) = SKIP
      /\ Decision.reasoning (evaluateOpportunity now item state)
         = whyPurchased)
  /\ (forall show,
         Valuation.includes (Valuation.toLowerCase (render show whyPurchased))
           "already purchased" = true)
  /\ (forall calls state,
         forallb (fun cc => negb (isReset (snd cc))) calls = true ->
         let ds := fst (runCalls calls state) in
         NoDup (Decision.item_id <$> buys ds)
         /\ (forall id, id ∈ (Decision.item_id <$> buys ds) ->
                        id ∉ purchasedIds state)
         /\ purchasedIds (snd (runCalls calls state))
            = list_to_set (Decision.item_id <$> buys ds)
                ∪ purchasedIds state).
Proof.
  split; [|split].
  - intros now item state Hin.
    apply evaluateOpportunity_purchased, Hin.
  - intros show. reflexivity.
  - intros calls state Hok. cbv zeta.
    destruct (runCalls_purchased calls state Hok) as (H1 & H2 & H3). auto.
Qed.

(** [purchased_never_bought_again] at work: the same excellent listing is
    offered in two successive batches; it is bought once. *)
Lemma purchased_never_bought_again_witness :
  let offer := DecisionActor.MakeDecisions
                 [sampleListing "iphone-1" 400 250 0.625] (Some 5000) in
  NoDup (Decision.item_id
           <$> buys (fst (runCalls [(fun _ => "t1"%string, offer);
                                    (fun _ => "t2"%string, offer)]
                            createInitialState))).
Proof.
  exact (proj1 (proj2 (proj2 purchased_never_bought_again)
                  [(fun _ => "t1"%string,
                    DecisionActor.MakeDecisions
                      [sampleListing "iphone-1" 400 250 0.625] (Some 5000));
                   (fun _ => "t2"%string,
                    DecisionActor.MakeDecisions
                      [sampleListing "iphone-1" 400 250 0.625] (Some 5000))]
                  createInitialState eq_refl)).
Defined.

Example same_listing_twice :
  Decision.action
    <$> fst (runCalls
               [(fun _ => "t1"%string,
                 DecisionActor.MakeDecisions
                   [sampleListing "iphone-1" 400 250 0.625] (Some 5000));
                (fun _ => "t2"%string,
                 DecisionActor.MakeDecisions
                   [sampleListing "iphone-1" 400 250 0.625] (Some 5000))]
               createInitialState)
  = [BUY; SKIP].
Proof. vm_compute. reflexivity. Qed.

(** ** Side effects of a decision *)

Lemma stats_ok_zero : stats_ok zeroStats.
Proof. split; simpl; [lra|reflexivity]. Qed.

(** C2.  In a batch each decision is applied to the state before the next
    listing is evaluated.  A BUY adds the listing's id to the purchased
    ids, takes the price off the budget, adds 1 to [items_purchased], the
    price to [total_invested], the profit to [expected_profit] and price
    plus profit to [potential_revenue], and leaves [expected_roi] at
    [expected_profit / total_invested * 100], or 0 when nothing is
    invested; a SKIP leaves the state, statistics included, as it was.
    Prices are taken not to be negative and the statistics to be as every
    run from the initial ones keeps them ([stats_ok], which the step
    preserves). *)
Theorem buy_side_effects clock n item rest state :
  let d := evaluateOpportunity (clock n) item state in
  let state' := applyDecision item d state in
  let s := stats state in
  let s' := stats state' in
  let price := EvaluatedListing.price item in
  let profit := EvaluatedListing.profit_potential item in
  0 <= price ->
  stats_ok s ->
  decideAll clock n (item :: rest) state
  = (d :: fst (decideAll clock (S n) rest state'),
     snd (decideAll clock (S n) rest state'))
  /\ (Decision.action d = BUY ->
      purchasedIds state' = {[ EvaluatedListing.id item ]} ∪ purchasedIds state
      /\ budget state' = budget state - price
      /\ AgentStats.items_purchased s' = AgentStats.items_purchased s + 1
      /\ AgentStats.total_invested s' = AgentStats.total_invested s + price
      /\ AgentStats.expected_profit s' = AgentStats.expected_profit s + profit
      /\ AgentStats.potential_revenue s'
         = AgentStats.potential_revenue s + (price + profit)
      /\ AgentStats.listings_scanned s' = AgentStats.listings_scanned s
      /\ AgentStats.items_listed s' = AgentStats.items_listed s
      /\ AgentStats.expected_roi s'
         == runningROI (AgentStats.expected_profit s')
              (AgentStats.total_invested s'))
  /\ (Decision.action d = SKIP -> state' = state)
  /\ stats_ok s'.
Proof.
  cbv zeta. intros Hprice [Hinv Hroi].
  split; [apply decideAll_cons|].
  set (d := evaluateOpportunity (clock n) item state).
  assert (Hp : Decision.price d = EvaluatedListing.price item)
    by apply evaluateOpportunity_echoes.
  assert (Hq : Decision.profit_potential d
               = EvaluatedListing.profit_potential item)
    by apply evaluateOpportunity_echoes.
  assert (Hzero : AgentStats.total_invested (stats state)
                  + EvaluatedListing.price item <= 0 ->
                  AgentStats.expected_roi (stats state) == 0)
    by (intros Hle; apply Hroi; lra).
  unfold applyDecision, updateStats.
  destruct (Decision.action d) eqn:Ha; simpl; rewrite ?Hp, ?Hq.
  - split; [|split; [discriminate|]].
    + intros _. repeat (split; [reflexivity|]).
      unfold runningROI.
      destruct (Qlt_bool 0 _) eqn:E1; destruct (Qeq_bool _ 0) eqn:E2;
        cmp_cases; try reflexivity.
      * exfalso. lra.
      * apply Hzero. lra.
      * exfalso. apply E2. lra.
    + split; simpl; [lra|]. intros H0.
      destruct (Qlt_bool 0 _) eqn:E1; cmp_cases; [exfalso; lra|].
      apply Hzero. lra.
  - split; [discriminate|]. split; [reflexivity|]. split; assumption.
Qed.

(** [buy_side_effects] at work: the first purchase from the initial state,
    at price 200 with a profit of 100, takes the budget from 5000 to 4800. *)
Lemma buy_side_effects_witness :
  budget
    (applyDecision (sampleListing "item-1" 200 100 0.5)
       (evaluateOpportunity "t" (sampleListing "item-1" 200 100 0.5)
          createInitialState)
       createInitialState)
  = 5000 - 200.
Proof.
  pose proof (buy_side_effects (fun _ => "t"%string) 0
                (sampleListing "item-1" 200 100 0.5) [] createInitialState
                ltac:(vm_compute; congruence) stats_ok_zero) as H.
  cbv zeta in H. destruct H as (_ & H & _).
  exact (proj1 (proj2 (H eq_refl))).
Defined.

Example first_purchase_stats :
  let state' :=
    snd (makeDecisions (fun _ => "t"%string)
           [sampleListing "item-1" 200 100 0.5] 5000 None) in
  AgentStats.expected_roi (stats state') == 50
  /\ AgentStats.potential_revenue (stats state') == 300
  /\ budget state' == 4800.
Proof. vm_compute. repeat split; congruence. Qed.

(** Outside those assumptions the ratio is only recomputed while the total
    invested is positive: a purchase at a negative price that brings the
    total back to 0 leaves the earlier ratio standing. *)
Example stale_ratio_after_negative_price :
  let state' :=
    snd (makeDecisions (fun _ => "t"%string)
           [sampleListing "a" 100 60 0.6; sampleListing "b" (-100) 60 0.6]
           500 None) in
  AgentStats.total_invested (stats state') == 0
  /\ AgentStats.expected_roi (stats state') == 60.
Proof. vm_compute. split; congruence. Qed.

(** A batch without a BUY leaves the state it ran on as it was. *)
Lemma decideAll_no_buy clock evaluated :
  forall n state,
    buys (fst (decideAll clock n evaluated state)) = [] ->
    snd (decideAll clock n evaluated state) = state.
Proof.
  induction evaluated as [|item rest IH]; intros n state; [reflexivity|].
  rewrite decideAll_cons. simpl fst. simpl snd. rewrite buys_cons.
  destruct (decide _) as [E|E]; [discriminate|]. intros Hrest.
  assert (Hs : Decision.action (evaluateOpportunity (clock n) item state)
               = SKIP)
    by (destruct (Decision.action _); [contradiction|reflexivity]).
  rewrite (applyDecision_skip _ _ _ Hs) in *. apply IH. exact Hrest.
Qed.

(** C5, as amended.  A call on the actor that yields no BUY decision never
    changes the purchased ids, and changes neither the budget nor the
    statistics except as follows: [makeDecisions] first overwrites the
    budget with the one passed in and afterwards adds the batch length to
    [listings_scanned]; [updateConfig] overwrites the budget when the
    configuration carries one; [resetState] puts the initial state in place.
    [getStats] changes nothing, and the decision engine proper (the
    controller's [makeDecisions]) leaves the state it is given untouched
    when it emits no BUY. *)
Theorem frame_without_buy :
  (forall clock evaluated B existingState,
      buys (fst (makeDecisions clock evaluated B existingState)) = [] ->
      snd (makeDecisions clock evaluated B existingState)
      = default (freshState B) existingState)
  /\ (forall clock c state,
         let reply := fst (DecisionActor.handle clock c state) in
         let state' := snd (DecisionActor.handle clock c state) in
         buys (DecisionActor.decisionsOf reply) = [] ->
         match c with
         | DecisionActor.MakeDecisions evaluated b =>
             budget state' = default (budget state) b
             /\ purchasedIds state' = purchasedIds state
             /\ AgentStats.listings_scanned (stats state')
                = AgentStats.listings_scanned (stats state)
                  + inject_Z (Z.of_nat (length evaluated))
             /\ AgentStats.items_purchased (stats state')
                = AgentStats.items_purchased (stats state)
             /\ AgentStats.items_listed (stats state')
                = AgentStats.items_listed (stats state)
             /\ AgentStats.total_invested (stats state')
                = AgentStats.total_invested (stats state)
             /\ AgentStats.potential_revenue (stats state')
                = AgentStats.potential_revenue (stats state)
             /\ AgentStats.expected_profit (stats state')
                = AgentStats.expected_profit (stats state)
             /\ AgentStats.expected_roi (stats state')
                = AgentStats.expected_roi (stats state)
         | DecisionActor.GetStats => state' = state
         | DecisionActor.UpdateConfig b =>
             budget state' = default (budget state) b
             /\ purchasedIds state' = purchasedIds state
             /\ stats state' = stats state
         | DecisionActor.ResetState => state' = createInitialState
         end).
Proof.
  split.
  { intros clock evaluated B existingState.
    unfold makeDecisions. destruct existingState; apply decideAll_no_buy. }
  intros clock c state. cbv zeta.
  destruct c as [evaluated b| |b|]; simpl.
  - unfold DecisionActor.makeDecisions, makeDecisions.
    pose proof (decideAll_no_buy clock evaluated 0
                  (DecisionActor.setBudget b state)) as H1.
    destruct (decideAll clock 0 evaluated (DecisionActor.setBudget b state))
      as [ds s1].
    simpl in *. intros Hno. rewrite (H1 Hno).
    destruct b; simpl; repeat split; reflexivity.
  - reflexivity.
  - intros _. destruct b; simpl; auto.
  - reflexivity.
Qed.

(** C5 fails as stated.  Neither call below yields a BUY decision, yet
    [updateConfig] takes the budget of the initial state from 5000 to 100,
    and a [makeDecisions] batch whose only listing is skipped for its thin
    margin replaces the budget by the one passed in and counts the listing
    as scanned. *)
Lemma state_changes_without_buy :
  let thin := sampleListing "thin-1" 100 10 0.1 in
  let r1 := DecisionActor.handle (fun _ => "t"%string)
              (DecisionActor.UpdateConfig (Some 100)) createInitialState in
  let r2 := DecisionActor.handle (fun _ => "t"%string)
              (DecisionActor.MakeDecisions [thin] (Some 750))
              createInitialState in
  buys (DecisionActor.decisionsOf (fst r1)) = []
  /\ budget createInitialState == 5000
  /\ budget (snd r1) == 100
  /\ buys (DecisionActor.decisionsOf (fst r2)) = []
  /\ budget (snd r2) == 750
  /\ AgentStats.listings_scanned (stats createInitialState) == 0
  /\ AgentStats.listings_scanned (stats (snd r2)) == 1.
Proof. vm_compute. repeat split; congruence. Qed.

(** [frame_without_buy] at work on the batch with the one thin listing. *)
Lemma frame_without_buy_witness :
  purchasedIds
    (snd (DecisionActor.handle (fun _ => "t"%string)
            (DecisionActor.MakeDecisions
               [sampleListing "thin-1" 100 10 0.1] (Some 750))
            createInitialState))
  = purchasedIds createInitialState.
Proof.
  exact (proj1 (proj2
           (proj2 frame_without_buy (fun _ => "t"%string)
              (DecisionActor.MakeDecisions
                 [sampleListing "thin-1" 100 10 0.1] (Some 750))
              createInitialState eq_refl))).
Defined.

(** ** Valuation scores *)

Import ValuationProps.

Lemma clamp_bounds x : 0 <= Valuation.clamp x /\ Valuation.clamp x <= 100.
Proof.
  unfold Valuation.clamp, Math_max, Math_min.
  destruct (Qle_bool 100 x) eqn:E1; cmp_cases.
  - destruct (Qle_bool 0 100) eqn:E2; cmp_cases; lra.
  - destruct (Qle_bool 0 x) eqn:E2; cmp_cases; lra.
Qed.

Lemma clamp_id x : 0 <= x -> x <= 100 -> Valuation.clamp x == x.
Proof.
  intros H0 H1. unfold Valuation.clamp, Math_max, Math_min.
  destruct (Qle_bool 100 x) eqn:E1; cmp_cases.
  - destruct (Qle_bool 0 100) eqn:E2; cmp_cases; lra.
  - destruct (Qle_bool 0 x) eqn:E2; cmp_cases; lra.
Qed.

Lemma clamp_mono x y : x <= y -> Valuation.clamp x <= Valuation.clamp y.
Proof.
  intros Hxy. unfold Valuation.clamp, Math_max, Math_min.
  destruct (Qle_bool 100 x) eqn:E1; destruct (Qle_bool 100 y) eqn:E2;
    cmp_cases;
    repeat match goal with
      | |- context [Qle_bool ?a ?b] => destruct (Qle_bool a b) eqn:?; cmp_cases
      end; lra.
Qed.

(** The interpolation of the historical score falls as the price rises. *)
Lemma historical_line_mono (lo hi p q : Q) :
  lo < hi -> p <= q ->
  100 * (1 - (q - lo) / (hi - lo)) <= 100 * (1 - (p - lo) / (hi - lo)).
Proof.
  intros Hlh Hpq.
  assert (Hd : 0 < hi - lo) by lra.
  assert (Hi : 0 <= / (hi - lo)) by (apply Qlt_le_weak, Qinv_lt_0_compat, Hd).
  assert ((p - lo) / (hi - lo) <= (q - lo) / (hi - lo)).
  { unfold Qdiv. apply Qmult_le_compat_r; [lra|exact Hi]. }
  lra.
Qed.

(** C7.  For a reference range with [min <= max] the historical score never
    rises when the price rises (on the range and beyond it), is 100 at any
    price up to [min], is 0 at any price from [max] on when the range is not
    degenerate, and is 100 throughout when [min] equals [max]. *)
Theorem calculateHistoricalScore_shape (historical : HistoricalData.t) :
  let min := HistoricalData.min historical in
  let max := HistoricalData.max historical in
  let score p := Valuation.calculateHistoricalScore p historical in
  min <= max ->
  (forall p q, p <= q -> score q <= score p)
  /\ (forall p, p <= min -> score p == 100)
  /\ (min < max -> forall p, max <= p -> score p == 0)
  /\ (min == max -> forall p, score p == 100)
  /\ score min == 100
  /\ (min < max -> score max == 0).
Proof.
  cbv zeta. intros Hmm.
  assert (Hlow : forall p, p <= HistoricalData.min historical ->
                 Valuation.calculateHistoricalScore p historical == 100).
  { intros p Hp. unfold Valuation.calculateHistoricalScore.
    destruct (Qeq_bool _ _); [reflexivity|].
    destruct (Qle_bool p _) eqn:E; cmp_cases; [reflexivity|exfalso; lra]. }
  assert (Hhigh : HistoricalData.min historical < HistoricalData.max historical ->
                  forall p, HistoricalData.max historical <= p ->
                  Valuation.calculateHistoricalScore p historical == 0).
  { intros Hlt p Hp. unfold Valuation.calculateHistoricalScore.
    destruct (Qeq_bool _ _) eqn:E0; cmp_cases; [exfalso; lra|].
    destruct (Qle_bool p _) eqn:E1; cmp_cases; [exfalso; lra|].
    destruct (Qle_bool _ p) eqn:E2; cmp_cases; [reflexivity|exfalso; lra]. }
  assert (Hdeg : HistoricalData.min historical == HistoricalData.max historical ->
                 forall p, Valuation.calculateHistoricalScore p historical == 100).
  { intros Heq p. unfold Valuation.calculateHistoricalScore.
    destruct (Qeq_bool _ _) eqn:E0; cmp_cases; [reflexivity|contradiction]. }
  split; [|split; [exact Hlow|split; [exact Hhigh|split; [exact Hdeg|split]]]].
  - intros p q Hpq. unfold Valuation.calculateHistoricalScore.
    destruct (Qeq_bool _ _) eqn:E0; cmp_cases; [lra|].
    assert (Hlt : HistoricalData.min historical < HistoricalData.max historical).
    { destruct (Qlt_le_dec (HistoricalData.min historical)
                  (HistoricalData.max historical)) as [H|H]; [exact H|].
      exfalso. apply E0. lra. }
    destruct (Qle_bool p _) eqn:Ep; destruct (Qle_bool q _) eqn:Eq; cmp_cases;
      try lra.
    + destruct (Qle_bool _ q) eqn:Eq2; cmp_cases; [lra|].
      apply clamp_bounds.
    + destruct (Qle_bool _ q) eqn:Eq2; destruct (Qle_bool _ p) eqn:Ep2;
        cmp_cases; try lra.
      * apply clamp_bounds.
      * apply clamp_mono, historical_line_mono; assumption.
  - apply Hlow. lra.
  - intros Hlt. apply Hhigh; [exact Hlt|lra].
Qed.

(** [calculateHistoricalScore_shape] at work on the iPhone reference range
    (400 to 1200): the score at 600 is not above the score at 500. *)
Lemma calculateHistoricalScore_shape_witness :
  Valuation.calculateHistoricalScore 600 (HistoricalData.mk 650 400 1200 999)
  <= Valuation.calculateHistoricalScore 500 (HistoricalData.mk 650 400 1200 999).
Proof.
  exact (proj1 (calculateHistoricalScore_shape
                  (HistoricalData.mk 650 400 1200 999)
                  ltac:(vm_compute; congruence))
           500 600 ltac:(vm_compute; congruence)).
Defined.

Example historical_midpoint :
  Valuation.calculateHistoricalScore 800 (HistoricalData.mk 650 400 1200 999)
  == 50.
Proof. vm_compute. reflexivity. Qed.

(** The ratio [price / msrp] against a bound, for a positive MSRP. *)
Lemma ratio_le (price msrp c : Q) :
  0 < msrp -> (price / msrp <= c <-> price <= c * msrp).
Proof.
  intros Hm. split; intros H.
  - assert (Hr : price == price / msrp * msrp)
      by (field; intros E; rewrite E in Hm; exact (Qlt_irrefl _ Hm)).
    rewrite Hr. apply Qmult_le_compat_r; [exact H|lra].
  - apply Qle_shift_div_r; assumption.
Qed.

Lemma ratio_lt (price msrp c : Q) :
  0 < msrp -> (c < price / msrp <-> c * msrp < price).
Proof.
  intros Hm. pose proof (ratio_le price msrp c Hm) as H.
  split; intros Hlt.
  - apply Qnot_le_lt. intros Hle. apply H in Hle. lra.
  - apply Qnot_le_lt. intros Hle. apply H in Hle. lra.
Qed.

Lemma msrpLine_bounds (price msrp : Q) :
  0 < msrp -> 0.5 * msrp < price -> price < msrp ->
  0 < msrpLine price msrp /\ msrpLine price msrp < 100.
Proof.
  intros Hm Hlo Hhi. unfold msrpLine.
  assert (H1 : 0.5 < price / msrp) by (apply ratio_lt; assumption).
  assert (H2 : price / msrp < 1) by (apply Qlt_shift_div_r; lra).
  set (r := price / msrp) in *.
  assert (Hd : (r - 0.5) / 0.5 == 2 * r - 1) by field.
  rewrite Hd. split; lra.
Qed.

Lemma calculateMSRPScore_between (price msrp : Q) :
  0 < msrp -> 0.5 * msrp < price -> price < msrp ->
  Valuation.calculateMSRPScore price msrp
  = Valuation.clamp (msrpLine price msrp)
  /\ Valuation.calculateMSRPScore price msrp == msrpLine price msrp.
Proof.
  intros Hm Hlo Hhi.
  assert (Hmid : Valuation.calculateMSRPScore price msrp
                 = Valuation.clamp (msrpLine price msrp)).
  { unfold Valuation.calculateMSRPScore.
    destruct (Qeq_bool msrp 0) eqn:E0; cmp_cases; [exfalso; lra|].
    destruct (Qle_bool msrp price) eqn:E1; cmp_cases; [exfalso; lra|].
    destruct (Qle_bool (price / msrp) 0.5) eqn:E2; cmp_cases; [|reflexivity].
    exfalso. apply ratio_le in E2; lra. }
  split; [exact Hmid|]. rewrite Hmid.
  destruct (msrpLine_bounds price msrp Hm Hlo Hhi).
  apply clamp_id; lra.
Qed.

(** C6.  For an MSRP that is not negative: the MSRP score is 0 when the
    MSRP is 0; for a positive MSRP it is 100 when the price is at most half
    the MSRP, 0 when the price is at least the MSRP (this also when the
    MSRP is 0), and in between it is [100 * (1 - (price/msrp - 0.5)/0.5)]
    clamped to 0..100, which there is the unclamped value; at three quarters
    of the MSRP it is exactly 50. *)
Theorem calculateMSRPScore_shape (price msrp : Q) :
  0 <= msrp ->
  (msrp == 0 -> Valuation.calculateMSRPScore price msrp == 0)
  /\ (0 < msrp -> price <= 0.5 * msrp ->
      Valuation.calculateMSRPScore price msrp == 100)
  /\ (msrp <= price -> Valuation.calculateMSRPScore price msrp == 0)
  /\ (0.5 * msrp < price -> price < msrp ->
      Valuation.calculateMSRPScore price msrp
      = Valuation.clamp (msrpLine price msrp)
      /\ Valuation.calculateMSRPScore price msrp == msrpLine price msrp)
  /\ (0 < msrp -> Valuation.calculateMSRPScore (0.75 * msrp) msrp == 50).
Proof.
  intros Hnn.
  split; [|split; [|split; [|split]]].
  - intros H0. unfold Valuation.calculateMSRPScore.
    destruct (Qeq_bool msrp 0) eqn:E0; cmp_cases;
      [reflexivity|contradiction].
  - intros Hm Hhalf. unfold Valuation.calculateMSRPScore.
    destruct (Qeq_bool msrp 0) eqn:E0; cmp_cases; [exfalso; lra|].
    destruct (Qle_bool msrp price) eqn:E1; cmp_cases; [exfalso; lra|].
    destruct (Qle_bool (price / msrp) 0.5) eqn:E2; cmp_cases; [reflexivity|].
    exfalso. apply ratio_lt in E2; lra.
  - intros Hge. unfold Valuation.calculateMSRPScore.
    destruct (Qeq_bool msrp 0) eqn:E0; [reflexivity|].
    destruct (Qle_bool msrp price) eqn:E1; cmp_cases;
      [reflexivity|exfalso; lra].
  - intros Hlo Hhi. apply calculateMSRPScore_between; lra.
  - intros Hm.
    destruct (calculateMSRPScore_between (0.75 * msrp) msrp Hm
                ltac:(lra) ltac:(lra)) as [_ ->].
    unfold msrpLine. field. intros E. rewrite E in Hm.
    exact (Qlt_irrefl _ Hm).
Qed.

(** [calculateMSRPScore_shape] at work on the iPhone MSRP of 999: a price
    of 400 is below half of it. *)
Lemma calculateMSRPScore_shape_witness :
  Valuation.calculateMSRPScore 400 999 == 100.
Proof.
  exact (proj1 (proj2 (calculateMSRPScore_shape 400 999
                         ltac:(vm_compute; congruence)))
           ltac:(vm_compute; reflexivity) ltac:(vm_compute; congruence)).
Defined.

Example msrp_three_quarters : Valuation.calculateMSRPScore 749.25 999 == 50.
Proof. vm_compute. reflexivity. Qed.

(** For a negative MSRP, which no price reference carries, the score is 0
    even at a price below half of it. *)
Example msrp_negative : Valuation.calculateMSRPScore (-200) (-100) == 0.
Proof. vm_compute. reflexivity. Qed.

(** ** Product keys *)

Lemma prefix_iff (a b : string) :
  String.prefix a b = true <-> exists post, b = a +:+ post.
Proof.
  revert b. induction a as [|c a IH]; intros b.
  - split; [|destruct b; reflexivity]. intros _. exists b. reflexivity.
  - destruct b as [|c' b]; simpl.
    + split; [discriminate|]. intros [post H]. discriminate.
    + destruct (ascii_dec c c') as [->|Hne].
      * rewrite IH. split; intros [post H]; exists post.
        -- rewrite H. reflexivity.
        -- injection H as H. exact H.
      * split; [discriminate|]. intros [post H]. injection H as H1 H2.
        congruence.
Qed.

Lemma includes_nil (sub : string) :
  Valuation.includes "" sub = String.prefix sub "" || false.
Proof. reflexivity. Qed.

Lemma includes_cons (c : ascii) (s sub : string) :
  Valuation.includes (String c s) sub
  = String.prefix sub (String c s) || Valuation.includes s sub.
Proof. reflexivity. Qed.

Lemma includes_iff (s sub : string) :
  Valuation.includes s sub = true <-> occurs_in sub s.
Proof.
  unfold occurs_in. induction s as [|c s IH].
  - rewrite includes_nil, orb_false_r, prefix_iff. split.
    + intros [post H]. exists ""%string, post. exact H.
    + intros [pre [post H]]. destruct pre; [exists post; exact H|].
      discriminate.
  - rewrite includes_cons, orb_true_iff, prefix_iff, IH. split.
    + intros [[post H]|[pre [post H]]].
      * exists ""%string, post. exact H.
      * exists (String c pre), post. simpl. rewrite H. reflexivity.
    + intros [pre [post H]]. destruct pre as [|c' pre]; simpl in H.
      * left. exists post. exact H.
      * right. injection H as _ H. exists pre, post. exact H.
Qed.

Lemma includes_false (s sub : string) :
  Valuation.includes s sub = false <-> ~ occurs_in sub s.
Proof.
  rewrite <- includes_iff. destruct (Valuation.includes s sub);
    split; congruence.
Qed.

(** The chain of tests in [extractProductKey] is a search through
    [KNOWN_PRODUCTS] in order. *)
Lemma extractProductKey_find (title : string) :
  Valuation.extractProductKey title
  = match List.find (Valuation.includes (Valuation.toLowerCase title))
            KNOWN_PRODUCTS with
    | Some k => k
    | None =>
        match head (Valuation.split " " title) with
        | Some (String c w) => Valuation.toLowerCase (String c w)
        | _ => "unknown"%string
        end
    end.
Proof.
  unfold Valuation.extractProductKey, KNOWN_PRODUCTS. simpl List.find.
  repeat match goal with
    | |- context [Valuation.includes ?a ?b] =>
        destruct (Valuation.includes a b); try reflexivity
    end.
  destruct (head _) as [[|c w]|]; reflexivity.
Qed.

Lemma find_first {A} (P : A -> bool) (before : list A) x after :
  P x = true -> (forall y, y ∈ before -> P y = false) ->
  List.find P (before ++ x :: after) = Some x.
Proof.
  intros Hx. induction before as [|y before IH]; intros Hb; simpl.
  - rewrite Hx. reflexivity.
  - rewrite (Hb y) by (left). apply IH. intros z Hz. apply Hb. right. exact Hz.
Qed.

Lemma find_none_all {A} (P : A -> bool) (l : list A) :
  (forall y, y ∈ l -> P y = false) -> List.find P l = None.
Proof.
  induction l as [|y l IH]; intros H; simpl; [reflexivity|].
  rewrite (H y) by left. apply IH. intros z Hz. apply H. right. exact Hz.
Qed.

Lemma no_space_cons (c : ascii) (w : string) :
  c <> " "%char -> ~ occurs_in " " w -> ~ occurs_in " " (String c w).
Proof.
  intros Hc Hw [pre [post H]]. destruct pre as [|c' pre]; simpl in H.
  - injection H as H _. contradiction.
  - injection H as _ H. apply Hw. exists pre, post. exact H.
Qed.

(** The first piece of [title.split(' ')] is the text in front of the
    first space. *)
Lemma split_head (title : string) :
  exists w ws, Valuation.split " " title = w :: ws
               /\ before_first_space title w.
Proof.
  induction title as [|c title (w & ws & Hs & Hns & Hw)]; simpl.
  - exists ""%string, []. split; [reflexivity|]. split; [|left; reflexivity].
    intros [pre [post H]]. destruct pre; discriminate.
  - destruct (Ascii.eqb c " ") eqn:E.
    + apply Ascii.eqb_eq in E as ->.
      exists ""%string, (Valuation.split " " title).
      split; [reflexivity|]. split.
      * intros [pre [post H]]. destruct pre; discriminate.
      * right. exists title. reflexivity.
    + apply Ascii.eqb_neq in E. rewrite Hs. exists (String c w), ws.
      split; [reflexivity|]. split; [apply no_space_cons; assumption|].
      destruct Hw as [->|[rest ->]]; [left; reflexivity|].
      right. exists rest. reflexivity.
Qed.

(** C8, as amended.  The lowercased title is searched for the keywords
    iphone, macbook, ps5, laptop, tv in this order, and the first keyword
    of the list that occurs in it is the key, wherever in the title it
    stands.  When none occurs, the key is the lowercased text of the title
    in front of its first space character, or "unknown" when that text is
    empty, which is so for an empty title and for a title that begins with
    a space. *)
Theorem extractProductKey_rules (title : string) :
  let titleLower := Valuation.toLowerCase title in
  (forall before kw after,
      KNOWN_PRODUCTS = before ++ kw :: after ->
      occurs_in kw titleLower ->
      (forall k, k ∈ before -> ~ occurs_in k titleLower) ->
      Valuation.extractProductKey title = kw)
  /\ ((forall k, k ∈ KNOWN_PRODUCTS -> ~ occurs_in k titleLower) ->
      exists w,
        before_first_space title w
        /\ Valuation.extractProductKey title
           = if decide (w = ""%string) then "unknown"%string
             else Valuation.toLowerCase w).
Proof.
  cbv zeta. split.
  - intros before kw after Hsplit Hkw Hbefore.
    rewrite extractProductKey_find, Hsplit, find_first; [reflexivity| |].
    + apply includes_iff. exact Hkw.
    + intros k Hk. apply includes_false. exact (Hbefore k Hk).
  - intros Hnone. rewrite extractProductKey_find, find_none_all.
    2:{ intros k Hk. apply includes_false. exact (Hnone k Hk). }
    destruct (split_head title) as (w & ws & Hs & Hw).
    exists w. split; [exact Hw|]. rewrite Hs. simpl.
    destruct w; reflexivity.
Qed.

(** [extractProductKey_rules] at work: "tv" stands first in the title but
    "laptop" stands first in the list. *)
Lemma extractProductKey_rules_witness :
  Valuation.extractProductKey "TV stand for Laptop" = "laptop"%string.
Proof.
  refine (proj1 (extractProductKey_rules "TV stand for Laptop")
            ["iphone"; "macbook"; "ps5"]%string "laptop"%string
            ["tv"%string] eq_refl _ _).
  - apply includes_iff. reflexivity.
  - intros k Hk. apply includes_false.
    repeat (apply elem_of_cons in Hk as [->|Hk]; [reflexivity|]).
    apply elem_of_nil in Hk. contradiction.
Defined.

(** C8 fails as stated.  The title " Widget" is not empty and holds no
    keyword; its first white-space-delimited token is "Widget", yet the key
    is "unknown", because the text in front of the first space is empty. *)
Lemma leading_space_title_unknown :
  let title := " Widget"%string in
  title <> ""%string
  /\ List.find (Valuation.includes (Valuation.toLowerCase title))
       KNOWN_PRODUCTS = None
  /\ firstToken title = "Widget"%string
  /\ claimedProductKey title = "widget"%string
  /\ Valuation.extractProductKey title = "unknown"%string.
Proof. cbv zeta. split; [discriminate|]. repeat split. Qed.

Example first_word_key :
  Valuation.extractProductKey "Nintendo Switch OLED" = "nintendo"%string.
Proof. reflexivity. Qed.

Example empty_title_key : Valuation.extractProductKey "" = "unknown"%string.
Proof. reflexivity. Qed.

(** ** The re-listing sweep *)

Import Inventory InventoryProps.

Section JsMapFacts.
Context {V : Type}.
Implicit Types (m : list (string * V)) (k : string) (v : V).

Lemma get_set_same k v m : JsMap.get k (JsMap.set k v m) = Some v.
Proof.
  induction m as [|[k' v'] m IH]; simpl.
  - rewrite String.eqb_refl. reflexivity.
  - destruct (String.eqb k' k) eqn:E; simpl; rewrite E; auto.
Qed.

Lemma set_set k v1 v2 m :
  JsMap.set k v2 (JsMap.set k v1 m) = JsMap.set k v2 m.
Proof.
  induction m as [|[k' v'] m IH]; simpl.
  - rewrite String.eqb_refl. reflexivity.
  - destruct (String.eqb k' k) eqn:E; simpl; rewrite E; congruence.
Qed.

Lemma get_elem k v m :
  NoDup (JsMap.keys m) -> (k, v) ∈ m -> JsMap.get k m = Some v.
Proof.
  induction m as [|[k' v'] m IH]; simpl; intros Hnd Hin.
  - apply elem_of_nil in Hin. contradiction.
  - apply NoDup_cons in Hnd as [Hk' Hnd].
    apply elem_of_cons in Hin as [Heq|Hin].
    + injection Heq as <- <-. rewrite String.eqb_refl. reflexivity.
    + destruct (String.eqb k' k) eqn:E; [|auto].
      apply String.eqb_eq in E as ->. exfalso. apply Hk'.
      apply list_elem_of_fmap. exists (k, v). auto.
Qed.

Lemma upd_absent k v m : k ∉ JsMap.keys m -> upd k v <$> m = m.
Proof.
  induction m as [|[k' v'] m IH]; intros Hk; [reflexivity|].
  unfold JsMap.keys in Hk. rewrite fmap_cons in Hk.
  apply not_elem_of_cons in Hk as [Hne Hk]. rewrite fmap_cons, (IH Hk).
  unfold upd. simpl in *. destruct (String.eqb k' k) eqn:E; [|reflexivity].
  apply String.eqb_eq in E. congruence.
Qed.

Lemma set_present k v m :
  NoDup (JsMap.keys m) -> k ∈ JsMap.keys m ->
  JsMap.set k v m = upd k v <$> m.
Proof.
  induction m as [|[k' v'] m IH]; intros Hnd Hin.
  - apply elem_of_nil in Hin. contradiction.
  - unfold JsMap.keys in Hnd, Hin. rewrite fmap_cons in Hnd, Hin.
    apply NoDup_cons in Hnd as [Hk' Hnd]. rewrite fmap_cons.
    unfold upd at 1. simpl in *.
    destruct (String.eqb k' k) eqn:E.
    + apply String.eqb_eq in E as ->. rewrite upd_absent by exact Hk'.
      reflexivity.
    + apply elem_of_cons in Hin as [->|Hin].
      * rewrite String.eqb_refl in E. discriminate.
      * rewrite IH by assumption. reflexivity.
Qed.

Lemma keys_upd k v m : JsMap.keys (upd k v <$> m) = JsMap.keys m.
Proof.
  unfold JsMap.keys. rewrite <- list_fmap_compose. apply list_fmap_ext.
  intros i [k' v'] _. unfold upd. simpl.
  destruct (String.eqb k' k); reflexivity.
Qed.

End JsMapFacts.

Lemma Forall2_impl_Forall {A B} (P : A -> Prop) (R R' : A -> B -> Prop) l k :
  Forall P l -> Forall2 R l k ->
  (forall x y, P x -> R x y -> R' x y) -> Forall2 R' l k.
Proof.
  intros HP HR Himp. induction HR; [constructor|].
  apply Forall_cons in HP as [Hx HP]. constructor; auto.
Qed.

(** One turn of the sweep's loop on an item that is filed in the
    inventory: two clock readings, the entry rewritten, two bucket writes. *)
Lemma relistOne_ok clock item w :
  JsMap.get (InventoryItem.id item) (inventory w) = Some item ->
  let r := clockReads w in
  let id := InventoryItem.id item in
  relistOne clock item w
  = (inr (createReListing (clock r) item),
     mkWorld
       (JsMap.set id (relisted (clock (S r)) item) (inventory w))
       ({[ id ]} ∪ listedIds w)
       ((bucket w
           ++ [(id, withListedDate (clock (S r)) (withStatus listed item))])
          ++ [(id, relisted (clock (S r)) item)])
       (S (S r))).
Proof.
  intros Hget. cbv zeta.
  unfold relistOne, updateItemStatus, bind, now, getWorld, setInventory,
    addListedId, bucketPut, ret. simpl.
  rewrite Hget. simpl. rewrite get_set_same. simpl. rewrite set_set.
  reflexivity.
Qed.

Lemma createReListing_isResaleOf t item :
  isResaleOf (createReListing t item) item.
Proof. unfold isResaleOf. repeat split. Qed.

Lemma relistLoop_ok clock items :
  forall w,
    NoDup (JsMap.keys (inventory w)) ->
    NoDup (InventoryItem.id <$> items) ->
    (forall it, it ∈ items -> (InventoryItem.id it, it) ∈ inventory w) ->
    exists listings w',
      relistLoop clock items w = (inr listings, w')
      /\ Forall2 isResaleOf listings items
      /\ Forall2 (processed items) (inventory w) (inventory w').
Proof.
  induction items as [|it rest IH]; intros w Hkeys Hids Hin.
  { exists [], w. split; [reflexivity|]. split; [constructor|].
    apply Forall_Forall2_diag, Forall_forall. intros e _.
    split; [reflexivity|]. right. split; [apply not_elem_of_nil|reflexivity]. }
  rewrite fmap_cons in Hids. apply NoDup_cons in Hids as [Hfresh Hids].
  assert (Hit : (InventoryItem.id it, it) ∈ inventory w) by (apply Hin; left).
  pose proof (get_elem _ _ _ Hkeys Hit) as Hget.
  pose proof (relistOne_ok clock it w Hget) as Hone. cbv zeta in Hone.
  set (v := relisted (clock (S (clockReads w))) it) in *.
  assert (Hset : JsMap.set (InventoryItem.id it) v (inventory w)
                 = upd (InventoryItem.id it) v <$> inventory w).
  { apply set_present; [exact Hkeys|].
    apply list_elem_of_fmap. exists (InventoryItem.id it, it). auto. }
  rewrite Hset in Hone.
  match type of Hone with _ = (_, ?x) => set (w1 := x) in * end.
  destruct (IH w1) as (listings & w' & Hloop & Hres & Hproc).
  { simpl. rewrite keys_upd. exact Hkeys. }
  { exact Hids. }
  { intros it' Hit'. simpl. apply list_elem_of_fmap.
    exists (InventoryItem.id it', it'). split; [|apply Hin; right; exact Hit'].
    unfold upd. simpl.
    destruct (String.eqb (InventoryItem.id it') (InventoryItem.id it)) eqn:E;
      [|reflexivity].
    apply String.eqb_eq in E. exfalso. apply Hfresh. rewrite <- E.
    apply list_elem_of_fmap_2. exact Hit'. }
  exists (createReListing (clock (clockReads w)) it :: listings), w'.
  split; [|split].
  - simpl. unfold bind at 1. rewrite Hone. unfold bind at 1. rewrite Hloop.
    reflexivity.
  - constructor; [apply createReListing_isResaleOf|exact Hres].
  - assert (Hproc' : Forall2 (processed rest)
                       (upd (InventoryItem.id it) v <$> inventory w)
                       (inventory w')) by exact Hproc.
    clear Hproc. rename Hproc' into Hproc.
    rewrite Forall2_fmap_l in Hproc.
    assert (Hall : Forall (fun e => e ∈ inventory w) (inventory w))
      by (apply Forall_forall; intros e He; exact He).
    apply (Forall2_impl_Forall _ _ _ _ _ Hall Hproc).
    intros [k x] y Hx [Hfst Hsnd]. unfold upd in Hfst, Hsnd. simpl in *.
    destruct (String.eqb k (InventoryItem.id it)) eqn:E; simpl in *.
    + apply String.eqb_eq in E. subst k.
      assert (x = it).
      { pose proof (get_elem _ _ _ Hkeys Hx) as H1. congruence. }
      subst x. split; [exact Hfst|]. left. split; [left|].
      destruct Hsnd as [[Hv _]|[_ Hv]];
        [|exists (clock (S (clockReads w))); exact Hv].
      exfalso. apply Hfresh.
      apply (list_elem_of_fmap_2 InventoryItem.id) in Hv. exact Hv.
    + apply String.eqb_neq in E. split; [exact Hfst|].
      destruct Hsnd as [[Hv Hd]|[Hk Hv]].
      * left. split; [right; exact Hv|exact Hd].
      * right. split; [|exact Hv]. rewrite fmap_cons.
        apply not_elem_of_cons. auto.
Qed.

Lemma Forall2_elem_r {A B} (R : A -> B -> Prop) l k y :
  Forall2 R l k -> y ∈ k -> exists x, x ∈ l /\ R x y.
Proof.
  induction 1 as [|x y' l k HR _ IH]; intros Hy.
  - apply elem_of_nil in Hy. contradiction.
  - apply elem_of_cons in Hy as [->|Hy].
    + exists x. split; [left|exact HR].
    + destruct (IH Hy) as (x' & Hx' & HR'). exists x'. split; [right|]; auto.
Qed.

Lemma Forall2_keys {V} (R : string * V -> string * V -> Prop) l k :
  Forall2 R l k -> (forall x y, R x y -> fst y = fst x) ->
  JsMap.keys k = JsMap.keys l.
Proof.
  intros H Hfst. unfold JsMap.keys.
  induction H; [reflexivity|]. rewrite !fmap_cons. f_equal; auto.
Qed.

Lemma wf_values_ids w :
  wf w -> InventoryItem.id <$> JsMap.values (inventory w)
          = JsMap.keys (inventory w).
Proof.
  intros [_ Hid]. unfold JsMap.values, JsMap.keys.
  induction (inventory w) as [|[k v] m IH]; [reflexivity|].
  rewrite !fmap_cons. simpl. f_equal.
  - symmetry. apply Hid. left.
  - apply IH. intros k' v' H. apply Hid. right. exact H.
Qed.

Lemma purchasedItems_elem w it :
  wf w -> it ∈ purchasedItems w ->
  InventoryItem.status it = purchased
  /\ (InventoryItem.id it, it) ∈ inventory w.
Proof.
  intros [_ Hid] Hit. unfold purchasedItems in Hit.
  apply list_elem_of_filter in Hit as [Hs Hv]. split; [exact Hs|].
  apply list_elem_of_fmap in Hv as ([k v] & -> & Hkv). simpl.
  rewrite <- (Hid _ _ Hkv). exact Hkv.
Qed.

Lemma relistItems_nothing_purchased clock w :
  purchasedItems w = [] -> relistItems clock w = (inr [], w).
Proof.
  intros H. unfold relistItems, bind, getWorld. fold (purchasedItems w).
  rewrite H. reflexivity.
Qed.

(** C9.  On an inventory as the actor keeps it, the sweep succeeds and
    returns one re-listing for each item with status [purchased], in
    inventory order, each with id ["resale_" + id] and the estimated resale
    value as its price; every such item comes out [listed], with the resale
    price set to the estimated resale value and a listing date, and every
    other item is left as it was.  Afterwards no item is [purchased], so a
    second sweep returns no re-listing and changes nothing. *)
Theorem relistItems_idempotent clock w :
  wf w ->
  exists listings w',
    relistItems clock w = (inr listings, w')
    /\ Forall2 isResaleOf listings (purchasedItems w)
    /\ Forall2 swept (inventory w) (inventory w')
    /\ wf w'
    /\ purchasedItems w' = []
    /\ (forall clock', relistItems clock' w' = (inr [], w')).
Proof.
  intros Hwf. pose proof Hwf as [Hkeys Hid].
  destruct (relistLoop_ok clock (purchasedItems w) w) as
    (listings & w' & Hloop & Hres & Hproc).
  { exact Hkeys. }
  { apply (sublist_NoDup _ (InventoryItem.id <$> JsMap.values (inventory w))).
    - rewrite wf_values_ids by exact Hwf. exact Hkeys.
    - apply fmap_sublist. unfold purchasedItems. apply sublist_filter. }
  { intros it Hit. apply (purchasedItems_elem w it Hwf Hit). }
  assert (Hswept : Forall2 swept (inventory w) (inventory w')).
  { assert (Hall : Forall (fun e => e ∈ inventory w) (inventory w))
      by (apply Forall_forall; intros e He; exact He).
    apply (Forall2_impl_Forall _ _ _ _ _ Hall Hproc).
    intros [k x] y Hx [Hfst Hsnd]. split; [exact Hfst|]. simpl in *.
    destruct (decide (InventoryItem.status x = purchased)) as [Hp|Hp].
    - destruct Hsnd as [[_ Hd]|[Hk _]]; [exact Hd|].
      exfalso. apply Hk. rewrite (Hid _ _ Hx).
      apply list_elem_of_fmap_2. unfold purchasedItems.
      apply list_elem_of_filter. split; [exact Hp|].
      apply list_elem_of_fmap. exists (k, x). auto.
    - destruct Hsnd as [[Hv _]|[_ Hv]]; [|exact Hv].
      exfalso. apply Hp. apply (purchasedItems_elem w x Hwf Hv). }
  assert (Hwf' : wf w').
  { split.
    - rewrite (Forall2_keys _ _ _ Hswept); [exact Hkeys|].
      intros x y [H _]. exact H.
    - intros k v Hkv.
      destruct (Forall2_elem_r _ _ _ _ Hswept Hkv) as ([k0 v0] & H0 & Hf & Hs).
      simpl in *. subst k. rewrite (Hid _ _ H0).
      destruct (decide _); [destruct Hs as [d ->]|subst v]; reflexivity. }
  assert (Hnone : purchasedItems w' = []).
  { unfold purchasedItems.
    destruct (filter _ (JsMap.values (inventory w'))) as [|x rest] eqn:E;
      [reflexivity|].
    exfalso.
    assert (Hx : x ∈ filter (fun item => InventoryItem.status item = purchased)
                       (JsMap.values (inventory w')))
      by (rewrite E; left).
    apply list_elem_of_filter in Hx as [Hp Hx].
    apply list_elem_of_fmap in Hx as ([k v] & -> & Hkv).
    destruct (Forall2_elem_r _ _ _ _ Hswept Hkv) as ([k0 v0] & _ & _ & Hs).
    simpl in *.
    destruct (decide _) as [_|Hn]; [destruct Hs as [d ->]|subst v].
    - discriminate.
    - contradiction. }
  exists listings, w'.
  split.
  { unfold relistItems, bind, getWorld. fold (purchasedItems w). exact Hloop. }
  split; [exact Hres|]. split; [exact Hswept|]. split; [exact Hwf'|].
  split; [exact Hnone|].
  intros clock'. apply relistItems_nothing_purchased. exact Hnone.
Qed.

Lemma wf_sample :
  wf (mkWorld [("item-1"%string, sampleItem "item-1" 150 listed);
               ("item-2"%string, sampleItem "item-2" 300 purchased)]
        {[ "item-1"%string ]} [] 0).
Proof.
  split; simpl.
  - unfold JsMap.keys. simpl. repeat constructor; set_solver.
  - intros k item H.
    repeat (apply elem_of_cons in H as [H|H];
            [injection H as -> ->; reflexivity|]).
    apply elem_of_nil in H. contradiction.
Qed.

(** [relistItems_idempotent] at work on an inventory with one listed and one
    purchased item. *)
Lemma relistItems_idempotent_witness :
  exists listings w',
    relistItems (fun _ => "t"%string)
      (mkWorld [("item-1"%string, sampleItem "item-1" 150 listed);
                ("item-2"%string, sampleItem "item-2" 300 purchased)]
         {[ "item-1"%string ]} [] 0)
    = (inr listings, w')
    /\ relistItems (fun _ => "t"%string) w' = (inr [], w').
Proof.
  destruct (relistItems_idempotent (fun _ => "t"%string) _ wf_sample)
    as (listings & w' & H1 & _ & _ & _ & _ & H2).
  exists listings, w'. split; [exact H1|apply H2].
Defined.

Example sweep_twice :
  let w0 := mkWorld [("item-1"%string, sampleItem "item-1" 150 listed);
                     ("item-2"%string, sampleItem "item-2" 300 purchased)]
              {[ "item-1"%string ]} [] 0 in
  match relistItems (fun _ => "t1"%string) w0 with
  | (inr first, w1) =>
      Listing.id <$> first = ["resale_item-2"%string]
      /\ Listing.price <$> first = [300]
      /\ (InventoryItem.status <$> JsMap.values (inventory w1))
         = [listed; listed]
      /\ match relistItems (fun _ => "t2"%string) w1 with
         | (inr second, w2) => second = [] /\ w2 = w1
         | (inl _, _) => False
         end
  | (inl _, _) => False
  end.
Proof. vm_compute. repeat split. Qed.

(** An entry filed under a key that is not its item's id is outside what
    the actor builds; the sweep then fails on the status update. *)
Example sweep_on_misfiled_entry :
  fst (relistItems (fun _ => "t"%string)
         (mkWorld [("k"%string, sampleItem "item-9" 150 purchased)] ∅ [] 0))
  = inl "Item not found in inventory"%string.
Proof. reflexivity. Qed.

(** The actor builds nothing but well-formed inventories: it starts empty
    and files every purchase under the item's id. *)
Lemma wf_emptyWorld : wf emptyWorld.
Proof.
  split; simpl.
  - constructor.
  - intros k item H. apply elem_of_nil in H. contradiction.
Qed.

Lemma set_elem {V} (k : string) (v : V) (m : list (string * V)) e :
  e ∈ JsMap.set k v m -> e = (k, v) \/ e ∈ m.
Proof.
  induction m as [|[k' v'] m IH]; simpl.
  - intros H. apply list_elem_of_singleton in H. auto.
  - destruct (String.eqb k' k) eqn:E; intros H;
      apply elem_of_cons in H as [->|H].
    + apply String.eqb_eq in E as ->. auto.
    + right. right. exact H.
    + right. left.
    + destruct (IH H) as [->|H']; [auto|]. right. right. exact H'.
Qed.

Lemma set_keys_NoDup {V} (k : string) (v : V) (m : list (string * V)) :
  NoDup (JsMap.keys m) -> NoDup (JsMap.keys (JsMap.set k v m)).
Proof.
  unfold JsMap.keys. induction m as [|[k' v'] m IH]; simpl; intros Hnd.
  - repeat constructor. apply not_elem_of_nil.
  - apply NoDup_cons in Hnd as [Hk' Hnd].
    destruct (String.eqb k' k) eqn:E; simpl.
    + constructor; assumption.
    + constructor; [|apply IH; exact Hnd].
      intros Hin. apply list_elem_of_fmap in Hin as ([k1 v1] & Hk1 & H1).
      simpl in Hk1. subst k1. apply set_elem in H1 as [H1|H1].
      * injection H1 as -> _. rewrite String.eqb_refl in E. discriminate.
      * apply Hk'. apply list_elem_of_fmap. exists (k', v1). auto.
Qed.

Lemma processNewPurchase_wf clock item w :
  wf w ->
  exists inventoryItem w',
    processNewPurchase clock item w = (inr inventoryItem, w')
    /\ InventoryItem.status inventoryItem = purchased
    /\ wf w'.
Proof.
  intros [Hkeys Hid]. eexists _, _.
  split.
  { unfold processNewPurchase, addToInventory, bind, now, setInventory,
      bucketPut, ret. simpl. reflexivity. }
  split; [reflexivity|]. split; simpl.
  - apply set_keys_NoDup. exact Hkeys.
  - intros k v H. apply set_elem in H as [H|H].
    + injection H as -> ->. reflexivity.
    + exact (Hid _ _ H).
Qed.

(** * Further properties *)

(** ** The scores as functions of the price *)

Import Scoring ScoringProps.

Lemma calculateMSRPScore_anchored current msrp :
  Valuation.calculateMSRPScore current msrp = anchored 0.5 0.5 current msrp.
Proof. reflexivity. Qed.

Lemma calculatePriceRatioScore_anchored current avg :
  calculatePriceRatioScore current avg = anchored 0.7 0.3 current avg.
Proof. reflexivity. Qed.

Lemma clamp_negative x : x <= 0 -> Valuation.clamp x == 0.
Proof.
  intros Hx. unfold Valuation.clamp, Math_max, Math_min.
  destruct (Qle_bool 100 x) eqn:E1; cmp_cases; [exfalso; lra|].
  destruct (Qle_bool 0 x) eqn:E2; cmp_cases; lra.
Qed.

Lemma anchored_range lo width current anchor :
  0 <= anchored lo width current anchor
  /\ anchored lo width current anchor <= 100.
Proof.
  unfold anchored.
  destruct (Qeq_bool anchor 0); [lra|].
  destruct (Qle_bool anchor current); [lra|].
  destruct (Qle_bool _ lo); [lra|]. apply clamp_bounds.
Qed.

(** Below a negative anchor the ratio exceeds 1. *)
Lemma ratio_negative_anchor (current anchor : Q) :
  anchor < 0 -> current < anchor -> 1 < current / anchor.
Proof.
  intros Ha Hc.
  assert (Hr : current / anchor == (- current) / (- anchor))
    by (field; lra).
  rewrite Hr. apply Qlt_shift_div_l; lra.
Qed.

Lemma anchored_negative_anchor lo width current anchor :
  0 < width -> lo + width == 1 -> anchor < 0 ->
  anchored lo width current anchor == 0.
Proof.
  intros Hw Hsum Ha. unfold anchored.
  destruct (Qeq_bool anchor 0); [reflexivity|].
  destruct (Qle_bool anchor current) eqn:E1; cmp_cases; [reflexivity|].
  pose proof (ratio_negative_anchor current anchor Ha E1) as Hr.
  destruct (Qle_bool _ lo) eqn:E2; cmp_cases; [exfalso; lra|].
  apply clamp_negative.
  set (r := current / anchor) in *.
  assert (H1 : 1 <= (r - lo) / width)
    by (apply Qle_shift_div_l; lra).
  lra.
Qed.

Lemma anchored_mono lo width anchor p q :
  0 < width -> lo + width == 1 -> p <= q ->
  anchored lo width q anchor <= anchored lo width p anchor.
Proof.
  intros Hw Hsum Hpq.
  destruct (Qlt_le_dec anchor 0) as [Hneg|Hnn].
  { rewrite !anchored_negative_anchor by assumption. lra. }
  pose proof (anchored_range lo width p anchor) as [Hp0 Hp1].
  unfold anchored in *.
  destruct (Qeq_bool anchor 0) eqn:E0; cmp_cases; [lra|].
  assert (Hpos : 0 < anchor).
  { destruct (Qlt_le_dec 0 anchor) as [H|H]; [exact H|].
    exfalso. apply E0. lra. }
  destruct (Qle_bool anchor q) eqn:Eq; cmp_cases; [exact Hp0|].
  destruct (Qle_bool anchor p) eqn:Ep; cmp_cases; [exfalso; lra|].
  assert (Hr : p / anchor <= q / anchor).
  { unfold Qdiv. apply Qmult_le_compat_r; [exact Hpq|].
    apply Qlt_le_weak, Qinv_lt_0_compat, Hpos. }
  destruct (Qle_bool (q / anchor) lo) eqn:Eq2; cmp_cases.
  - destruct (Qle_bool (p / anchor) lo) eqn:Ep2; cmp_cases;
      [lra|exfalso; lra].
  - destruct (Qle_bool (p / anchor) lo) eqn:Ep2; cmp_cases.
    + apply clamp_bounds.
    + apply clamp_mono.
      assert ((p / anchor - lo) / width <= (q / anchor - lo) / width).
      { unfold Qdiv at 1 3. apply Qmult_le_compat_r; [lra|].
        apply Qlt_le_weak, Qinv_lt_0_compat, Hw. }
      lra.
Qed.

Lemma historical_range current historical :
  0 <= Valuation.calculateHistoricalScore current historical
  /\ Valuation.calculateHistoricalScore current historical <= 100.
Proof.
  unfold Valuation.calculateHistoricalScore.
  destruct (Qeq_bool _ _); [lra|].
  destruct (Qle_bool current _); [lra|].
  destruct (Qle_bool _ current); [lra|]. apply clamp_bounds.
Qed.

Lemma historical_mono historical p q :
  p <= q ->
  Valuation.calculateHistoricalScore q historical
  <= Valuation.calculateHistoricalScore p historical.
Proof.
  intros Hpq.
  pose proof (historical_range p historical) as [Hp0 Hp1].
  pose proof (historical_range q historical) as [Hq0 Hq1].
  unfold Valuation.calculateHistoricalScore in *.
  destruct (Qeq_bool _ _); [lra|].
  destruct (Qle_bool p _) eqn:Ep; cmp_cases; [exact Hq1|].
  destruct (Qle_bool q _) eqn:Eq; cmp_cases; [exfalso; lra|].
  destruct (Qle_bool _ q) eqn:Eq2; cmp_cases; [exact Hp0|].
  destruct (Qle_bool _ p) eqn:Ep2; cmp_cases; [exfalso; lra|].
  apply clamp_mono, historical_line_mono; lra.
Qed.

Lemma scarcity_values title historical :
  calculateScarcityScore title historical = 100
  \/ calculateScarcityScore title historical = 50.
Proof.
  unfold calculateScarcityScore. destruct (existsb _ _); auto.
Qed.

Lemma anchored_between lo width price anchor :
  0 < width -> lo + width == 1 -> 0 <= lo ->
  0 < anchor -> lo * anchor < price -> price < anchor ->
  anchored lo width price anchor
  == 100 * (1 - (price / anchor - lo) / width).
Proof.
  intros Hw Hsum Hlo Ha Hlow Hhigh. unfold anchored.
  destruct (Qeq_bool anchor 0) eqn:E0; cmp_cases; [exfalso; lra|].
  destruct (Qle_bool anchor price) eqn:E1; cmp_cases; [exfalso; lra|].
  assert (H1 : lo < price / anchor) by (apply ratio_lt; assumption).
  assert (H2 : price / anchor < 1) by (apply Qlt_shift_div_r; lra).
  destruct (Qle_bool (price / anchor) lo) eqn:E2; cmp_cases;
    [exfalso; lra|].
  set (r := price / anchor) in *.
  assert (H3 : 0 <= (r - lo) / width) by (apply Qle_shift_div_l; lra).
  assert (H4 : (r - lo) / width <= 1) by (apply Qle_shift_div_r; lra).
  apply clamp_id; lra.
Qed.

(** X1.  The price-ratio score against an average that is not negative: 0
    for an average of 0; for a positive average 100 up to 70% of it, 0 from
    the average on, [100 * (1 - (price/avg - 0.7)/0.3)] in between; and a
    higher price never gets the higher score. *)
Theorem calculatePriceRatioScore_shape (price avg : Q) :
  0 <= avg ->
  (avg == 0 -> calculatePriceRatioScore price avg == 0)
  /\ (0 < avg -> price <= 0.7 * avg ->
      calculatePriceRatioScore price avg == 100)
  /\ (avg <= price -> calculatePriceRatioScore price avg == 0)
  /\ (0.7 * avg < price -> price < avg ->
      calculatePriceRatioScore price avg == ratioLine price avg)
  /\ (forall dearer,
         price <= dearer ->
         calculatePriceRatioScore dearer avg
         <= calculatePriceRatioScore price avg).
Proof.
  intros Hnn. split; [|split; [|split; [|split]]].
  - intros H0. unfold calculatePriceRatioScore.
    destruct (Qeq_bool avg 0) eqn:E0; cmp_cases;
      [reflexivity|contradiction].
  - intros Ha Hlow. unfold calculatePriceRatioScore.
    destruct (Qeq_bool avg 0) eqn:E0; cmp_cases; [exfalso; lra|].
    destruct (Qle_bool avg price) eqn:E1; cmp_cases; [exfalso; lra|].
    destruct (Qle_bool (price / avg) 0.7) eqn:E2; cmp_cases; [reflexivity|].
    exfalso. apply ratio_lt in E2; lra.
  - intros Hge. unfold calculatePriceRatioScore.
    destruct (Qeq_bool avg 0); [reflexivity|].
    destruct (Qle_bool avg price) eqn:E1; cmp_cases;
      [reflexivity|exfalso; lra].
  - intros Hlow Hhigh. rewrite calculatePriceRatioScore_anchored.
    unfold ratioLine. apply anchored_between; lra.
  - intros dearer Hle. rewrite !calculatePriceRatioScore_anchored.
    apply anchored_mono; [lra|reflexivity|exact Hle].
Qed.

(** [calculatePriceRatioScore_shape] at work on the iPhone average of 650:
    a price of 400 is below 70% of it. *)
Lemma calculatePriceRatioScore_shape_witness :
  calculatePriceRatioScore 400 650 == 100.
Proof.
  exact (proj1 (proj2 (calculatePriceRatioScore_shape 400 650
                         ltac:(vm_compute; congruence)))
           ltac:(vm_compute; reflexivity) ltac:(vm_compute; congruence)).
Defined.

(** At 85% of the average the line passes through 50.  The code, which
    computes it on binary64 numbers, returns a score just below 50 for a
    price of 85 against an average of 100. *)
Example ratio_score_at_85_percent :
  calculatePriceRatioScore 85 100 == 50
  /\ Binary64.ltb
       (Binary64.calculatePriceRatioScore (Binary64.ofZ 85)
          (Binary64.ofZ 100))
       (Binary64.ofZ 50) = true
  /\ Binary64.ltb (Binary64.decimal 49999999999999 12)
       (Binary64.calculatePriceRatioScore (Binary64.ofZ 85)
          (Binary64.ofZ 100)) = true.
Proof. vm_compute. repeat split; reflexivity. Qed.

(** X2.  Whatever the price, the title and the reference figures (negative
    or inverted ones included), each of the four scores lies between 0 and
    100, and so does their weighted total. *)
Theorem scores_within_range (price : Q) (title : string)
    (historical : HistoricalData.t) :
  (0 <= Valuation.calculateHistoricalScore price historical <= 100)
  /\ (0 <= Valuation.calculateMSRPScore price (HistoricalData.msrp historical)
      <= 100)
  /\ (0 <= calculateScarcityScore title historical <= 100)
  /\ (0 <= calculatePriceRatioScore price (HistoricalData.avg historical)
      <= 100)
  /\ (0 <= totalScoreOf price title historical <= 100).
Proof.
  pose proof (historical_range price historical) as Hh.
  pose proof (anchored_range 0.5 0.5 price (HistoricalData.msrp historical))
    as Hm.
  pose proof (anchored_range 0.7 0.3 price (HistoricalData.avg historical))
    as Hr.
  rewrite <- calculateMSRPScore_anchored in Hm.
  rewrite <- calculatePriceRatioScore_anchored in Hr.
  assert (Hs : 0 <= calculateScarcityScore title historical <= 100)
    by (destruct (scarcity_values title historical) as [-> | ->]; lra).
  repeat (split; [tauto|]).
  unfold totalScoreOf, WEIGHT_HISTORICAL, WEIGHT_MSRP, WEIGHT_SCARCITY,
    WEIGHT_RATIO.
  lra.
Qed.

Lemma msrp_mono msrp p q :
  p <= q ->
  Valuation.calculateMSRPScore q msrp <= Valuation.calculateMSRPScore p msrp.
Proof.
  intros Hpq. rewrite !calculateMSRPScore_anchored.
  apply anchored_mono; [lra|reflexivity|exact Hpq].
Qed.

Lemma priceRatio_mono avg p q :
  p <= q -> calculatePriceRatioScore q avg <= calculatePriceRatioScore p avg.
Proof.
  intros Hpq. rewrite !calculatePriceRatioScore_anchored.
  apply anchored_mono; [lra|reflexivity|exact Hpq].
Qed.

Lemma evaluateWith_score listing historical :
  EvaluatedListing.score (evaluateWith listing historical)
  = totalScoreOf (Listing.price listing) (Listing.title listing) historical.
Proof. reflexivity. Qed.

(** X3.  Of two listings with the same title, evaluated against the same
    reference figures, the dearer one never gets the higher total score. *)
Theorem dearer_never_scores_higher (cheap dear : Listing.t)
    (historical : HistoricalData.t) :
  Listing.title cheap = Listing.title dear ->
  Listing.price cheap <= Listing.price dear ->
  EvaluatedListing.score (evaluateWith dear historical)
  <= EvaluatedListing.score (evaluateWith cheap historical).
Proof.
  intros Htitle Hprice. rewrite !evaluateWith_score, Htitle.
  unfold totalScoreOf.
  pose proof (historical_mono historical _ _ Hprice) as Hh.
  pose proof (msrp_mono (HistoricalData.msrp historical) _ _ Hprice) as Hm.
  pose proof (priceRatio_mono (HistoricalData.avg historical) _ _ Hprice)
    as Hr.
  unfold WEIGHT_HISTORICAL, WEIGHT_MSRP, WEIGHT_SCARCITY, WEIGHT_RATIO.
  lra.
Qed.

(** [dearer_never_scores_higher] at work: the same phone at 500 and 700. *)
Lemma dearer_never_scores_higher_witness :
  EvaluatedListing.score
    (evaluateWith (sampleOffer "b" "iPhone 13" 700)
       (HistoricalData.mk 650 400 1200 999))
  <= EvaluatedListing.score
       (evaluateWith (sampleOffer "a" "iPhone 13" 500)
          (HistoricalData.mk 650 400 1200 999)).
Proof.
  exact (dearer_never_scores_higher (sampleOffer "a" "iPhone 13" 500)
           (sampleOffer "b" "iPhone 13" 700)
           (HistoricalData.mk 650 400 1200 999) eq_refl
           ltac:(vm_compute; congruence)).
Defined.

(** ** Lower case and occurrences *)

Lemma lower_char_idem (c : ascii) :
  Valuation.lower_char (Valuation.lower_char c) = Valuation.lower_char c.
Proof. destruct c as [[] [] [] [] [] [] [] []]; reflexivity. Qed.

Lemma toLowerCase_idem (s : string) :
  Valuation.toLowerCase (Valuation.toLowerCase s) = Valuation.toLowerCase s.
Proof.
  induction s as [|c s IH]; simpl; [reflexivity|].
  rewrite lower_char_idem, IH. reflexivity.
Qed.

Lemma toLowerCase_app (s t : string) :
  Valuation.toLowerCase (s +:+ t)
  = Valuation.toLowerCase s +:+ Valuation.toLowerCase t.
Proof.
  induction s as [|c s IH]; [reflexivity|].
  change (String (Valuation.lower_char c) (Valuation.toLowerCase (s +:+ t))
          = String (Valuation.lower_char c)
              (Valuation.toLowerCase s +:+ Valuation.toLowerCase t)).
  rewrite IH. reflexivity.
Qed.

Lemma string_app_assoc (a b c : string) : (a +:+ b) +:+ c = a +:+ (b +:+ c).
Proof.
  induction a as [|x a IH]; [reflexivity|].
  change (String x ((a +:+ b) +:+ c) = String x (a +:+ (b +:+ c))).
  rewrite IH. reflexivity.
Qed.

Lemma occurs_in_app (sub s pre post : string) :
  occurs_in sub s -> occurs_in sub (pre +:+ s +:+ post).
Proof.
  intros (a & b & ->). exists (pre +:+ a), (b +:+ post).
  rewrite !string_app_assoc. reflexivity.
Qed.

Lemma scarcity_100_iff title historical :
  calculateScarcityScore title historical = 100
  <-> exists k, k ∈ SCARCITY_KEYWORDS
                /\ occurs_in k (Valuation.toLowerCase title).
Proof.
  unfold calculateScarcityScore.
  destruct (existsb _ SCARCITY_KEYWORDS) eqn:E.
  - apply existsb_exists in E as (k & Hk & Hinc).
    split; [|reflexivity]. intros _. exists k.
    split; [apply list_elem_of_In, Hk|apply includes_iff, Hinc].
  - split; [discriminate|]. intros (k & Hk & Hocc). exfalso.
    assert (existsb (fun keyword =>
                       Valuation.includes (Valuation.toLowerCase title) keyword)
              SCARCITY_KEYWORDS = true); [|congruence].
    apply existsb_exists. exists k.
    split; [apply list_elem_of_In, Hk|apply includes_iff, Hocc].
Qed.

(** X4.  The scarcity score is 100 exactly when one of the keywords
    limited, rare, discontinued, pro, max, ultra occurs somewhere in the
    lowercased title (inside a longer word too), and 50 otherwise; it does
    not depend on the case of the title, and putting more text in front of
    or behind a title never lowers it. *)
Theorem calculateScarcityScore_rules (title : string)
    (historical : HistoricalData.t) :
  (calculateScarcityScore title historical = 100
   <-> exists k, k ∈ SCARCITY_KEYWORDS
                 /\ occurs_in k (Valuation.toLowerCase title))
  /\ (calculateScarcityScore title historical = 50
      <-> ~ exists k, k ∈ SCARCITY_KEYWORDS
                      /\ occurs_in k (Valuation.toLowerCase title))
  /\ calculateScarcityScore (Valuation.toLowerCase title) historical
     = calculateScarcityScore title historical
  /\ (forall pre post,
         calculateScarcityScore title historical
         <= calculateScarcityScore (pre +:+ title +:+ post) historical).
Proof.
  split; [apply scarcity_100_iff|]. split; [|split].
  - rewrite <- (scarcity_100_iff title historical).
    destruct (scarcity_values title historical) as [-> | ->]; split.
    + discriminate.
    + intros H. exfalso. apply H. reflexivity.
    + intros _ H. discriminate H.
    + reflexivity.
  - unfold calculateScarcityScore. rewrite toLowerCase_idem. reflexivity.
  - intros pre post.
    destruct (scarcity_values title historical) as [H|H]; rewrite H.
    + apply scarcity_100_iff in H as (k & Hk & Hocc).
      assert (H100 : calculateScarcityScore (pre +:+ title +:+ post)
                       historical = 100).
      { apply scarcity_100_iff. exists k. split; [exact Hk|].
        rewrite !toLowerCase_app. apply occurs_in_app, Hocc. }
      rewrite H100. lra.
    + destruct (scarcity_values (pre +:+ title +:+ post) historical)
        as [-> | ->]; lra.
Qed.

Example scarcity_inside_a_word :
  calculateScarcityScore "Product manual" (HistoricalData.mk 500 300 800 699)
  = 100.
Proof. reflexivity. Qed.

(** ** Valuation and decision together *)

Lemma evaluateOpportunity_buy_iff now item state :
  EvaluatedListing.id item ∉ purchasedIds state ->
  0 < budget state ->
  EvaluatedListing.price item <= budget state ->
  (Decision.action (evaluateOpportunity now item state) = BUY
   <-> DecisionModel.MIN_PROFIT_MARGIN <= EvaluatedListing.profit_margin item
       /\ DecisionModel.MIN_PROFIT <= EvaluatedListing.profit_potential item).
Proof.
  intros Hnew Hpos Hle. split.
  - intros Hbuy. apply buy_inv in Hbuy. tauto.
  - intros [Hm Hp]. unfold evaluateOpportunity, decision_of.
    apply hasPurchased_false in Hnew. rewrite Hnew.
    assert (Hv : validateBudget (EvaluatedListing.price item) (budget state)
                 = true) by (apply validateBudget_iff; split; assumption).
    rewrite Hv. simpl.
    destruct (Qlt_bool (EvaluatedListing.profit_margin item) _) eqn:E1;
      cmp_cases; [exfalso; lra|].
    destruct (Qlt_bool (EvaluatedListing.profit_potential item) _) eqn:E2;
      cmp_cases; [exfalso; lra|].
    reflexivity.
Qed.

(** X5.  The valuation and the decision engine use the same two profit
    thresholds: a listing with a positive price that can be afforded and
    has not been purchased is flagged undervalued exactly when the engine
    buys it and its total score is at least 60.  So every flagged listing
    is bought, and the engine also buys listings that score lower. *)
Theorem undervalued_iff_bought_and_scored (listing : Listing.t)
    (historical : HistoricalData.t) (now : string)
    (state : DecisionActorState) :
  let e := evaluateWith listing historical in
  0 < Listing.price listing ->
  Listing.id listing ∉ purchasedIds state ->
  0 < budget state ->
  Listing.price listing <= budget state ->
  (EvaluatedListing.is_undervalued e = true
   <-> 60 <= EvaluatedListing.score e
       /\ Decision.action (evaluateOpportunity now e state) = BUY).
Proof.
  cbv zeta. intros _ Hnew Hpos Hle.
  rewrite (evaluateOpportunity_buy_iff now (evaluateWith listing historical)
             state Hnew Hpos Hle).
  unfold evaluateWith. cbn [EvaluatedListing.is_undervalued
    EvaluatedListing.score EvaluatedListing.profit_margin
    EvaluatedListing.profit_potential].
  rewrite !andb_true_iff, !Qle_bool_iff.
  unfold HistoricalPrices.MIN_PROFIT_MARGIN, HistoricalPrices.MIN_PROFIT,
    DecisionModel.MIN_PROFIT_MARGIN, DecisionModel.MIN_PROFIT.
  tauto.
Qed.

(** [undervalued_iff_bought_and_scored] at work: the iPhone at 400 of the
    end-to-end scenario is flagged, hence bought from the initial state. *)
Lemma undervalued_iff_bought_and_scored_witness :
  Decision.action
    (evaluateOpportunity "t"
       (evaluateWith (sampleOffer "iphone-1" "iPhone 15 Pro" 400)
          (HistoricalData.mk 650 400 1200 999))
       createInitialState) = BUY.
Proof.
  exact (proj2 (proj1 (undervalued_iff_bought_and_scored
                         (sampleOffer "iphone-1" "iPhone 15 Pro" 400)
                         (HistoricalData.mk 650 400 1200 999) "t"
                         createInitialState
                         ltac:(vm_compute; reflexivity)
                         ltac:(simpl; set_solver)
                         ltac:(vm_compute; reflexivity)
                         ltac:(vm_compute; congruence))
                  ltac:(vm_compute; reflexivity))).
Defined.

Example end_to_end_iphone :
  let e := evaluateWith (sampleOffer "iphone-1" "iPhone 15 Pro" 400)
             (HistoricalData.mk 650 400 1200 999) in
  EvaluatedListing.score e == 100
  /\ EvaluatedListing.estimated_resale e == 650
  /\ EvaluatedListing.profit_potential e == 250
  /\ EvaluatedListing.profit_margin e == 0.625
  /\ EvaluatedListing.is_undervalued e = true
  /\ EvaluatedListing.reasoning e
     = "Item is undervalued with score 100.0, margin 62.5%, profit $250.00"%string.
Proof. vm_compute. repeat split. Qed.

(** The engine does not read the score: a listing that scores below 60, and
    so is not flagged, is bought all the same when its profit is good. *)
Example bought_though_not_flagged :
  let e := evaluateWith (sampleOffer "x" "Bicycle" 480)
             (HistoricalData.mk 650 100 500 400) in
  EvaluatedListing.score e < 60
  /\ EvaluatedListing.is_undervalued e = false
  /\ Decision.action (evaluateOpportunity "t" e createInitialState) = BUY.
Proof. vm_compute. repeat split. Qed.

(** ** The batch evaluation and its sort *)

Lemma insertSorted_perm {A} (compare : A -> A -> Q) x l :
  insertSorted compare x l ≡ₚ x :: l.
Proof.
  induction l as [|y l IH]; simpl; [reflexivity|].
  destruct (Qlt_bool 0 (compare x y)); [|reflexivity].
  rewrite IH. apply Permutation_swap.
Qed.

Lemma sort_perm {A} (compare : A -> A -> Q) l : sort compare l ≡ₚ l.
Proof.
  induction l as [|x l IH]; simpl; [reflexivity|].
  rewrite insertSorted_perm, IH. reflexivity.
Qed.

Lemma insertSorted_descending x l :
  descending l -> descending (insertSorted byScoreDescending x l).
Proof.
  induction l as [|y l IH]; simpl.
  - intros _. split; [constructor|exact I].
  - intros [Hall Hdesc].
    destruct (Qlt_bool 0 (byScoreDescending x y)) eqn:E; cmp_cases;
      unfold byScoreDescending in E; simpl.
    + split; [|apply IH, Hdesc].
      rewrite insertSorted_perm. constructor; [lra|exact Hall].
    + split; [|split; assumption].
      constructor; [lra|].
      eapply Forall_impl; [exact Hall|]. intros z Hz. simpl in Hz. lra.
Qed.

Lemma sort_descending l : descending (sort byScoreDescending l).
Proof.
  induction l as [|x l IH]; simpl; [exact I|].
  apply insertSorted_descending, IH.
Qed.

Lemma withScore_insertSorted s x l :
  withScore s (insertSorted byScoreDescending x l) = withScore s (x :: l).
Proof.
  unfold withScore. induction l as [|y l IH]; [reflexivity|].
  simpl insertSorted.
  destruct (Qlt_bool 0 (byScoreDescending x y)) eqn:E; [|reflexivity].
  cmp_cases. unfold byScoreDescending in E.
  simpl List.filter in *. rewrite IH.
  destruct (Qeq_bool (EvaluatedListing.score x) s) eqn:Ex;
    destruct (Qeq_bool (EvaluatedListing.score y) s) eqn:Ey;
    try reflexivity.
  cmp_cases. exfalso. lra.
Qed.

Lemma withScore_sort s l :
  withScore s (sort byScoreDescending l) = withScore s l.
Proof.
  induction l as [|x l IH]; [reflexivity|].
  simpl sort. rewrite withScore_insertSorted.
  unfold withScore in *. simpl. rewrite IH. reflexivity.
Qed.

Lemma evaluateAll_each listings es :
  evaluateAll listings = Some es ->
  Forall2 (fun l e => evaluateSingleListing l = Some e) listings es.
Proof.
  revert es. induction listings as [|l listings IH]; simpl; intros es H.
  - injection H as <-. constructor.
  - destruct (evaluateSingleListing l) as [e|] eqn:El; [|discriminate].
    destruct (evaluateAll listings) as [es'|]; [|discriminate].
    injection H as <-. constructor; [exact El|]. apply IH. reflexivity.
Qed.

Lemma evaluable_evaluated l :
  evaluable l -> exists e, evaluateSingleListing l = Some e.
Proof.
  intros [_ Hkey]. unfold evaluateSingleListing,
    HistoricalPrices.getHistoricalPrices, HistoricalPrices.tableGet.
  destruct (JsMap.get _ HistoricalPrices.MOCK_HISTORICAL_DATA);
    [eexists; reflexivity|].
  rewrite bool_decide_eq_false_2 by exact Hkey. eexists; reflexivity.
Qed.

Lemma evaluateAll_evaluable listings :
  Forall evaluable listings -> exists es, evaluateAll listings = Some es.
Proof.
  induction 1 as [|l listings Hl _ [es IH]]; [exists []; reflexivity|].
  destruct (evaluable_evaluated l Hl) as [e He].
  exists (e :: es). simpl. rewrite He, IH. reflexivity.
Qed.

(** X6.  For a batch of listings with positive prices, none of whose
    titles is keyed to an inherited property of the reference table, the
    batch evaluation returns; its result holds exactly the evaluations of
    the listings given, one for each, arranged by total score from the
    highest down, with listings of equal score in the order in which they
    were given.  An empty batch gives an empty result. *)
Theorem evaluateListings_sorted (listings : list Listing.t) :
  Forall evaluable listings ->
  exists out es,
    evaluateListings listings = Some out
    /\ Forall2 (fun l e => evaluateSingleListing l = Some e) listings es
    /\ out ≡ₚ es
    /\ descending out
    /\ (forall s, withScore s out = withScore s es)
    /\ length out = length listings
    /\ (listings = [] -> out = []).
Proof.
  intros Hall. unfold evaluateListings.
  destruct listings as [|l listings].
  { exists [], []. repeat split; try reflexivity; constructor. }
  simpl Nat.eqb. cbv iota.
  destruct (evaluateAll_evaluable _ Hall) as [es E]. rewrite E.
  exists (sort byScoreDescending es), es.
  pose proof (evaluateAll_each _ _ E) as Heach.
  split; [reflexivity|].
  split; [exact Heach|]. split; [apply sort_perm|].
  split; [apply sort_descending|]. split; [intros s; apply withScore_sort|].
  split; [|discriminate].
  rewrite (Permutation_length (sort_perm byScoreDescending es)).
  symmetry. exact (Forall2_length _ _ _ Heach).
Qed.

(** [evaluateListings_sorted] at work: three offers, the dearest first. *)
Lemma evaluateListings_sorted_witness :
  exists out,
    evaluateListings [sampleOffer "a" "iPhone 12" 900;
                      sampleOffer "b" "iPhone 13 Pro" 400;
                      sampleOffer "c" "Desk lamp" 350] = Some out
    /\ descending out.
Proof.
  destruct (evaluateListings_sorted
              [sampleOffer "a" "iPhone 12" 900;
               sampleOffer "b" "iPhone 13 Pro" 400;
               sampleOffer "c" "Desk lamp" 350])
    as (out & es & Hout & _ & _ & Hdesc & _).
  - repeat constructor; try (vm_compute; congruence);
      vm_compute; set_solver.
  - exists out. split; [exact Hout|exact Hdesc].
Defined.

(** A title keyed to an inherited property is outside what is proved: the
    lookup returns an object without price figures. *)
Example constructor_playset_not_evaluable :
  evaluateSingleListing (sampleOffer "c" "Constructor playset" 30) = None
  /\ ~ evaluable (sampleOffer "c" "Constructor playset" 30).
Proof.
  split; [reflexivity|]. intros [_ H]. apply H. vm_compute. set_solver.
Qed.

Example evaluateListings_order :
  match evaluateListings [sampleOffer "a" "iPhone 12" 900;
                          sampleOffer "b" "iPhone 13 Pro" 400;
                          sampleOffer "c" "Desk lamp" 350] with
  | Some out => EvaluatedListing.id <$> out = ["b"; "c"; "a"]%string
  | None => False
  end.
Proof. vm_compute. reflexivity. Qed.

(** ** Reference prices for a title *)

Import HistoricalPrices.

Lemma includes_dash_cons (c : ascii) (s : string) :
  Valuation.includes (String c s) "-" = false ->
  c <> "-"%char /\ Valuation.includes s "-" = false.
Proof.
  rewrite includes_cons. intros H. apply orb_false_iff in H as [H1 H2].
  split; [|exact H2]. intros ->. simpl in H1.
  destruct (ascii_dec "-" "-") as [_|Hne]; [|contradiction].
  destruct s; discriminate H1.
Qed.

(** A key that comes out of [hyphenate] without a hyphen went in without
    white space, and comes out as it went in. *)
Lemma hyphenate_no_dash (s : string) :
  Valuation.includes (hyphenate false s) "-" = false ->
  hyphenate false s = s.
Proof.
  induction s as [|c s IH]; [reflexivity|]. simpl hyphenate.
  destruct (isWhitespace c).
  - intros H. apply includes_dash_cons in H as [H _]. contradiction.
  - intros H. apply includes_dash_cons in H as [_ H]. rewrite (IH H).
    reflexivity.
Qed.

Lemma trimStart_suffix (s : string) : exists pre, s = pre +:+ trimStart s.
Proof.
  induction s as [|c s (pre & IH)].
  - exists ""%string. reflexivity.
  - simpl trimStart. destruct (isWhitespace c).
    + exists (String c pre).
      change (String c s = String c (pre +:+ trimStart s)).
      f_equal. exact IH.
    + exists ""%string. reflexivity.
Qed.

Lemma trimEnd_prefix (s : string) : exists post, s = trimEnd s +:+ post.
Proof.
  induction s as [|c s (post & IH)].
  - exists ""%string. reflexivity.
  - simpl trimEnd. destruct (trimEnd s) as [|d t] eqn:E.
    + destruct (isWhitespace c).
      * exists (String c s). reflexivity.
      * exists s. reflexivity.
    + exists post.
      change (String c s = String c (String d t +:+ post)).
      f_equal. exact IH.
Qed.

Lemma trim_occurs (s : string) : occurs_in (trim s) s.
Proof.
  unfold trim. destruct (trimStart_suffix s) as (pre & Hpre).
  destruct (trimEnd_prefix (trimStart s)) as (post & Hpost).
  exists pre, post. rewrite <- Hpost. exact Hpre.
Qed.

Lemma keyword_cases (k : string) :
  k ∈ KNOWN_PRODUCTS ->
  k = "iphone"%string \/ k = "macbook"%string \/ k = "ps5"%string
  \/ k = "laptop"%string \/ k = "tv"%string.
Proof.
  unfold KNOWN_PRODUCTS. intros H.
  repeat (apply elem_of_cons in H as [H|H]; [tauto|]).
  apply elem_of_nil in H. contradiction.
Qed.

Lemma get_some_key {V} (k : string) (v : V) (m : list (string * V)) :
  JsMap.get k m = Some v -> k ∈ JsMap.keys m.
Proof.
  unfold JsMap.keys. induction m as [|[k' v'] m IH]; [discriminate|].
  cbn [JsMap.get]. rewrite fmap_cons.
  destruct (String.eqb k' k) eqn:E.
  - apply String.eqb_eq in E as ->. intros _. left.
  - intros H. right. apply IH, H.
Qed.

Lemma table_key_known (k : string) (h : HistoricalData.t) :
  JsMap.get k MOCK_HISTORICAL_DATA = Some h -> k ∈ KNOWN_PRODUCTS.
Proof. apply get_some_key. Qed.

Lemma keyword_reference (k : string) :
  k ∈ KNOWN_PRODUCTS ->
  getHistoricalPrices k = JsMap.get k MOCK_HISTORICAL_DATA
  /\ is_Some (getHistoricalPrices k).
Proof.
  intros H. apply keyword_cases in H.
  destruct H as [-> | [-> | [-> | [-> | ->]]]];
    (split; [reflexivity|eexists; reflexivity]).
Qed.

(** A key that normalizes to a product keyword has that keyword in its
    lower case. *)
Lemma normalized_keyword_occurs (key k : string) :
  k ∈ KNOWN_PRODUCTS -> normalizeProductKey key = k ->
  occurs_in k (Valuation.toLowerCase key).
Proof.
  intros Hk Hnorm. unfold normalizeProductKey in Hnorm.
  assert (Hdash : Valuation.includes k "-" = false).
  { apply keyword_cases in Hk.
    destruct Hk as [-> | [-> | [-> | [-> | ->]]]]; reflexivity. }
  rewrite <- Hnorm in Hdash. apply hyphenate_no_dash in Hdash.
  rewrite Hdash in Hnorm. rewrite <- Hnorm. apply trim_occurs.
Qed.

Lemma find_none_elem {A} (P : A -> bool) (l : list A) x :
  List.find P l = None -> x ∈ l -> P x = false.
Proof.
  intros H Hx. apply list_elem_of_In in Hx.
  exact (List.find_none P l H x Hx).
Qed.

Lemma find_some_elem {A} (P : A -> bool) (l : list A) x :
  List.find P l = Some x -> x ∈ l.
Proof.
  intros H. apply List.find_some in H as [H _].
  apply list_elem_of_In. exact H.
Qed.

(** The fallback key of a title without keyword does not normalize to a
    name of the table. *)
Lemma fallback_not_in_table (title : string) :
  List.find (Valuation.includes (Valuation.toLowerCase title))
    KNOWN_PRODUCTS = None ->
  JsMap.get (normalizeProductKey (Valuation.extractProductKey title))
    MOCK_HISTORICAL_DATA = None.
Proof.
  intros Hnone.
  destruct (JsMap.get _ MOCK_HISTORICAL_DATA) as [h|] eqn:Hget;
    [|reflexivity].
  exfalso. apply table_key_known in Hget.
  pose proof (normalized_keyword_occurs _ _ Hget eq_refl) as Hocc.
  set (k := normalizeProductKey (Valuation.extractProductKey title)) in *.
  pose proof (find_none_elem _ _ k Hnone Hget) as Hk.
  apply includes_false in Hk.
  rewrite extractProductKey_find, Hnone in Hocc.
  destruct (split_head title) as (w & ws & Hs & _ & Hw).
  rewrite Hs in Hocc. destruct w as [|c w]; cbn [head] in Hocc.
  - apply includes_iff in Hocc. apply keyword_cases in Hget.
    destruct Hget as [E | [E | [E | [E | E]]]]; rewrite E in Hocc;
      discriminate Hocc.
  - rewrite toLowerCase_idem in Hocc. apply Hk.
    destruct Hw as [-> | [rest ->]]; [exact Hocc|].
    rewrite toLowerCase_app.
    destruct Hocc as (a & b & Hab). rewrite Hab.
    exists a, (b +:+ Valuation.toLowerCase (" " +:+ rest)).
    rewrite !string_app_assoc. reflexivity.
Qed.

(** X7.  The reference figures looked up for a listing title: when a
    product keyword occurs in the lowercased title, the table entry of the
    first such keyword in check order (iphone, macbook, ps5, laptop, tv);
    otherwise the default figures, unless the normalized fallback key is
    [constructor] or [__proto__], for which the lookup yields an inherited
    property of the table object and no price data. *)
Theorem reference_for_title (title : string) :
  let key := Valuation.extractProductKey title in
  match List.find (Valuation.includes (Valuation.toLowerCase title))
          KNOWN_PRODUCTS with
  | Some kw =>
      key = kw
      /\ getHistoricalPrices key = JsMap.get kw MOCK_HISTORICAL_DATA
      /\ is_Some (getHistoricalPrices key)
  | None =>
      getHistoricalPrices key
      = if bool_decide (normalizeProductKey key ∈ INHERITED_LOWERCASE)
        then None
        else Some DEFAULT_HISTORICAL_DATA
  end.
Proof.
  cbv zeta.
  destruct (List.find _ KNOWN_PRODUCTS) as [kw|] eqn:Hfind.
  - assert (Hkey : Valuation.extractProductKey title = kw)
      by (rewrite extractProductKey_find, Hfind; reflexivity).
    rewrite Hkey. split; [reflexivity|].
    apply keyword_reference. exact (find_some_elem _ _ _ Hfind).
  - pose proof (fallback_not_in_table title Hfind) as Hget.
    unfold getHistoricalPrices, tableGet. rewrite Hget.
    destruct (bool_decide _); reflexivity.
Qed.

Example reference_first_keyword :
  getHistoricalPrices (Valuation.extractProductKey "TV stand for Laptop")
  = Some (HistoricalData.mk 700 400 1200 999).
Proof. reflexivity. Qed.

Example reference_defaults :
  getHistoricalPrices (Valuation.extractProductKey "Vintage Coffee Table")
  = Some DEFAULT_HISTORICAL_DATA.
Proof. reflexivity. Qed.

Example reference_inherited_name :
  Valuation.extractProductKey "Constructor playset" = "constructor"%string
  /\ getHistoricalPrices (Valuation.extractProductKey "Constructor playset")
     = None
  /\ evaluateSingleListing (sampleOffer "c" "Constructor playset" 100) = None.
Proof. repeat split. Qed.

(** ** Batches: alignment, bookkeeping, hand-over to the ledger *)

Import BatchProps.

Lemma decideAll_aligned clock evaluated :
  forall n state,
    Forall2 (fun item d => echoes d item) evaluated
      (fst (decideAll clock n evaluated state)).
Proof.
  induction evaluated as [|item rest IH]; intros n state.
  - constructor.
  - rewrite decideAll_cons. simpl fst. constructor; [|apply IH].
    apply evaluateOpportunity_echoes.
Qed.

Lemma decideAll_timestamps clock evaluated :
  forall n state i d,
    fst (decideAll clock n evaluated state) !! i = Some d ->
    Decision.timestamp d = clock (n + i)%nat.
Proof.
  induction evaluated as [|item rest IH]; intros n state i d.
  - simpl. rewrite lookup_nil. discriminate.
  - rewrite decideAll_cons. simpl fst. destruct i as [|i]; simpl.
    + intros H. injection H as <-. rewrite Nat.add_0_r.
      apply evaluateOpportunity_echoes.
    + intros H. rewrite (IH _ _ _ _ H). f_equal. lia.
Qed.

(** X8.  A batch yields one decision per listing, in the order of the
    listings: the decision at each position repeats the id, title, price,
    score and profit of the listing at that position and carries the clock
    reading taken for it.  This holds for the controller's [makeDecisions]
    whatever state it runs on. *)
Theorem one_decision_per_listing clock evaluated B existingState :
  let ds := fst (makeDecisions clock evaluated B existingState) in
  length ds = length evaluated
  /\ Forall2 (fun item d => echoes d item) evaluated ds
  /\ (forall i d, ds !! i = Some d -> Decision.timestamp d = clock i).
Proof.
  cbv zeta. unfold makeDecisions.
  set (state := match existingState with Some s => s | None => _ end).
  pose proof (decideAll_aligned clock evaluated 0 state) as H.
  split; [symmetry; exact (Forall2_length _ _ _ H)|].
  split; [exact H|].
  intros i d Hd. exact (decideAll_timestamps clock evaluated 0 state i d Hd).
Qed.

Lemma applyDecision_buy_stats now item state :
  Decision.action (evaluateOpportunity now item state) = BUY ->
  let s := stats state in
  let s' := stats (applyDecision item (evaluateOpportunity now item state)
                     state) in
  AgentStats.items_purchased s' = AgentStats.items_purchased s + 1
  /\ AgentStats.total_invested s'
     = AgentStats.total_invested s + EvaluatedListing.price item
  /\ AgentStats.expected_profit s'
     = AgentStats.expected_profit s + EvaluatedListing.profit_potential item
  /\ AgentStats.potential_revenue s'
     = AgentStats.potential_revenue s
       + (EvaluatedListing.price item
          + EvaluatedListing.profit_potential item)
  /\ AgentStats.listings_scanned s' = AgentStats.listings_scanned s
  /\ AgentStats.items_listed s' = AgentStats.items_listed s.
Proof.
  intros Hbuy. cbv zeta. unfold applyDecision, updateStats. rewrite Hbuy.
  simpl.
  destruct (evaluateOpportunity_echoes now item state)
    as [(_ & _ & Hp & _ & Hq) _].
  rewrite Hp, Hq. repeat split.
Qed.

Lemma decideAll_bookkeeping clock evaluated :
  forall n state,
    let ds := fst (decideAll clock n evaluated state) in
    let s := stats state in
    let s' := stats (snd (decideAll clock n evaluated state)) in
    AgentStats.items_purchased s'
    == AgentStats.items_purchased s + inject_Z (Z.of_nat (length (buys ds)))
    /\ AgentStats.listings_scanned s' = AgentStats.listings_scanned s
    /\ AgentStats.items_listed s' = AgentStats.items_listed s.
Proof.
  induction evaluated as [|item rest IH]; intros n state; cbv zeta.
  { simpl. unfold inject_Z. simpl. change (Z.of_nat 0 # 1) with 0.
    repeat split; try reflexivity; lra. }
  rewrite decideAll_cons. simpl fst. simpl snd.
  set (d := evaluateOpportunity (clock n) item state).
  specialize (IH (S n) (applyDecision item d state)). cbv zeta in IH.
  destruct IH as (Hi & Hs & Hl).
  destruct (Decision.action d) eqn:Ha.
  - pose proof (applyDecision_buy_stats _ _ _ Ha) as H. cbv zeta in H.
    fold d in H. destruct H as (Hi1 & _ & _ & _ & Hs1 & Hl1).
    rewrite buys_cons. destruct (decide _); [|contradiction].
    rewrite Hi1 in Hi. rewrite Hs1 in Hs. rewrite Hl1 in Hl.
    change (length (d :: buys (fst (decideAll clock (S n) rest
                                      (applyDecision item d state)))))
      with (S (length (buys (fst (decideAll clock (S n) rest
                                    (applyDecision item d state)))))).
    rewrite Nat2Z.inj_succ. unfold Z.succ. rewrite inject_Z_plus.
    repeat split; try assumption.
    rewrite Hi. change (inject_Z 1) with 1. lra.
  - rewrite (applyDecision_skip _ _ _ Ha) in *.
    rewrite buys_cons. destruct (decide _) as [E|_]; [congruence|].
    repeat split; assumption.
Qed.

(** The budget and the running sums after the loop: the figures of the
    BUY decisions applied one after the other, in batch order. *)
Lemma decideAll_accumulates clock evaluated :
  forall n state,
    let ds := fst (decideAll clock n evaluated state) in
    let final := snd (decideAll clock n evaluated state) in
    budget final
    = foldl (fun b d => b - Decision.price d) (budget state) (buys ds)
    /\ AgentStats.total_invested (stats final)
       = foldl (fun t d => t + Decision.price d)
           (AgentStats.total_invested (stats state)) (buys ds)
    /\ AgentStats.expected_profit (stats final)
       = foldl (fun p d => p + Decision.profit_potential d)
           (AgentStats.expected_profit (stats state)) (buys ds)
    /\ AgentStats.potential_revenue (stats final)
       = foldl (fun r d =>
                  r + (Decision.price d + Decision.profit_potential d))
           (AgentStats.potential_revenue (stats state)) (buys ds).
Proof.
  induction evaluated as [|item rest IH]; intros n state; cbv zeta.
  { simpl. auto. }
  rewrite decideAll_cons. simpl fst. simpl snd.
  set (d := evaluateOpportunity (clock n) item state).
  specialize (IH (S n) (applyDecision item d state)). cbv zeta in IH.
  destruct IH as (Hb & Ht & He & Hr).
  rewrite buys_cons. destruct (Decision.action d) eqn:Ha.
  - destruct (decide (BUY = BUY)); [|congruence]. simpl foldl.
    pose proof (applyDecision_buy_stats _ _ _ Ha) as H. cbv zeta in H.
    fold d in H. destruct H as (_ & Ht1 & He1 & Hr1 & _).
    destruct (applyDecision_buy _ _ _ Ha) as [_ Hb1]. fold d in Hb1.
    assert (Hp : Decision.price d = EvaluatedListing.price item)
      by apply evaluateOpportunity_echoes.
    assert (Hq : Decision.profit_potential d
                 = EvaluatedListing.profit_potential item)
      by apply evaluateOpportunity_echoes.
    rewrite Hp, Hq, <- Hb1, <- Ht1, <- He1, <- Hr1. auto.
  - destruct (decide (SKIP = BUY)); [discriminate|].
    rewrite (applyDecision_skip _ _ _ Ha) in *. auto.
Qed.

(** X9.  The books of a batch, whatever the listings and the state: the
    remaining budget and the sums [total_invested], [expected_profit] and
    [potential_revenue] are what results from applying the figures of the
    BUY decisions one after the other, in batch order, to the values the
    batch started with ([budget - price], [total_invested + price],
    [expected_profit + profit], [potential_revenue + (price + profit)]);
    [items_purchased] grows by the number of BUY decisions;
    [listings_scanned] and [items_listed] are not touched by the
    controller. *)
Theorem batch_books_in_order clock evaluated B existingState :
  let start := default (freshState B) existingState in
  let ds := fst (makeDecisions clock evaluated B existingState) in
  let final := snd (makeDecisions clock evaluated B existingState) in
  let s := stats start in
  let s' := stats final in
  budget final
  = foldl (fun b d => b - Decision.price d) (budget start) (buys ds)
  /\ AgentStats.total_invested s'
     = foldl (fun t d => t + Decision.price d)
         (AgentStats.total_invested s) (buys ds)
  /\ AgentStats.expected_profit s'
     = foldl (fun p d => p + Decision.profit_potential d)
         (AgentStats.expected_profit s) (buys ds)
  /\ AgentStats.potential_revenue s'
     = foldl (fun r d => r + (Decision.price d + Decision.profit_potential d))
         (AgentStats.potential_revenue s) (buys ds)
  /\ AgentStats.items_purchased s'
     == AgentStats.items_purchased s + inject_Z (Z.of_nat (length (buys ds)))
  /\ AgentStats.listings_scanned s' = AgentStats.listings_scanned s
  /\ AgentStats.items_listed s' = AgentStats.items_listed s.
Proof.
  cbv zeta. rewrite makeDecisions_decideAll.
  pose proof (decideAll_bookkeeping clock evaluated 0
                (default (freshState B) existingState)) as H.
  pose proof (decideAll_accumulates clock evaluated 0
                (default (freshState B) existingState)) as Hacc.
  cbv zeta in H, Hacc.
  destruct H as (Hi & Hs & Hl).
  destruct Hacc as (Hb & Ht & He & Hr).
  repeat split; assumption.
Qed.

Example books_of_a_batch :
  let run := makeDecisions (fun _ => "t"%string)
               [sampleListing "a" 300 100 0.5; sampleListing "b" 300 100 0.5;
                sampleListing "c" 150 60 0.4] 500 None in
  Decision.action <$> fst run = [BUY; SKIP; BUY]
  /\ budget (snd run) == 50
  /\ AgentStats.total_invested (stats (snd run)) == 450
  /\ AgentStats.potential_revenue (stats (snd run)) == 610.
Proof. vm_compute. repeat split; congruence. Qed.

(** Taken in the order of the code, the sums round as the code rounds
    them: on binary64 numbers two purchases at 999.99 and 1299.99 against
    a budget of 5000 bring [total_invested] to 2299.98 and leave a budget
    just above 2700.02. *)
Example books_of_a_batch_rounded :
  let offer := fun id cents =>
    Binary64.mkOffer id (Binary64.decimal cents 2) (Binary64.ofZ 100)
      (Binary64.decimal 5 1) in
  let run := Binary64.makeDecisions
               [offer "a"%string 99999%Z; offer "b"%string 129999%Z]
               (Binary64.ofZ 5000) None in
  fst run = [BUY; BUY]
  /\ Binary64.total_invested (Binary64.stats (snd run))
     = Binary64.decimal 229998 2
  /\ Binary64.ltb (Binary64.decimal 270002 2) (Binary64.budget (snd run))
     = true.
Proof. vm_compute. repeat split; reflexivity. Qed.

Lemma evaluatedMap_get_some id l y :
  evaluatedMap_get id l = Some y -> y ∈ l /\ EvaluatedListing.id y = id.
Proof.
  induction l as [|x l IH]; simpl; [discriminate|].
  destruct (evaluatedMap_get id l) as [later|].
  - intros H. injection H as <-. destruct (IH eq_refl) as [H1 H2].
    split; [right; exact H1|exact H2].
  - destruct (String.eqb (EvaluatedListing.id x) id) eqn:E; [|discriminate].
    intros H. injection H as <-. apply String.eqb_eq in E.
    split; [left|exact E].
Qed.

Lemma evaluatedMap_get_elem l item :
  NoDup (EvaluatedListing.id <$> l) -> item ∈ l ->
  evaluatedMap_get (EvaluatedListing.id item) l = Some item.
Proof.
  induction l as [|x l IH]; intros Hnd Hin.
  - apply elem_of_nil in Hin. contradiction.
  - rewrite fmap_cons in Hnd. apply NoDup_cons in Hnd as [Hx Hnd]. simpl.
    apply elem_of_cons in Hin as [->|Hin].
    + destruct (evaluatedMap_get (EvaluatedListing.id x) l) as [later|] eqn:E.
      * apply evaluatedMap_get_some in E as [H1 H2]. exfalso. apply Hx.
        rewrite <- H2. apply list_elem_of_fmap_2. exact H1.
      * rewrite String.eqb_refl. reflexivity.
    + rewrite (IH Hnd Hin). reflexivity.
Qed.

Lemma bought_cons item items d ds :
  bought (item :: items) (d :: ds)
  = if decide (Decision.action d = BUY) then item :: bought items ds
    else bought items ds.
Proof.
  unfold bought. simpl zip. rewrite filter_cons. simpl.
  destruct (decide _); reflexivity.
Qed.

Lemma processPurchases_aligned full items ds :
  NoDup (EvaluatedListing.id <$> full) ->
  (forall item, item ∈ items -> item ∈ full) ->
  Forall2 (fun item d => echoes d item) items ds ->
  processPurchases ds full = flat_map ledgerCallsFor (bought items ds).
Proof.
  intros Hnd Hsub Hal. unfold processPurchases.
  induction Hal as [|item d items ds Hecho _ IH]; [reflexivity|].
  rewrite filter_cons, bought_cons.
  assert (Hitem : item ∈ full) by (apply Hsub; left).
  assert (Hrest : forall it, it ∈ items -> it ∈ full)
    by (intros it Hit; apply Hsub; right; exact Hit).
  destruct (decide (Decision.action d = BUY)); [|apply IH, Hrest].
  simpl flat_map. destruct Hecho as (Hid & _). rewrite Hid.
  rewrite (evaluatedMap_get_elem _ _ Hnd Hitem), (IH Hrest). reflexivity.
Qed.

(** X10.  When the ids of a batch are pairwise distinct, the listings
    handed on to the ledger are exactly the listings bought, in batch
    order, each first to the transaction actor and then to the inventory
    actor; a batch without a BUY hands on nothing. *)
Theorem purchases_handed_to_ledger clock evaluated B existingState :
  let ds := fst (makeDecisions clock evaluated B existingState) in
  NoDup (EvaluatedListing.id <$> evaluated) ->
  processPurchases ds evaluated
  = flat_map ledgerCallsFor (bought evaluated ds)
  /\ length (processPurchases ds evaluated) = (2 * length (buys ds))%nat
  /\ (buys ds = [] -> processPurchases ds evaluated = []).
Proof.
  cbv zeta. intros Hnd. unfold makeDecisions.
  set (state := match existingState with Some s => s | None => _ end).
  pose proof (decideAll_aligned clock evaluated 0 state) as Hal.
  set (ds := fst (decideAll clock 0 evaluated state)) in *.
  assert (Hcalls : processPurchases ds evaluated
                   = flat_map ledgerCallsFor (bought evaluated ds))
    by (apply processPurchases_aligned; auto).
  split; [exact Hcalls|]. split.
  - rewrite Hcalls. clear Hcalls Hnd. unfold buys.
    induction Hal as [|item d items ds' _ _ IH]; [reflexivity|].
    rewrite bought_cons, filter_cons.
    destruct (decide _); simpl; rewrite IH; lia.
  - intros Hno. unfold processPurchases. fold (buys ds). rewrite Hno.
    reflexivity.
Qed.

(** [purchases_handed_to_ledger] at work on two distinct listings, the
    second one too thin to buy. *)
Lemma purchases_handed_to_ledger_witness :
  processPurchases
    (fst (makeDecisions (fun _ => "t"%string)
            [sampleListing "a" 300 100 0.5; sampleListing "b" 100 10 0.1]
            500 None))
    [sampleListing "a" 300 100 0.5; sampleListing "b" 100 10 0.1]
  = ledgerCallsFor (sampleListing "a" 300 100 0.5).
Proof.
  refine (eq_trans
            (proj1 (purchases_handed_to_ledger (fun _ => "t"%string)
                      [sampleListing "a" 300 100 0.5;
                       sampleListing "b" 100 10 0.1] 500 None _)) _).
  - repeat constructor; set_solver.
  - vm_compute. reflexivity.
Defined.

(** With one id offered twice the listing handed on is the later one,
    though the decision was taken on, and the budget charged with, the
    earlier one. *)
Example duplicate_id_hands_on_the_later_listing :
  let early := sampleListing "x" 100 60 0.6 in
  let late := sampleListing "x" 900 60 0.6 in
  let run := makeDecisions (fun _ => "t"%string) [early; late] 1000 None in
  Decision.action <$> fst run = [BUY; SKIP]
  /\ budget (snd run) == 900
  /\ processPurchases (fst run) [early; late] = ledgerCallsFor late.
Proof. vm_compute. repeat split; congruence. Qed.

Lemma decideAll_buy_prices clock evaluated :
  forall n state,
    Forall (fun e => 0 <= EvaluatedListing.price e) evaluated ->
    Forall (fun d => Decision.action d = BUY ->
                     Decision.price d <= budget state)
      (fst (decideAll clock n evaluated state)).
Proof.
  induction evaluated as [|item rest IH]; intros n state Hp; [constructor|].
  apply Forall_cons in Hp as [Hitem Hrest].
  rewrite decideAll_cons. simpl fst.
  set (d := evaluateOpportunity (clock n) item state).
  assert (Hd : Decision.price d = EvaluatedListing.price item)
    by apply evaluateOpportunity_echoes.
  constructor.
  - intros Ha. rewrite Hd. apply (buy_inv _ _ _ Ha).
  - specialize (IH (S n) (applyDecision item d state) Hrest).
    destruct (Decision.action d) eqn:Ha.
    + destruct (applyDecision_buy _ _ _ Ha) as [_ Hb]. fold d in Hb.
      rewrite Hb in IH. eapply Forall_impl; [exact IH|].
      intros x Hx Hbuy. specialize (Hx Hbuy). simpl in Hx. lra.
    + rewrite (applyDecision_skip _ _ _ Ha) in *. exact IH.
Qed.

(** X11.  The actor's [makeDecisions] does not carry the remaining budget
    over.  Given a budget that is not negative and listings without
    negative prices, it decides the batch against the budget given,
    whatever budget the state held: no BUY costs more than the budget
    given, and what the state keeps is that budget with the BUY prices
    taken off one after the other, which lies between 0 and the budget
    given.  It returns one decision per listing and counts every listing
    offered as scanned. *)
Theorem actor_batch_budget clock evaluated (b : Q) state :
  let '(ds, _, state') :=
    DecisionActor.makeDecisions clock evaluated (Some b) state in
  0 <= b ->
  Forall (fun e => 0 <= EvaluatedListing.price e) evaluated ->
  Forall (fun d => Decision.action d = BUY -> Decision.price d <= b) ds
  /\ budget state' = foldl (fun r d => r - Decision.price d) b (buys ds)
  /\ 0 <= budget state' <= b
  /\ AgentStats.listings_scanned (stats state')
     = AgentStats.listings_scanned (stats state)
       + inject_Z (Z.of_nat (length evaluated))
  /\ length ds = length evaluated.
Proof.
  unfold DecisionActor.makeDecisions, makeDecisions.
  pose proof (decideAll_invariant clock evaluated 0
                (DecisionActor.setBudget (Some b) state)) as Hinv.
  pose proof (decideAll_bookkeeping clock evaluated 0
                (DecisionActor.setBudget (Some b) state)) as Hbk.
  pose proof (decideAll_accumulates clock evaluated 0
                (DecisionActor.setBudget (Some b) state)) as Hacc.
  pose proof (decideAll_aligned clock evaluated 0
                (DecisionActor.setBudget (Some b) state)) as Hal.
  pose proof (decideAll_buy_prices clock evaluated 0
                (DecisionActor.setBudget (Some b) state)) as Hprices.
  pose proof (decideAll_budget_le clock evaluated 0
                (DecisionActor.setBudget (Some b) state)) as Hle.
  cbv zeta in Hinv, Hbk, Hacc.
  destruct (decideAll clock 0 evaluated _) as [ds s1]. simpl in *.
  destruct Hinv as (_ & _ & _ & _ & Hpos).
  destruct Hbk as (_ & Hs & _).
  destruct Hacc as (Hb & _).
  intros Hb0 Hp.
  split; [exact (Hprices Hp)|]. split; [exact Hb|].
  split; [split; [exact (Hpos Hb0)|exact (Hle Hp)]|].
  split; [rewrite Hs; reflexivity|].
  symmetry. exact (Forall2_length _ _ _ Hal).
Qed.

(** [actor_batch_budget] at work: a state with nothing left is handed a
    batch together with a budget of 500. *)
Lemma actor_batch_budget_witness :
  budget
    (snd (DecisionActor.makeDecisions (fun _ => "t"%string)
            [sampleListing "a" 300 100 0.5] (Some 500)
            (mkState 0 ∅ zeroStats)))
  <= 500.
Proof.
  pose proof (actor_batch_budget (fun _ => "t"%string)
                [sampleListing "a" 300 100 0.5] 500 (mkState 0 ∅ zeroStats))
    as H.
  vm_compute in H. vm_compute.
  refine (proj2 (proj1 (proj2 (proj2 (H _ _))))).
  - discriminate.
  - repeat constructor. discriminate.
Defined.
(** ** The transaction ledger *)

Import Ledger LedgerProps.





(** What one call does: either the bucket refuses the write and nothing
    but the clock moves, or the transaction is written, logged and added
    to the total of its type. *)
Lemma call_cases clock putError op w :
  let tx := transactionOf op (clock (clockReads w)) in
  (exists error,
     putError (keyOf tx) = Some error
     /\ call clock putError op w
        = (inl error, mkWorld (state w) (bucket w) (S (clockReads w))))
  \/ (putError (keyOf tx) = None
      /\ exists s',
           call clock putError op w
           = (inr tx,
              mkWorld s' (bucket w ++ [(keyOf tx, tx)]) (S (clockReads w)))
           /\ transactions s' = transactions (state w) ++ [tx]
           /\ totalInvested s'
              == totalInvested (state w)
                 + (if decide (Transaction.type tx = purchase)
                    then Transaction.amount tx else 0)
           /\ potentialRevenue s'
              == potentialRevenue (state w)
                 + (if decide (Transaction.type tx = sale)
                    then Transaction.amount tx else 0)).
Proof.
  cbv zeta.
  destruct (putError (keyOf (transactionOf op (clock (clockReads w)))))
    as [error|] eqn:E; [left; exists error|right]; (split; [reflexivity|]).
  - destruct op; unfold call, processPurchase, processResale, readClock, book,
      recordTransaction; simpl; unfold keyOf in E; simpl in E; rewrite E;
      reflexivity.
  - destruct op; unfold call, processPurchase, processResale, readClock, book,
      recordTransaction; simpl; unfold keyOf in E; simpl in E; rewrite E;
      simpl; eexists (mkState _ _ _); (split; [reflexivity|]); simpl;
      repeat split; try reflexivity; lra.
Qed.



(** X13.  A purchase or a resale whose bucket write fails throws the
    bucket's error and books nothing: totals, log and bucket stay as they
    were.  One whose write succeeds returns the transaction it built, has
    written it under the key [type_itemId_timestamp], appended it to the
    log and added its amount to the total of its type, leaving the other
    total alone. *)
Theorem failed_write_books_nothing clock putError op w :
  let tx := transactionOf op (clock (clockReads w)) in
  match call clock putError op w with
  | (inl error, w') =>
      putError (keyOf tx) = Some error
      /\ state w' = state w /\ bucket w' = bucket w
  | (inr booked, w') =>
      putError (keyOf tx) = None
      /\ booked = tx
      /\ bucket w' = bucket w ++ [(keyOf tx, tx)]
      /\ transactions (state w') = transactions (state w) ++ [tx]
      /\ match op with
         | Purchase item =>
             totalInvested (state w')
             == totalInvested (state w) + EvaluatedListing.price item
             /\ potentialRevenue (state w') == potentialRevenue (state w)
         | Resale item =>
             totalInvested (state w') == totalInvested (state w)
             /\ potentialRevenue (state w')
                == potentialRevenue (state w) + Transaction.amount tx
         end
  end.
Proof.
  cbv zeta.
  destruct (call_cases clock putError op w)
    as [(error & He & ->)|(Hn & s' & -> & Hlog & Hi & Hr)].
  - auto.
  - simpl. repeat (split; [auto; fail|]).
    destruct op; simpl in *; split; lra.
Qed.

(** A resale books the resale price once one is set, else the estimated
    resale value; a refused write leaves the ledger as it was. *)
Example resale_amounts :
  let item := InventoryProps.sampleItem "item-1" 150 listed in
  let priced := Inventory.withResalePrice 140 item in
  let ok := fun _ : string => @None string in
  let full := fun _ : string => Some "bucket full"%string in
  let w := run (fun _ => "t"%string)
             [(ok, Resale item); (full, Resale item); (ok, Resale priced)]
             freshWorld in
  Transaction.amount <$> transactions (state w) = [150; 140]
  /\ potentialRevenue (state w) == 290.
Proof. vm_compute. split; reflexivity. Qed.

(** X14.  [calculateSpent] and [calculateRevenue] read the log from its
    first entry to its last, each looking at the transactions of its own
    type only: on an empty log both are 0; appending a transaction adds its
    amount to the sum of its own type and leaves the other sum as it is;
    and a transaction of the other type, wherever it stands in the log,
    makes no difference.  The stored totals play no part. *)
Theorem spent_and_revenue_along_the_log invested revenue log tx :
  let s := mkState invested revenue log in
  let s' := mkState invested revenue (log ++ [tx]) in
  calculateSpent (mkState invested revenue []) = 0
  /\ calculateRevenue (mkState invested revenue []) = 0
  /\ calculateSpent s'
     = (if decide (Transaction.type tx = purchase)
        then calculateSpent s + Transaction.amount tx
        else calculateSpent s)
  /\ calculateRevenue s'
     = (if decide (Transaction.type tx = sale)
        then calculateRevenue s + Transaction.amount tx
        else calculateRevenue s)
  /\ (forall before after i r,
         log = before ++ after ->
         Transaction.type tx = sale ->
         calculateSpent (mkState i r (before ++ tx :: after))
         = calculateSpent s)
  /\ (forall before after i r,
         log = before ++ after ->
         Transaction.type tx = purchase ->
         calculateRevenue (mkState i r (before ++ tx :: after))
         = calculateRevenue s).
Proof.
  cbv zeta. unfold calculateSpent, calculateRevenue. simpl transactions.
  split; [reflexivity|]. split; [reflexivity|].
  split; [|split; [|split]].
  - rewrite filter_app, foldl_app.
    change (filter (fun t => Transaction.type t = purchase) [tx])
      with (if decide (Transaction.type tx = purchase) then [tx] else []).
    destruct (decide _); reflexivity.
  - rewrite filter_app, foldl_app.
    change (filter (fun t => Transaction.type t = sale) [tx])
      with (if decide (Transaction.type tx = sale) then [tx] else []).
    destruct (decide _); reflexivity.
  - intros before after i r -> Hty.
    rewrite !filter_app, filter_cons.
    destruct (decide _); [congruence|reflexivity].
  - intros before after i r -> Hty.
    rewrite !filter_app, filter_cons.
    destruct (decide _); [congruence|reflexivity].
Qed.

(** The order of the log matters to the sum the code computes: on
    binary64 numbers the purchases 0.1, 0.2, 0.3 add up to
    0.6000000000000001 and the same purchases in reverse order to 0.6. *)
Example spent_depends_on_the_order :
  let amounts := [Binary64.decimal 1 1; Binary64.decimal 2 1;
                  Binary64.decimal 3 1] in
  let log := (fun a => (purchase, a)) <$> amounts in
  Binary64.calculateSpent (reverse log) = Binary64.decimal 6 1
  /\ Binary64.ltb (Binary64.decimal 6 1) (Binary64.calculateSpent log) = true.
Proof. vm_compute. split; reflexivity. Qed.

Lemma run_purchases_no_revenue clock calls :
  Forall (fun c => match snd c with
                   | Purchase _ => True
                   | Resale _ => False
                   end) calls ->
  forall w,
    potentialRevenue (state (run clock calls w))
    == potentialRevenue (state w).
Proof.
  induction 1 as [|[putError op] calls Hop _ IH]; intros w; [reflexivity|].
  simpl run. rewrite IH. destruct op as [item|item]; [|contradiction].
  destruct (call_cases clock putError (Purchase item) w)
    as [(error & _ & ->)|(_ & s' & -> & _ & _ & Hr)]; simpl; [reflexivity|].
  simpl in Hr. rewrite Hr. lra.
Qed.

(** X15.  The transaction actor counts revenue only when a resale is
    processed.  As long as it has processed purchases alone, its
    statistics show no revenue, an expected profit of minus the total
    invested, and, once anything is invested, a return of -1. *)
Theorem purchases_alone_show_a_loss clock calls :
  Forall (fun c => match snd c with
                   | Purchase _ => True
                   | Resale _ => False
                   end) calls ->
  let stats := getFinancialStats (state (run clock calls freshWorld)) in
  FinancialStats.potential_revenue stats == 0
  /\ FinancialStats.expected_profit stats
     == - FinancialStats.total_invested stats
  /\ (~ FinancialStats.total_invested stats == 0 ->
      FinancialStats.expected_roi stats == - (1)).
Proof.
  intros Hp. cbv zeta.
  pose proof (run_purchases_no_revenue clock calls Hp freshWorld) as Hr.
  simpl in Hr. simpl.
  split; [exact Hr|]. split; [rewrite Hr; lra|].
  intros Hne.
  destruct (Qeq_bool (totalInvested (state (run clock calls freshWorld))) 0)
    eqn:E; [apply Qeq_bool_iff in E; contradiction|].
  rewrite Hr. field. exact Hne.
Qed.

(** [purchases_alone_show_a_loss] at work: two purchases, 100 and 300. *)
Lemma purchases_alone_show_a_loss_witness :
  FinancialStats.expected_profit
    (getFinancialStats
       (state
          (run (fun _ => "t"%string)
             [(fun _ => None, Purchase (Props.sampleListing "a" 100 60 0.6));
              (fun _ => None, Purchase (Props.sampleListing "b" 300 90 0.3))]
             freshWorld)))
  == - (400).
Proof.
  refine (Qeq_trans _ _ _
            (proj1 (proj2
               (purchases_alone_show_a_loss (fun _ => "t"%string)
                  [(fun _ => None,
                    Purchase (Props.sampleListing "a" 100 60 0.6));
                   (fun _ => None,
                    Purchase (Props.sampleListing "b" 300 90 0.3))] _))) _).
  - repeat constructor.
  - vm_compute. reflexivity.
Defined.
(** ** The inventory model and its histories *)

Import Inventory InventoryProps InventoryModel InventoryRunProps.

Section JsMapMoreFacts.
Context {V : Type}.
Implicit Types (m : list (string * V)) (k : string) (v : V).

Lemma get_set_other k k' v m :
  k <> k' -> JsMap.get k (JsMap.set k' v m) = JsMap.get k m.
Proof.
  intros Hne. induction m as [|[k1 v1] m IH]; simpl.
  - destruct (String.eqb k' k) eqn:E; [|reflexivity].
    apply String.eqb_eq in E. congruence.
  - destruct (String.eqb k1 k') eqn:E1; simpl.
    + destruct (String.eqb k1 k) eqn:E; [|reflexivity].
      apply String.eqb_eq in E1, E. congruence.
    + rewrite IH. reflexivity.
Qed.

Lemma get_none_keys k m : JsMap.get k m = None <-> k ∉ JsMap.keys m.
Proof.
  unfold JsMap.keys. induction m as [|[k1 v1] m IH]; simpl.
  - split; [intros _; apply not_elem_of_nil|reflexivity].
  - rewrite not_elem_of_cons. destruct (String.eqb k1 k) eqn:E.
    + apply String.eqb_eq in E. split; [discriminate|]. intros [H _].
      congruence.
    + apply String.eqb_neq in E. rewrite IH. split; [|tauto].
      intros H. split; [congruence|exact H].
Qed.

Lemma keys_set_present k v m :
  k ∈ JsMap.keys m -> JsMap.keys (JsMap.set k v m) = JsMap.keys m.
Proof.
  unfold JsMap.keys. induction m as [|[k1 v1] m IH]; intros Hin.
  - apply elem_of_nil in Hin. contradiction.
  - simpl JsMap.set. destruct (String.eqb k1 k) eqn:E; [reflexivity|].
    apply String.eqb_neq in E. rewrite fmap_cons in Hin. simpl in Hin.
    apply elem_of_cons in Hin as [->|Hin]; [congruence|].
    rewrite !fmap_cons. f_equal. exact (IH Hin).
Qed.

Lemma keys_set_absent k v m :
  k ∉ JsMap.keys m -> JsMap.set k v m = m ++ [(k, v)].
Proof.
  unfold JsMap.keys. induction m as [|[k1 v1] m IH]; simpl; intros Hin;
    [reflexivity|].
  apply not_elem_of_cons in Hin as [Hne Hin].
  destruct (String.eqb k1 k) eqn:E.
  - apply String.eqb_eq in E. congruence.
  - rewrite (IH Hin). reflexivity.
Qed.

Lemma get_mapDelete_other k k' m :
  k <> k' -> JsMap.get k (mapDelete k' m) = JsMap.get k m.
Proof.
  intros Hne. induction m as [|[k1 v1] m IH]; simpl; [reflexivity|].
  destruct (String.eqb k1 k') eqn:E1; simpl.
  - destruct (String.eqb k1 k) eqn:E; [|reflexivity].
    apply String.eqb_eq in E1, E. congruence.
  - rewrite IH. reflexivity.
Qed.

Lemma get_mapDelete_same k m :
  NoDup (JsMap.keys m) -> JsMap.get k (mapDelete k m) = None.
Proof.
  unfold JsMap.keys. induction m as [|[k1 v1] m IH]; simpl; intros Hnd;
    [reflexivity|].
  apply NoDup_cons in Hnd as [Hk1 Hnd].
  destruct (String.eqb k1 k) eqn:E; simpl.
  - apply String.eqb_eq in E. subst k1. apply get_none_keys. exact Hk1.
  - rewrite E. apply IH. exact Hnd.
Qed.

Lemma mapDelete_absent k m : k ∉ JsMap.keys m -> mapDelete k m = m.
Proof.
  unfold JsMap.keys. induction m as [|[k1 v1] m IH]; simpl; intros Hin;
    [reflexivity|].
  apply not_elem_of_cons in Hin as [Hne Hin].
  destruct (String.eqb k1 k) eqn:E.
  - apply String.eqb_eq in E. congruence.
  - rewrite (IH Hin). reflexivity.
Qed.

Lemma mapDelete_set_fresh k v m :
  k ∉ JsMap.keys m -> mapDelete k (JsMap.set k v m) = m.
Proof.
  intros Hin. rewrite (keys_set_absent _ _ _ Hin). revert Hin.
  unfold JsMap.keys. induction m as [|[k1 v1] m IH]; simpl; intros Hin.
  - rewrite String.eqb_refl. reflexivity.
  - apply not_elem_of_cons in Hin as [Hne Hin].
    destruct (String.eqb k1 k) eqn:E.
    + apply String.eqb_eq in E. congruence.
    + rewrite (IH Hin). reflexivity.
Qed.

Lemma mapDelete_sublist k m : mapDelete k m `sublist_of` m.
Proof.
  induction m as [|[k1 v1] m IH]; simpl; [constructor|].
  destruct (String.eqb k1 k).
  - apply sublist_cons. reflexivity.
  - apply sublist_skip. exact IH.
Qed.

End JsMapMoreFacts.

(** X16.  [updateItemStatus] on an id the inventory does not hold throws
    "Item not found in inventory" and changes nothing.  On an id it holds
    it rewrites that entry alone, in place: the status becomes the one
    asked for, listing and purchase data stay, the listing date is set to
    the time of the call exactly when the status is [listed]; the changed
    item is the last write to the bucket; and [listedIds] never loses an
    id: it gains the item's id when the status is [listed] and is left alone
    otherwise, also when a listed item goes back to [purchased] or on to
    [sold]. *)
Theorem updateItemStatus_outcome clock id status w :
  match JsMap.get id (inventory w) with
  | None =>
      updateItemStatus clock id status w
      = (inl "Item not found in inventory"%string, w)
  | Some item =>
      exists item' w',
        updateItemStatus clock id status w = (inr tt, w')
        /\ JsMap.get id (inventory w') = Some item'
        /\ InventoryItem.status item' = status
        /\ InventoryItem.base item' = InventoryItem.base item
        /\ InventoryItem.purchase_date item' = InventoryItem.purchase_date item
        /\ InventoryItem.resale_price item' = InventoryItem.resale_price item
        /\ InventoryItem.listed_date item'
           = (if decide (status = listed) then Some (clock (clockReads w))
              else InventoryItem.listed_date item)
        /\ JsMap.keys (inventory w') = JsMap.keys (inventory w)
        /\ (forall k, k <> id ->
              JsMap.get k (inventory w') = JsMap.get k (inventory w))
        /\ listedIds w'
           = (if decide (status = listed) then {[ id ]} ∪ listedIds w
              else listedIds w)
        /\ bucket w' = bucket w ++ [(id, item')]
  end.
Proof.
  destruct (JsMap.get id (inventory w)) as [item|] eqn:Hget.
  - assert (Hin : id ∈ JsMap.keys (inventory w)).
    { destruct (decide (id ∈ JsMap.keys (inventory w))) as [H|H]; [exact H|].
      apply get_none_keys in H. congruence. }
    unfold updateItemStatus, bind, getWorld, now, addListedId, setInventory,
      bucketPut, ret. simpl. rewrite Hget.
    destruct (decide (status = listed)) as [->|Hs]; simpl;
      eexists _, _; (split; [reflexivity|]); simpl;
      rewrite get_set_same, (keys_set_present _ _ _ Hin);
      repeat split; auto; intros k Hk; apply get_set_other; exact Hk.
  - unfold updateItemStatus, bind, getWorld. simpl. rewrite Hget. reflexivity.
Qed.

(** A listed item marked [sold] keeps its id in [listedIds]. *)
Example sold_stays_in_listedIds :
  let w := mkWorld [("item-1"%string, sampleItem "item-1" 150 listed)]
             {[ "item-1"%string ]} [] 0 in
  let w' := snd (updateItemStatus (fun _ => "t"%string) "item-1" sold w) in
  InventoryItem.status <$> JsMap.values (inventory w') = [sold]
  /\ "item-1"%string ∈ listedIds w'.
Proof. split; [reflexivity|]. vm_compute. set_solver. Qed.

(** X17.  Filing an item makes it the entry under its id and touches no
    other entry; removing the id afterwards leaves no entry under it,
    takes it out of [listedIds], touches no other entry, and, when the id
    was new to the inventory, gives back the inventory as it was before
    the item was filed.  The bucket keeps the record that the filing
    wrote: removal writes nothing. *)
Theorem add_then_remove item w :
  NoDup (JsMap.keys (inventory w)) ->
  let id := InventoryItem.id item in
  let w1 := snd (addToInventory item w) in
  let w2 := removeFromInventory id w1 in
  fst (addToInventory item w) = inr tt
  /\ JsMap.get id (inventory w1) = Some item
  /\ (forall k, k <> id ->
        JsMap.get k (inventory w1) = JsMap.get k (inventory w))
  /\ JsMap.get id (inventory w2) = None
  /\ (id ∉ listedIds w2)
  /\ (forall k, k <> id ->
        JsMap.get k (inventory w2) = JsMap.get k (inventory w))
  /\ (id ∉ JsMap.keys (inventory w) -> inventory w2 = inventory w)
  /\ bucket w2 = bucket w ++ [(id, item)].
Proof.
  intros Hnd. cbv zeta.
  unfold addToInventory, removeFromInventory, bind, setInventory, bucketPut.
  simpl. split; [reflexivity|].
  split; [apply get_set_same|].
  split; [intros k Hk; apply get_set_other; exact Hk|].
  split; [apply get_mapDelete_same, set_keys_NoDup; exact Hnd|].
  split; [set_solver|].
  split; [intros k Hk; rewrite get_mapDelete_other by exact Hk;
          apply get_set_other; exact Hk|].
  split; [apply mapDelete_set_fresh|reflexivity].
Qed.

(** [add_then_remove] at work on an inventory that holds another item. *)
Lemma add_then_remove_witness :
  inventory
    (removeFromInventory "item-2"
       (snd (addToInventory (sampleItem "item-2" 150 purchased)
               (mkWorld [("item-1"%string, sampleItem "item-1" 150 listed)]
                  {[ "item-1"%string ]} [] 0))))
  = [("item-1"%string, sampleItem "item-1" 150 listed)].
Proof.
  refine (proj1 (proj2 (proj2 (proj2 (proj2 (proj2 (proj2
            (add_then_remove (sampleItem "item-2" 150 purchased)
               (mkWorld [("item-1"%string, sampleItem "item-1" 150 listed)]
                  {[ "item-1"%string ]} [] 0) _))))))) _).
  - simpl. repeat constructor; set_solver.
  - simpl. set_solver.
Defined.

Lemma get_some_elem {V} (k : string) (v : V) (m : list (string * V)) :
  JsMap.get k m = Some v -> (k, v) ∈ m.
Proof.
  induction m as [|[k1 v1] m IH]; simpl; [discriminate|].
  destruct (String.eqb k1 k) eqn:E.
  - apply String.eqb_eq in E. intros H. injection H as <-. subst k1. left.
  - intros H. right. exact (IH H).
Qed.

Lemma set_elem_cases {V} (k k' : string) (v x : V) (m : list (string * V)) :
  NoDup (JsMap.keys m) -> (k', x) ∈ JsMap.set k v m ->
  (k' = k /\ x = v) \/ (k' <> k /\ (k', x) ∈ m).
Proof.
  intros Hnd Hin. destruct (decide (k' = k)) as [->|Hne].
  - left. split; [reflexivity|].
    pose proof (get_elem _ _ _ (set_keys_NoDup k v m Hnd) Hin) as H.
    rewrite get_set_same in H. congruence.
  - right. split; [exact Hne|].
    apply set_elem in Hin as [H|H]; [congruence|exact H].
Qed.

Lemma set_elem_other {V} (k k' : string) (v x : V) (m : list (string * V)) :
  k' <> k -> (k', x) ∈ m -> (k', x) ∈ JsMap.set k v m.
Proof.
  intros Hne. induction m as [|[k1 v1] m IH]; simpl; intros Hin.
  - apply elem_of_nil in Hin. contradiction.
  - destruct (String.eqb k1 k) eqn:E.
    + apply String.eqb_eq in E. subst k1.
      apply elem_of_cons in Hin as [Heq|Hin]; [congruence|].
      right. exact Hin.
    + apply elem_of_cons in Hin as [<-|Hin]; [left|right; auto].
Qed.

Lemma lastPut_app k l l' :
  lastPut k (l ++ l')
  = match lastPut k l' with
    | Some v => Some v
    | None => lastPut k l
    end.
Proof.
  induction l as [|[k1 v1] l IH]; simpl.
  - destruct (lastPut k l'); reflexivity.
  - rewrite IH. destruct (lastPut k l'); reflexivity.
Qed.

Lemma lastPut_others k l :
  (forall e, e ∈ l -> fst e <> k) -> lastPut k l = None.
Proof.
  induction l as [|[k1 v1] l IH]; simpl; intros H; [reflexivity|].
  rewrite IH by (intros e He; apply H; right; exact He).
  destruct (String.eqb k1 k) eqn:E; [|reflexivity].
  apply String.eqb_eq in E. exfalso. apply (H (k1, v1)); [left|exact E].
Qed.

(** The common step of every operation that writes: an item is put under
    its own id, the bucket receives writes under that id only, the last
    of them being the item, and [listedIds] has lost nothing. *)
Lemma consistent_set w id v ids puts reads :
  consistent w ->
  InventoryItem.id v = id ->
  listedIds w ⊆ ids ->
  (InventoryItem.status v = listed -> id ∈ ids) ->
  (forall e, e ∈ puts -> fst e = id) ->
  consistent
    (mkWorld (JsMap.set id v (inventory w)) ids
       (bucket w ++ puts ++ [(id, v)]) reads).
Proof.
  intros [[Hkeys Hfiled] Hitems] Hid Hsub Hlisted Hputs.
  split; [split|]; simpl.
  - apply set_keys_NoDup. exact Hkeys.
  - intros k x Hin. apply set_elem in Hin as [H|H].
    + injection H as -> ->. congruence.
    + exact (Hfiled _ _ H).
  - intros k x Hin.
    apply (set_elem_cases _ _ _ _ _ Hkeys) in Hin as [[-> ->]|[Hne Hin]].
    + split; [exact Hlisted|].
      rewrite app_assoc, lastPut_app. simpl. rewrite String.eqb_refl.
      reflexivity.
    + destruct (Hitems _ _ Hin) as [Hl Hp]. split.
      * intros Hs. apply Hsub, Hl, Hs.
      * rewrite lastPut_app, lastPut_others; [exact Hp|].
        intros e He. apply elem_of_app in He as [He|He].
        -- rewrite (Hputs _ He). congruence.
        -- apply list_elem_of_singleton in He. subst e. simpl. congruence.
Qed.

Lemma processNewPurchase_consistent clock item w :
  consistent w -> consistent (snd (processNewPurchase clock item w)).
Proof.
  intros Hc.
  unfold processNewPurchase, addToInventory, bind, now, setInventory,
    bucketPut, ret. simpl.
  apply (consistent_set w (EvaluatedListing.id item) _ (listedIds w) []);
    auto; try discriminate.
  intros e He. apply elem_of_nil in He. contradiction.
Qed.

Lemma updateItemStatus_consistent clock id status w :
  consistent w -> consistent (snd (updateItemStatus clock id status w)).
Proof.
  intros Hc. unfold updateItemStatus, bind, getWorld. simpl.
  destruct (JsMap.get id (inventory w)) as [item|] eqn:Hget; [|exact Hc].
  assert (Hid : InventoryItem.id item = id).
  { destruct Hc as [[_ Hfiled] _]. symmetry.
    apply Hfiled, get_some_elem, Hget. }
  unfold now, addListedId, setInventory, bucketPut, ret.
  destruct (decide (status = listed)) as [->|Hs]; simpl.
  - apply (consistent_set w id _ ({[ id ]} ∪ listedIds w) []); auto.
    + set_solver.
    + intros _. set_solver.
    + intros e He. apply elem_of_nil in He. contradiction.
  - apply (consistent_set w id _ (listedIds w) []); auto.
    + simpl. intros H. contradiction.
    + intros e He. apply elem_of_nil in He. contradiction.
Qed.

Lemma removeFromInventory_consistent id w :
  consistent w -> consistent (removeFromInventory id w).
Proof.
  intros [[Hkeys Hfiled] Hitems]. unfold removeFromInventory.
  assert (Hsub : forall e, e ∈ mapDelete id (inventory w) -> e ∈ inventory w).
  { intros e He. eapply elem_of_sublist; [exact He|apply mapDelete_sublist]. }
  split; [split|]; simpl.
  - eapply sublist_NoDup; [exact Hkeys|].
    apply fmap_sublist, mapDelete_sublist.
  - intros k x Hin. apply Hfiled, Hsub, Hin.
  - intros k x Hin. destruct (Hitems _ _ (Hsub _ Hin)) as [Hl Hp].
    split; [|exact Hp]. intros Hs.
    assert (k <> id).
    { intros ->. pose proof (get_mapDelete_same id _ Hkeys) as Hnone.
      apply get_none_keys in Hnone. apply Hnone.
      apply list_elem_of_fmap. exists (id, x). auto. }
    set_solver.
Qed.

Lemma snd_bind_ret {A B} (m : M A) (f : A -> B) w :
  snd (bind m (fun a => ret (f a)) w) = snd (m w).
Proof. unfold bind, ret. destruct (m w) as [[e|a] w']; reflexivity. Qed.

Lemma relistLoop_consistent clock items :
  forall w,
    consistent w ->
    NoDup (InventoryItem.id <$> items) ->
    (forall it, it ∈ items -> (InventoryItem.id it, it) ∈ inventory w) ->
    consistent (snd (relistLoop clock items w)).
Proof.
  induction items as [|it rest IH]; intros w Hc Hids Hin; [exact Hc|].
  rewrite fmap_cons in Hids. apply NoDup_cons in Hids as [Hfresh Hids].
  assert (Hit : (InventoryItem.id it, it) ∈ inventory w) by (apply Hin; left).
  pose proof Hc as [[Hkeys _] _].
  pose proof (relistOne_ok clock it w (get_elem _ _ _ Hkeys Hit)) as Hone.
  cbv zeta in Hone. simpl relistLoop. unfold bind at 1. rewrite Hone.
  rewrite snd_bind_ret. apply IH.
  - rewrite <- app_assoc. apply consistent_set; auto.
    + set_solver.
    + intros _. set_solver.
    + intros e He. apply list_elem_of_singleton in He. subst e. reflexivity.
  - exact Hids.
  - intros x Hx. simpl. apply set_elem_other; [|apply Hin; right; exact Hx].
    intros Heq. apply Hfresh. rewrite <- Heq.
    apply list_elem_of_fmap_2. exact Hx.
Qed.

Lemma relistItems_consistent clock w :
  consistent w -> consistent (snd (relistItems clock w)).
Proof.
  intros Hc. pose proof Hc as [Hwf _]. pose proof Hwf as [Hkeys _].
  unfold relistItems, bind, getWorld. fold (purchasedItems w).
  change (consistent (snd (relistLoop clock (purchasedItems w) w))).
  apply relistLoop_consistent; [exact Hc| |].
  - apply (sublist_NoDup _ (InventoryItem.id <$> JsMap.values (inventory w))).
    + rewrite wf_values_ids by exact Hwf. exact Hkeys.
    + apply fmap_sublist. unfold purchasedItems. apply sublist_filter.
  - intros it Hit. apply (purchasedItems_elem w it Hwf Hit).
Qed.

(** X18.  Every operation of the inventory code keeps the state in step:
    after any history of purchases, sweeps, status updates and removals,
    also ones that throw, the inventory has one entry per id, filed under
    its item's id; every item whose status is [listed] has its id in
    [listedIds]; and the last record written to the bucket under an id
    the inventory holds is the item the inventory holds (bucket writes
    being taken to succeed). *)
Theorem inventory_stays_consistent clock ops w :
  consistent w -> consistent (run clock ops w).
Proof.
  revert w. induction ops as [|op ops IH]; intros w Hc; [exact Hc|].
  unfold run. simpl. apply IH. destruct op; simpl.
  - apply processNewPurchase_consistent, Hc.
  - apply relistItems_consistent, Hc.
  - apply updateItemStatus_consistent, Hc.
  - apply removeFromInventory_consistent, Hc.
Qed.

Lemma consistent_emptyWorld : consistent emptyWorld.
Proof.
  split; [exact wf_emptyWorld|]. intros k item H.
  apply elem_of_nil in H. contradiction.
Qed.

(** [inventory_stays_consistent] at work on a history from the empty
    inventory: two purchases, a sweep, an update of an id that is not
    there, a sale, a removal. *)
Lemma inventory_stays_consistent_witness :
  consistent
    (run (fun n => String (ascii_of_nat (48 + n)) EmptyString)
       [Purchase (Props.sampleListing "a" 100 60 0.6);
        Purchase (Props.sampleListing "b" 200 80 0.4);
        Sweep;
        UpdateStatus "c" listed;
        UpdateStatus "a" sold;
        Remove "b"]
       emptyWorld).
Proof.
  apply inventory_stays_consistent. exact consistent_emptyWorld.
Defined.

(** The history of [inventory_stays_consistent_witness], step by step:
    what the inventory and [listedIds] hold at the end. *)
Example history_outcome :
  let w := run (fun n => String (ascii_of_nat (48 + n)) EmptyString)
             [Purchase (Props.sampleListing "a" 100 60 0.6);
              Purchase (Props.sampleListing "b" 200 80 0.4);
              Sweep;
              UpdateStatus "c" listed;
              UpdateStatus "a" sold;
              Remove "b"]
             emptyWorld in
  (fun e => (fst e, InventoryItem.status (snd e),
             InventoryItem.resale_price (snd e))) <$> inventory w
  = [("a"%string, sold, Some (100 + 60))]
  /\ length (bucket w) = 7%nat.
Proof. vm_compute. split; reflexivity. Qed.
(** ** From the decisions to the ledger and the inventory *)

Import PipelineProps.

Lemma foldl_buys_bought (f : Q -> Q -> Q) items ds :
  Forall2 (fun item d => echoes d item) items ds ->
  forall a,
    foldl (fun acc d => f acc (Decision.price d)) a (buys ds)
    = foldl (fun acc item => f acc (EvaluatedListing.price item)) a
        (bought items ds).
Proof.
  induction 1 as [|item d items ds Hecho _ IH]; intros a; [reflexivity|].
  rewrite bought_cons, buys_cons. destruct (decide _); [|apply IH].
  simpl foldl. destruct Hecho as (_ & _ & Hp & _). rewrite Hp. apply IH.
Qed.

(** What carrying out the ledger calls for [items] does when the bucket
    takes every write: one purchase per item in the log, the prices added
    to the total invested, one entry per item in the inventory. *)
Lemma deliver_bought clockT clockI items :
  forall lw iw,
    NoDup (EvaluatedListing.id <$> items) ->
    exists lw' iw' txs,
      deliver clockT clockI (fun _ => None) (flat_map ledgerCallsFor items)
        lw iw
      = (None, lw', iw')
      /\ Ledger.transactions (Ledger.state lw')
         = Ledger.transactions (Ledger.state lw) ++ txs
      /\ Forall2 purchaseOf txs items
      /\ Ledger.totalInvested (Ledger.state lw')
         = foldl (fun t item => t + EvaluatedListing.price item)
             (Ledger.totalInvested (Ledger.state lw)) items
      /\ Ledger.potentialRevenue (Ledger.state lw')
         = Ledger.potentialRevenue (Ledger.state lw)
      /\ (forall item, item ∈ items ->
            exists d,
              JsMap.get (EvaluatedListing.id item) (Inventory.inventory iw')
              = Some (held item d))
      /\ (forall k, k ∉ (EvaluatedListing.id <$> items) ->
            JsMap.get k (Inventory.inventory iw')
            = JsMap.get k (Inventory.inventory iw))
      /\ ((forall item, item ∈ items ->
             EvaluatedListing.id item ∉ JsMap.keys (Inventory.inventory iw)) ->
          exists new,
            Inventory.inventory iw' = Inventory.inventory iw ++ new
            /\ Forall2 entryOf new items).
Proof.
  induction items as [|item rest IH]; intros lw iw Hnd.
  { exists lw, iw, []. simpl. rewrite app_nil_r.
    repeat split; auto; try reflexivity; try constructor.
    - intros item H. apply elem_of_nil in H. contradiction.
    - intros _. exists []. rewrite app_nil_r. split; constructor. }
  rewrite fmap_cons in Hnd. apply NoDup_cons in Hnd as [Hfresh Hnd].
  set (tx := Transaction.mk purchase (EvaluatedListing.id item)
               (EvaluatedListing.price item)
               (clockT (Ledger.clockReads lw))).
  set (lw1 := Ledger.mkWorld
                (Ledger.mkState
                   (Ledger.totalInvested (Ledger.state lw)
                    + EvaluatedListing.price item)
                   (Ledger.potentialRevenue (Ledger.state lw))
                   (Ledger.transactions (Ledger.state lw) ++ [tx]))
                (Ledger.bucket lw
                   ++ [("purchase" +:+ "_" +:+ EvaluatedListing.id item
                        +:+ "_" +:+ clockT (Ledger.clockReads lw), tx)])
                (S (Ledger.clockReads lw))).
  set (d := clockI (Inventory.clockReads iw)).
  set (iw1 := Inventory.mkWorld
                (JsMap.set (EvaluatedListing.id item) (held item d)
                   (Inventory.inventory iw))
                (Inventory.listedIds iw)
                (Inventory.bucket iw
                   ++ [(EvaluatedListing.id item, held item d)])
                (S (Inventory.clockReads iw))).
  destruct (IH lw1 iw1 Hnd)
    as (lw' & iw' & txs & Hrun & Hlog & Htxs & Hinv & Hrev & Hheld & Hrest
        & Hnew).
  exists lw', iw', (tx :: txs).
  split; [exact Hrun|].
  split; [rewrite Hlog; simpl; rewrite <- app_assoc; reflexivity|].
  split; [constructor; [repeat split|exact Htxs]|].
  split; [rewrite Hinv; reflexivity|].
  split; [rewrite Hrev; reflexivity|].
  split; [|split].
  - intros x Hx. apply elem_of_cons in Hx as [->|Hx]; [|apply Hheld, Hx].
    exists d. rewrite (Hrest _ Hfresh). simpl. apply get_set_same.
  - intros k Hk. rewrite fmap_cons in Hk.
    apply not_elem_of_cons in Hk as [Hne Hk]. rewrite (Hrest _ Hk). simpl.
    apply get_set_other. exact Hne.
  - intros Hout.
    assert (Hitem : EvaluatedListing.id item
                    ∉ JsMap.keys (Inventory.inventory iw))
      by (apply Hout; left).
    destruct Hnew as (new & Hinv' & Hent).
    { intros x Hx. simpl. rewrite (keys_set_absent _ _ _ Hitem).
      unfold JsMap.keys. rewrite fmap_app. simpl.
      intros Hin. apply elem_of_app in Hin as [Hin|Hin].
      - apply (Hout x); [right; exact Hx|exact Hin].
      - apply list_elem_of_singleton in Hin. apply Hfresh. rewrite <- Hin.
        apply list_elem_of_fmap_2. exact Hx. }
    exists ((EvaluatedListing.id item, held item d) :: new).
    split; [|constructor; [exists d; reflexivity|exact Hent]].
    rewrite Hinv'. simpl. rewrite (keys_set_absent _ _ _ Hitem).
    rewrite <- app_assoc. reflexivity.
Qed.

Lemma bought_sublist items ds :
  Forall2 (fun item d => echoes d item) items ds ->
  bought items ds `sublist_of` items.
Proof.
  induction 1 as [|item d items ds _ _ IH]; [constructor|].
  rewrite bought_cons. destruct (decide _).
  - apply sublist_skip. exact IH.
  - apply sublist_cons. exact IH.
Qed.

Lemma bought_NoDup items ds :
  Forall2 (fun item d => echoes d item) items ds ->
  NoDup (EvaluatedListing.id <$> items) ->
  NoDup (EvaluatedListing.id <$> bought items ds).
Proof.
  intros Hal Hnd. eapply sublist_NoDup; [exact Hnd|].
  apply fmap_sublist, bought_sublist, Hal.
Qed.

(** X19.  A batch with pairwise distinct ids, decided by the actor and
    handed on while the transaction bucket takes every write: no call
    throws; the transaction log gains one purchase per BUY, in batch
    order, with the listing's id and price; the ledger's total invested
    and the decision statistics' [total_invested] each take up the prices
    of the listings bought one after the other in batch order, so that
    two totals that agreed before the batch agree after it, while the
    budget gives up the same prices in the same order; the potential
    revenue of the ledger does not move; and the inventory holds every
    listing bought, with status [purchased] and neither resale price nor
    listing date, while entries under other ids are as before. *)
Theorem purchases_reach_both_actors
    clockD clockT clockI evaluated bo state lw iw :
  let '(ds, calls, state') :=
    DecisionActor.makeDecisions clockD evaluated bo state in
  let '(error, lw', iw') :=
    deliver clockT clockI (fun _ => None) calls lw iw in
  let items := bought evaluated ds in
  NoDup (EvaluatedListing.id <$> evaluated) ->
  error = None
  /\ (exists txs,
        Ledger.transactions (Ledger.state lw')
        = Ledger.transactions (Ledger.state lw) ++ txs
        /\ Forall2 purchaseOf txs items)
  /\ Ledger.totalInvested (Ledger.state lw')
     = foldl (fun t item => t + EvaluatedListing.price item)
         (Ledger.totalInvested (Ledger.state lw)) items
  /\ AgentStats.total_invested (stats state')
     = foldl (fun t item => t + EvaluatedListing.price item)
         (AgentStats.total_invested (stats state)) items
  /\ budget state'
     = foldl (fun r item => r - EvaluatedListing.price item)
         (budget (DecisionActor.setBudget bo state)) items
  /\ (AgentStats.total_invested (stats state)
      = Ledger.totalInvested (Ledger.state lw) ->
      AgentStats.total_invested (stats state')
      = Ledger.totalInvested (Ledger.state lw'))
  /\ Ledger.potentialRevenue (Ledger.state lw')
     = Ledger.potentialRevenue (Ledger.state lw)
  /\ (forall item, item ∈ items ->
        exists d,
          JsMap.get (EvaluatedListing.id item) (Inventory.inventory iw')
          = Some (held item d))
  /\ (forall k, k ∉ (EvaluatedListing.id <$> items) ->
        JsMap.get k (Inventory.inventory iw')
        = JsMap.get k (Inventory.inventory iw)).
Proof.
  unfold DecisionActor.makeDecisions, DecisionController.makeDecisions.
  pose proof (decideAll_accumulates clockD evaluated 0
                (DecisionActor.setBudget bo state)) as Hacc.
  pose proof (decideAll_aligned clockD evaluated 0
                (DecisionActor.setBudget bo state)) as Hal.
  cbv zeta in Hacc.
  destruct (decideAll clockD 0 evaluated _) as [ds s1]. simpl in Hacc, Hal.
  destruct Hacc as (Hb & Ht & _).
  destruct (deliver clockT clockI (fun _ => None)
              (processPurchases ds evaluated) lw iw)
    as [[error lw'] iw'] eqn:Hrun.
  cbv zeta. intros Hnd.
  rewrite (processPurchases_aligned evaluated evaluated ds Hnd
             (fun _ H => H) Hal) in Hrun.
  destruct (deliver_bought clockT clockI (bought evaluated ds) lw iw
              (bought_NoDup _ _ Hal Hnd))
    as (lw2 & iw2 & txs & Hrun' & Hlog & Htxs & Hti & Hrev & Hheld & Hrest
        & _).
  rewrite Hrun' in Hrun. injection Hrun as <- <- <-.
  rewrite (foldl_buys_bought Qplus _ _ Hal) in Ht.
  rewrite (foldl_buys_bought Qminus _ _ Hal) in Hb.
  assert (Hstats : AgentStats.total_invested
                     (stats (DecisionActor.setBudget bo state))
                   = AgentStats.total_invested (stats state))
    by (destruct bo; reflexivity).
  rewrite Hstats in Ht.
  split; [reflexivity|]. split; [exists txs; auto|].
  split; [exact Hti|]. split; [exact Ht|]. split; [exact Hb|].
  split; [intros Heq; simpl; rewrite Ht, Hti, Heq; reflexivity|].
  split; [exact Hrev|]. split; [exact Hheld|exact Hrest].
Qed.

(** [purchases_reach_both_actors] at work: of two listings the first is
    bought; ledger and inventory start empty. *)
Lemma purchases_reach_both_actors_witness :
  Ledger.totalInvested
    (Ledger.state
       (snd (fst
          (deliver (fun _ => "t"%string) (fun _ => "i"%string)
             (fun _ => None)
             (snd (fst
                (DecisionActor.makeDecisions (fun _ => "d"%string)
                   [sampleListing "a" 300 100 0.5;
                    sampleListing "b" 100 10 0.1]
                   (Some 500) createInitialState)))
             LedgerProps.freshWorld Inventory.emptyWorld))))
  = 300.
Proof.
  pose proof (purchases_reach_both_actors (fun _ => "d"%string)
                (fun _ => "t"%string) (fun _ => "i"%string)
                [sampleListing "a" 300 100 0.5; sampleListing "b" 100 10 0.1]
                (Some 500) createInitialState LedgerProps.freshWorld
                Inventory.emptyWorld) as H.
  vm_compute in H.
  assert (Hnd : NoDup ["a"; "b"]%string) by (repeat constructor; set_solver).
  exact (proj1 (proj2 (proj2 (H Hnd)))).
Defined.

Lemma Forall2_compose {A B C} (R : A -> B -> Prop) (S : B -> C -> Prop)
    (T : A -> C -> Prop) l k m :
  (forall a b c, R a b -> S b c -> T a c) ->
  Forall2 R l k -> Forall2 S k m -> Forall2 T l m.
Proof.
  intros H HR. revert m. induction HR as [|a b l k Hab _ IH]; intros m HS.
  - apply Forall2_nil_inv_l in HS. subst m. constructor.
  - apply Forall2_cons_inv_l in HS as (c & m' & Hbc & HS & ->).
    constructor; [exact (H _ _ _ Hab Hbc)|exact (IH _ HS)].
Qed.

Lemma Forall2_elem_l {A B} (R : A -> B -> Prop) l k x :
  Forall2 R l k -> x ∈ l -> exists y, y ∈ k /\ R x y.
Proof.
  induction 1 as [|x' y l k HR _ IH]; intros Hx.
  - apply elem_of_nil in Hx. contradiction.
  - apply elem_of_cons in Hx as [->|Hx].
    + exists y. split; [left|exact HR].
    + destruct (IH Hx) as (y' & Hy' & HR'). exists y'. split; [right|]; auto.
Qed.

(** The sweep on a well-formed inventory: it returns, with one re-listing
    per purchased item. *)
Lemma relistItems_listings clock w :
  InventoryProps.wf w ->
  exists listings w',
    Inventory.relistItems clock w = (inr listings, w')
    /\ Forall2 InventoryProps.isResaleOf listings
         (InventoryProps.purchasedItems w).
Proof.
  intros Hwf. pose proof Hwf as [Hkeys _].
  destruct (relistLoop_ok clock (InventoryProps.purchasedItems w) w)
    as (listings & w' & Hloop & Hres & _).
  - exact Hkeys.
  - apply (sublist_NoDup _
             (InventoryItem.id <$> JsMap.values (Inventory.inventory w))).
    + rewrite wf_values_ids by exact Hwf. exact Hkeys.
    + apply fmap_sublist. unfold InventoryProps.purchasedItems.
      apply sublist_filter.
  - intros it Hit. apply (purchasedItems_elem w it Hwf Hit).
  - exists listings, w'. split; [|exact Hres].
    unfold Inventory.relistItems, Inventory.bind, Inventory.getWorld.
    exact Hloop.
Qed.

Lemma entries_purchased new items :
  Forall2 entryOf new items ->
  filter (fun item => InventoryItem.status item = purchased)
    (JsMap.values new)
  = JsMap.values new.
Proof.
  unfold JsMap.values. induction 1 as [|e item new items [d ->] _ IH];
    [reflexivity|].
  rewrite fmap_cons, filter_cons. simpl.
  destruct (decide (purchased = purchased)); [|congruence].
  rewrite IH. reflexivity.
Qed.

Lemma entries_keys new items :
  Forall2 entryOf new items ->
  JsMap.keys new = EvaluatedListing.id <$> items.
Proof.
  unfold JsMap.keys. induction 1 as [|e item new items [d ->] _ IH];
    [reflexivity|].
  rewrite !fmap_cons, IH. reflexivity.
Qed.

(** X20.  What the agent buys it offers again.  After a batch with
    pairwise distinct ids, none of them in the inventory yet, has been
    decided and handed on to an inventory without purchased items, the
    next sweep returns exactly one re-listing per listing bought, in batch
    order, under the id ["resale_" + id], at the listing's estimated
    resale value and with its title, url, marketplace and category. *)
Theorem bought_items_are_relisted
    clockD clockT clockI clockS evaluated bo state lw iw :
  let '(ds, calls, _) :=
    DecisionActor.makeDecisions clockD evaluated bo state in
  let '(_, _, iw') := deliver clockT clockI (fun _ => None) calls lw iw in
  NoDup (EvaluatedListing.id <$> evaluated) ->
  InventoryProps.wf iw ->
  InventoryProps.purchasedItems iw = [] ->
  (forall item, item ∈ evaluated ->
     EvaluatedListing.id item ∉ JsMap.keys (Inventory.inventory iw)) ->
  exists listings iw'',
    Inventory.relistItems clockS iw' = (inr listings, iw'')
    /\ Forall2 offersAgain listings (bought evaluated ds).
Proof.
  unfold DecisionActor.makeDecisions, DecisionController.makeDecisions.
  pose proof (decideAll_aligned clockD evaluated 0
                (DecisionActor.setBudget bo state)) as Hal.
  destruct (decideAll clockD 0 evaluated _) as [ds s1]. simpl in Hal.
  destruct (deliver clockT clockI (fun _ => None)
              (processPurchases ds evaluated) lw iw)
    as [[error lw'] iw'] eqn:Hrun.
  intros Hnd [Hkeys Hfiled] Hnone Hout.
  rewrite (processPurchases_aligned evaluated evaluated ds Hnd
             (fun _ H => H) Hal) in Hrun.
  pose proof (bought_NoDup _ _ Hal Hnd) as Hndb.
  destruct (deliver_bought clockT clockI (bought evaluated ds) lw iw Hndb)
    as (lw2 & iw2 & txs & Hrun' & _ & _ & _ & _ & _ & _ & Hnew).
  rewrite Hrun' in Hrun. injection Hrun as <- <- <-.
  destruct Hnew as (new & Hinv & Hent).
  { intros item Hitem. apply Hout.
    eapply elem_of_sublist; [exact Hitem|apply bought_sublist, Hal]. }
  assert (Hwf : InventoryProps.wf iw2).
  { split.
    - rewrite Hinv. unfold JsMap.keys. rewrite fmap_app.
      apply NoDup_app. split; [exact Hkeys|]. split.
      + intros k Hk Hk'. fold (JsMap.keys new) in Hk'.
        rewrite (entries_keys _ _ Hent) in Hk'.
        apply list_elem_of_fmap in Hk' as (item & -> & Hitem).
        apply (Hout item); [|exact Hk].
        eapply elem_of_sublist; [exact Hitem|apply bought_sublist, Hal].
      + fold (JsMap.keys new). rewrite (entries_keys _ _ Hent). exact Hndb.
    - intros k v Hkv. rewrite Hinv in Hkv.
      apply elem_of_app in Hkv as [Hkv|Hkv]; [exact (Hfiled _ _ Hkv)|].
      destruct (Forall2_elem_l _ _ _ _ Hent Hkv) as (item & _ & d & Heq).
      injection Heq as -> ->. reflexivity. }
  destruct (relistItems_listings clockS iw2 Hwf) as (listings & w' & Hs & Hres).
  exists listings, w'. split; [exact Hs|].
  assert (Hp : InventoryProps.purchasedItems iw2 = JsMap.values new).
  { unfold InventoryProps.purchasedItems. rewrite Hinv.
    unfold JsMap.values at 1. rewrite fmap_app, filter_app.
    fold (JsMap.values (Inventory.inventory iw)). fold (JsMap.values new).
    fold (InventoryProps.purchasedItems iw).
    rewrite Hnone, (entries_purchased _ _ Hent). reflexivity. }
  rewrite Hp in Hres. unfold JsMap.values in Hres.
  rewrite Forall2_fmap_r in Hres.
  refine (Forall2_compose _ _ _ _ _ _ _ Hres Hent).
  intros l e item HR [d ->]. exact HR.
Qed.

(** [bought_items_are_relisted] at work: of two listings the first is
    bought and, on the sweep, offered again. *)
Lemma bought_items_are_relisted_witness :
  exists listings iw'',
    Inventory.relistItems (fun _ => "s"%string)
      (snd (deliver (fun _ => "t"%string) (fun _ => "i"%string)
              (fun _ => None)
              (snd (fst
                 (DecisionActor.makeDecisions (fun _ => "d"%string)
                    [sampleListing "a" 300 100 0.5;
                     sampleListing "b" 100 10 0.1]
                    (Some 500) createInitialState)))
              LedgerProps.freshWorld Inventory.emptyWorld))
    = (inr listings, iw'')
    /\ Forall2 offersAgain listings [sampleListing "a" 300 100 0.5].
Proof.
  assert (Hnd : NoDup (EvaluatedListing.id
                         <$> [sampleListing "a" 300 100 0.5;
                              sampleListing "b" 100 10 0.1]))
    by (repeat constructor; set_solver).
  assert (Hout : forall item,
             item ∈ [sampleListing "a" 300 100 0.5;
                     sampleListing "b" 100 10 0.1] ->
             EvaluatedListing.id item
             ∉ JsMap.keys (Inventory.inventory Inventory.emptyWorld))
    by (intros item _; apply not_elem_of_nil).
  pose proof (bought_items_are_relisted (fun _ => "d"%string)
                (fun _ => "t"%string) (fun _ => "i"%string)
                (fun _ => "s"%string)
                [sampleListing "a" 300 100 0.5; sampleListing "b" 100 10 0.1]
                (Some 500) createInitialState LedgerProps.freshWorld
                Inventory.emptyWorld) as H.
  vm_compute in H.
  exact (H Hnd wf_emptyWorld eq_refl Hout).
Defined.
